(** * Trade dashboard (app.py): loader, cache, filter and aggregation

    A shallow embedding of [src/app.py], a Streamlit script that reads a
    Google Sheet through gspread into a pandas DataFrame, filters it with four
    text inputs and draws grouped charts.

    The script's own code is translated line by line.  The library calls it
    makes are given the meaning their libraries document:

    - Python exceptions are values of [exn]; a computation yields an
      [outcome] and the Streamlit elements it emitted ([M]).
    - Text is a [string], the UTF-8 bytes of a Python string; matching works
      on the characters it encodes.
    - An int64 cell is a [Z], and int64 arithmetic wraps around.  A float64
      cell is a [Q], the value of a finite float64, and float64 arithmetic
      rounds to the nearest float64, ties to even.  The infinities and the
      negative zero are no values of the model: a computation that would
      produce one yields [Beyond].  NaN occurs as the missing value of
      [to_numeric] alone, which [fillna(0)] replaces.
    - [Series.str.contains] compiles its pattern as a regular expression
      (pandas' default [regex=True]).  The model covers patterns of ASCII
      and Thai characters with [.], [|], groups and the quantifiers [*],
      [+], [?]; any other syntax, and any other character in a pattern,
      yields [Beyond], on which no theorem concludes anything.
    - The script never imports plotly: the names [go] and [px] are not
      bound, and looking one up raises [NameError]. *)

From Stdlib Require Import List String Ascii ZArith QArith Qabs Qround Bool Arith Lia Lra.
From Stdlib Require Import Sorted Permutation.
Import ListNotations.

Local Open Scope string_scope.
Local Open Scope Z_scope.

(** ** Python effects: exceptions and emitted elements *)

Module Py.

(** The exception classes that occur; every one derives from [Exception]. *)
Inductive exn_class :=
| SpreadsheetNotFound   (* gspread.exceptions.SpreadsheetNotFound *)
| WorksheetNotFound     (* gspread.exceptions.WorksheetNotFound *)
| APIError              (* gspread.exceptions.APIError, transport and auth *)
| FileNotFoundError
| ImportError
| IndexError
| KeyError
| ValueError
| TypeError
| AttributeError
| ReError               (* re.error *)
| NameError
| OtherException.

Record exn := Exn { exn_cls : exn_class; exn_msg : string }.

(** [Beyond]: the input leaves the fragment of a library this file models. *)
Inductive outcome (A : Type) :=
| Ok (a : A)
| Raise (e : exn)
| Beyond.
Arguments Ok {A} a.
Arguments Raise {A} e.
Arguments Beyond {A}.

Definition obind {A B} (o : outcome A) (f : A -> outcome B) : outcome B :=
  match o with
  | Ok a => f a
  | Raise e => Raise e
  | Beyond => Beyond
  end.

Definition exn_class_eqb (a b : exn_class) : bool :=
  match a, b with
  | SpreadsheetNotFound, SpreadsheetNotFound
  | WorksheetNotFound, WorksheetNotFound
  | APIError, APIError
  | FileNotFoundError, FileNotFoundError
  | ImportError, ImportError
  | IndexError, IndexError
  | KeyError, KeyError
  | ValueError, ValueError
  | TypeError, TypeError
  | AttributeError, AttributeError
  | ReError, ReError
  | NameError, NameError
  | OtherException, OtherException => true
  | _, _ => false
  end.

End Py.
Export Py.

Declare Scope outcome_scope.
Delimit Scope outcome_scope with outcome.
Notation "x <- o ;; k" := (obind o (fun x => k))
  (at level 61, o at next level, right associativity) : outcome_scope.

(** ** Text *)

Module Text.

Definition code (c : ascii) : nat := nat_of_ascii c.

(** A character of a Python string: a Unicode code point. *)
Definition char := N.

(** The code point of an ASCII character. *)
Definition cp (c : ascii) : char := N_of_ascii c.

Definition is_cont (b : N) : bool := ((128 <=? b) && (b <? 192))%N.

(** A byte that starts no UTF-8 sequence stands for itself, apart from the
    code points of text. *)
Definition stray (b : N) : char := (56320 + b)%N.

(** The characters a string of bytes encodes in UTF-8. *)
Fixpoint decode (l : list ascii) : list char :=
  match l with
  | [] => []
  | c0 :: l0 =>
      let b0 := cp c0 in
      if (b0 <? 128)%N then b0 :: decode l0
      else
        match l0 with
        | [] => [stray b0]
        | c1 :: l1 =>
            let b1 := cp c1 in
            if ((192 <=? b0) && (b0 <? 224) && is_cont b1)%N
            then ((b0 - 192) * 64 + (b1 - 128))%N :: decode l1
            else
              match l1 with
              | [] => stray b0 :: decode l0
              | c2 :: l2 =>
                  let b2 := cp c2 in
                  if ((224 <=? b0) && (b0 <? 240) && is_cont b1 && is_cont b2)%N
                  then ((b0 - 224) * 4096 + (b1 - 128) * 64 + (b2 - 128))%N
                       :: decode l2
                  else
                    match l2 with
                    | [] => stray b0 :: decode l0
                    | c3 :: l3 =>
                        let b3 := cp c3 in
                        if ((240 <=? b0) && (b0 <? 248) && is_cont b1
                            && is_cont b2 && is_cont b3)%N
                        then ((b0 - 240) * 262144 + (b1 - 128) * 4096
                              + (b2 - 128) * 64 + (b3 - 128))%N :: decode l3
                        else stray b0 :: decode l0
                    end
              end
        end
  end.

Definition chars (s : string) : list char := decode (list_ascii_of_string s).

(** [str.isspace] on one character. *)
Definition is_space (c : char) : bool :=
  (((9 <=? c) && (c <=? 13)) || ((28 <=? c) && (c <=? 32))
   || (c =? 133) || (c =? 160) || (c =? 5760)
   || ((8192 <=? c) && (c <=? 8202))
   || (c =? 8232) || (c =? 8233) || (c =? 8239) || (c =? 8287)
   || (c =? 12288))%N.

(** C's [isspace], which the numeric parser skips. *)
Definition is_cspace (c : ascii) : bool :=
  let n := code c in
  (((9 <=? n) && (n <=? 13)) || (n =? 32))%nat.

Fixpoint drop_while {A} (p : A -> bool) (s : list A) : list A :=
  match s with
  | c :: s' => if p c then drop_while p s' else s
  | [] => []
  end.

Definition strip_with {A} (p : A -> bool) (s : list A) : list A :=
  rev (drop_while p (rev (drop_while p s))).

(** [s.strip()], as characters. *)
Definition strip (s : string) : list char := strip_with is_space (chars s).

(** The lower case of an ASCII letter; other characters are kept. *)
Definition lower (c : char) : char :=
  if ((65 <=? c) && (c <=? 90))%N then (c + 32)%N else c.

Definition lower_ascii (c : ascii) : ascii :=
  let n := code c in
  if ((65 <=? n) && (n <=? 90))%nat then ascii_of_nat (n + 32) else c.

(** What a character of the searched text is compared as under
    [re.IGNORECASE]: its lower case.  Beside the ASCII capitals, four
    characters are compared as ASCII letters: U+0130 and U+0131 as [i],
    U+017F as [s] and U+212A as [k]. *)
Definition fold (c : char) : char :=
  if ((c =? 304) || (c =? 305))%N then 105%N
  else if (c =? 383)%N then 115%N
  else if (c =? 8490)%N then 107%N
  else lower c.

(** The characters a pattern is modelled on: ASCII and the Thai block
    (U+0E00 to U+0E7F), which has no letter case.  No character other than
    those [fold] names is compared as one of them. *)
Definition in_alphabet (c : char) : bool :=
  ((c <? 128) || ((3584 <=? c) && (c <=? 3711)))%N.

(** Does [a], a character of the pattern, match [b], a character of the
    text, under [re.IGNORECASE]? *)
Definition ci_eqb (a b : char) : bool := N.eqb (lower a) (fold b).

Fixpoint ci_prefixb (p s : list char) : bool :=
  match p, s with
  | [], _ => true
  | _ :: _, [] => false
  | a :: p', b :: s' => ci_eqb a b && ci_prefixb p' s'
  end.

(** Does [s] contain [p], letter case apart? *)
Fixpoint ci_containsb (p s : list char) : bool :=
  ci_prefixb p s ||
  match s with
  | [] => false
  | _ :: s' => ci_containsb p s'
  end.


Definition is_digit (c : ascii) : bool :=
  let n := code c in ((48 <=? n) && (n <=? 57))%nat.

Definition digit_val (c : ascii) : Z := Z.of_nat (code c - 48).

Definition digit_char (d : Z) : ascii := ascii_of_nat (48 + Z.to_nat d).

(** Decimal digits of a natural number, most significant first. *)
Fixpoint nat_digits (fuel : nat) (n : Z) (acc : list ascii) : list ascii :=
  match fuel with
  | O => acc
  | S fuel' =>
      let acc' := digit_char (n mod 10) :: acc in
      if n <? 10 then acc' else nat_digits fuel' (n / 10) acc'
  end.

(** [str(z)] for an integer. *)
Definition Z_to_chars (z : Z) : list ascii :=
  let ds := nat_digits (S (Z.to_nat (Z.log2 (Z.abs z)))) (Z.abs z) [] in
  if z <? 0 then "-"%char :: ds else ds.

End Text.
Export Text.

(** ** Numbers: int64 and float64 *)

Module Np.

(** *** int64 *)

(** An int64 result wraps around. *)
Definition wrap64 (z : Z) : Z := (z + 2 ^ 63) mod 2 ^ 64 - 2 ^ 63.

Definition in_int64 (z : Z) : bool := (- 2 ^ 63 <=? z) && (z <? 2 ^ 63).

Definition pow10 (e : Z) : Q :=
  if 0 <=? e then inject_Z (10 ^ e) else / inject_Z (10 ^ (- e)).

(** *** float64 *)

Definition pow2 (e : Z) : Q :=
  if 0 <=? e then inject_Z (2 ^ e) else / inject_Z (2 ^ (- e)).

(** The binary exponent of a positive number: [2 ^ e <= a < 2 ^ (e + 1)]. *)
Definition ilog2 (a : Q) : Z :=
  let e := Z.log2 (Qnum a) - Z.log2 (Zpos (Qden a)) in
  if Qle_bool (pow2 e) a then e else e - 1.

(** The nearest integer, the even one of two that are as near. *)
Definition round_half_even (x : Q) : Z :=
  let f := Qfloor x in
  match (x - inject_Z f ?= 1 # 2)%Q with
  | Lt => f
  | Gt => f + 1
  | Eq => if Z.even f then f else f + 1
  end.

(** The float64 nearest to [q], ties to even: 53 bits above [2 ^ -1022],
    multiples of [2 ^ -1074] below. *)
Definition round64 (q : Q) : Q :=
  if Qeq_bool q 0 then 0%Q
  else
    let a := Qabs q in
    let u := pow2 (Z.max (ilog2 a) (-1022) - 52) in
    let m := (inject_Z (round_half_even (a / u)) * u)%Q in
    Qred (if Qle_bool 0 q then m else - m).

(** The largest float64. *)
Definition max_float : Q := inject_Z (2 ^ 1024 - 2 ^ 971).

Definition finite64 (q : Q) : bool := Qle_bool (Qabs q) max_float.

(** *** repr of a float *)

(** The decimal exponent of a positive number: [10 ^ e <= a < 10 ^ (e + 1)]. *)
Definition ilog10 (a : Q) : Z :=
  let e := (ilog2 a * 1233) / 4096 in
  if Qle_bool (pow10 (e + 1)) a then e + 1
  else if Qle_bool (pow10 e) a then e
  else e - 1.

(** The decimal [d * 10 ^ s] with [p] digits that reads back as [a], the
    nearer to [a] when the one below and the one above both do. *)
Definition reads_back (a : Q) (e : Z) (p : Z) : option (Z * Z) :=
  let s := e - p + 1 in
  let lo := Qfloor (a / pow10 s) in
  let below := (inject_Z lo * pow10 s)%Q in
  let above := (inject_Z (lo + 1) * pow10 s)%Q in
  let ok_lo := Qeq_bool (round64 below) a in
  let ok_hi := Qeq_bool (round64 above) a in
  if ok_lo && ok_hi then
    match (a - below ?= above - a)%Q with
    | Lt => Some (lo, s)
    | Gt => Some (lo + 1, s)
    | Eq => Some (if Z.even lo then lo else lo + 1, s)
    end
  else if ok_lo then Some (lo, s)
  else if ok_hi then Some (lo + 1, s)
  else None.

Fixpoint shortest (fuel : nat) (a : Q) (e : Z) (p : Z) : Z * Z :=
  match fuel with
  | O => (Qfloor (a / pow10 (e - 16)), e - 16)
  | S fuel' =>
      match reads_back a e p with
      | Some r => r
      | None => shortest fuel' a e (p + 1)
      end
  end.

Fixpoint strip_zeros (fuel : nat) (d s : Z) : Z * Z :=
  match fuel with
  | O => (d, s)
  | S fuel' =>
      if (d mod 10 =? 0) && negb (d =? 0) then strip_zeros fuel' (d / 10) (s + 1)
      else (d, s)
  end.

Definition zeros (n : Z) : list ascii := repeat "0"%char (Z.to_nat n).

Definition exponent_chars (x : Z) : list ascii :=
  let ds := Z_to_chars (Z.abs x) in
  ((if x <? 0 then "-"%char else "+"%char)
   :: (if Z.abs x <? 10 then "0"%char :: ds else ds))%list.

(** [repr(x)] for a float [x]: the shortest digits that read back as [x],
    written with an exponent below [1e-4] and from [1e16] on. *)
Definition float_chars (q : Q) : list ascii :=
  if Qeq_bool q 0 then list_ascii_of_string "0.0"
  else
    let a := Qabs q in
    let '(d0, s0) := shortest 17 a (ilog10 a) 1 in
    let '(d, s) := strip_zeros 20 d0 s0 in
    let ds := Z_to_chars d in
    let n := Z.of_nat (List.length ds) in
    let decpt := n + s in
    let body :=
      if (decpt <=? -4) || (16 <? decpt) then
        (match ds with
         | [] => []
         | d1 :: rest =>
             d1 :: match rest with [] => [] | _ => "."%char :: rest end
         end ++ "e"%char :: exponent_chars (decpt - 1))%list
      else if decpt <=? 0 then
        ("0"%char :: "."%char :: zeros (- decpt) ++ ds)%list
      else if n <=? decpt then
        (ds ++ zeros (decpt - n) ++ list_ascii_of_string ".0")%list
      else
        (firstn (Z.to_nat decpt) ds ++ "."%char :: skipn (Z.to_nat decpt) ds)%list in
    if Qle_bool 0 q then body else "-"%char :: body.

(** *** Arithmetic on float64 *)

(** The sum of two float64: the exact sum, rounded.  A sum past the largest
    float64 is an infinity. *)
Definition fadd (x y : Q) : outcome Q :=
  let r := round64 (x + y) in
  if finite64 r then Ok r else Beyond.

Definition fsub (x y : Q) : outcome Q := fadd x (- y).

(** An int64 as a float64. *)
Definition of_int (z : Z) : Q := round64 (inject_Z z).

End Np.
Export Np.

(** ** Python's [re], the fragment [Series.str.contains] is run on *)

Module Re.

Inductive regex :=
| RVoid                        (* matches nothing *)
| REps                         (* the empty string *)
| RChr (c : char)              (* one character of the alphabet, letter case apart *)
| RDot                         (* any character but a newline *)
| RCat (r s : regex)
| RAlt (r s : regex)
| RStar (r : regex).

Fixpoint nullable (r : regex) : bool :=
  match r with
  | RVoid | RChr _ | RDot => false
  | REps | RStar _ => true
  | RCat r s => nullable r && nullable s
  | RAlt r s => nullable r || nullable s
  end.

Definition newline : char := 10%N.

(** What is left of [r] to match once [a] has been read. *)
Fixpoint deriv (a : char) (r : regex) : regex :=
  match r with
  | RVoid | REps => RVoid
  | RChr c => if ci_eqb c a then REps else RVoid
  | RDot => if N.eqb a newline then RVoid else REps
  | RCat r s =>
      if nullable r then RAlt (RCat (deriv a r) s) (deriv a s)
      else RCat (deriv a r) s
  | RAlt r s => RAlt (deriv a r) (deriv a s)
  | RStar r => RCat (deriv a r) (RStar r)
  end.

(** [pat.match]: does a prefix of [s] match? *)
Fixpoint match_prefix (r : regex) (s : list char) : bool :=
  nullable r ||
  match s with
  | [] => false
  | a :: s' => match_prefix (deriv a r) s'
  end.

(** [pat.search(s) is not None]: does [r] match somewhere in [s]? *)
Fixpoint search (r : regex) (s : list char) : bool :=
  match_prefix r s ||
  match s with
  | [] => false
  | _ :: s' => search r s'
  end.

(** The special characters of a pattern. *)
Definition is_meta (c : char) : bool :=
  existsb (N.eqb c) (chars ".^$*+?{}[]\|()").

(** One level of parentheses while parsing: the alternatives closed so far and
    the items of the current one (both latest first), and whether the latest
    item already carries a quantifier. *)
Record frame := Frame {
  alts : list regex;
  items : list regex;
  quantified : bool
}.

Definition frame0 : frame := Frame [] [] false.

Definition branch (its : list regex) : regex :=
  fold_left (fun acc r => RCat r acc) its REps.

Definition close (f : frame) : regex :=
  fold_left (fun acc r => RAlt r acc) (alts f) (branch (items f)).

Definition push (f : frame) (r : regex) : frame :=
  Frame (alts f) (r :: items f) false.

Definition quantify (q : char) (r : regex) : regex :=
  if N.eqb q (cp "*") then RStar r
  else if N.eqb q (cp "+") then RCat r (RStar r)
  else RAlt r REps.

Definition re_error (msg : string) : outcome regex := Raise (Exn ReError msg).

(** [re.compile]: [cur] is the innermost open level, [stack] the levels around it. *)
Fixpoint parse (s : list char) (cur : frame) (stack : list frame)
  : outcome regex :=
  match s with
  | [] =>
      match stack with
      | [] => Ok (close cur)
      | _ :: _ => re_error "missing ), unterminated subpattern"
      end
  | c :: s' =>
      if N.eqb c (cp "(") then
        if match s' with x :: _ => N.eqb x (cp "?") | [] => false end
        then Beyond                             (* an extension group *)
        else parse s' frame0 (cur :: stack)
      else if N.eqb c (cp ")") then
        match stack with
        | [] => re_error "unbalanced parenthesis"
        | f :: stack' => parse s' (push f (close cur)) stack'
        end
      else if N.eqb c (cp "|") then
        parse s' (Frame (branch (items cur) :: alts cur) [] false) stack
      else if N.eqb c (cp "*") || N.eqb c (cp "+") || N.eqb c (cp "?") then
        match items cur with
        | [] => re_error "nothing to repeat"
        | r :: rs =>
            if quantified cur then Beyond       (* lazy, possessive, repeated *)
            else parse s' (Frame (alts cur) (quantify c r :: rs) true) stack
        end
      else if N.eqb c (cp ".") then parse s' (push cur RDot) stack
      else if is_meta c then Beyond             (* ^ $ { } [ ] and the backslash *)
      else if in_alphabet c then parse s' (push cur (RChr c)) stack
      else Beyond                               (* letter case outside ASCII *)
  end.

(** [re.compile(pat, flags=re.IGNORECASE)] *)
Definition compile (pat : list char) : outcome regex := parse pat frame0 [].

End Re.

(** ** pandas: frames, coercion, text matching, grouping *)

Module Pd.

(** A cell: text (dtype object), an int64 or a float64 value. *)
Inductive cell :=
| CStr (s : string)
| CInt (z : Z)
| CFloat (q : Q).

(** A frame: the column labels and the records, each a row of cells. *)
Record DataFrame := mkDF {
  columns : list string;
  rows : list (list cell)
}.

(** [pd.DataFrame()] *)
Definition empty_frame : DataFrame := mkDF [] [].

(** [df.empty]: some axis has length zero. *)
Definition df_empty (df : DataFrame) : bool :=
  match columns df, rows df with
  | [], _ | _, [] => true
  | _, _ => false
  end.

(** [len(df)] *)
Definition df_len (df : DataFrame) : nat := List.length (rows df).

(** Every record has one cell per column. *)
Definition rectangular (df : DataFrame) : Prop :=
  Forall (fun r => List.length r = List.length (columns df)) (rows df).

(** [name in df.columns] *)
Definition has_column (df : DataFrame) (name : string) : bool :=
  existsb (String.eqb name) (columns df).

Definition occurrences (name : string) (cols : list string) : nat :=
  List.length (filter (String.eqb name) cols).

(** Position of the first column called [name]. *)
Fixpoint position (name : string) (cols : list string) : option nat :=
  match cols with
  | [] => None
  | c :: cols' =>
      if String.eqb name c then Some O
      else option_map S (position name cols')
  end.

Definition cell_at (i : nat) (r : list cell) : cell := nth i r (CStr "").

(** The width of the widest row. *)
Definition width {A} (vals : list (list A)) : nat :=
  fold_right (fun r m => Nat.max (List.length r) m) O vals.

(** [pd.DataFrame(records, columns=header)] on rows of text.  Rows as wide
    as the header make the frame; pandas refuses data of another width, and
    fills rows that are too short with None, which is no cell of this model. *)
Definition from_records (records : list (list string)) (header : list string)
  : outcome DataFrame :=
  if forallb (fun r => List.length r =? List.length header)%nat records
  then Ok (mkDF header (map (map CStr) records))
  else if (width records =? List.length header)%nat then Beyond
  else Raise (Exn ValueError "columns passed do not match the data").

(** *** [pd.to_numeric(series, errors='coerce')] *)

Inductive parsed :=
| PInt (z : Z)        (* an integer literal, within int64 *)
| PFloat (q : Q)      (* a literal with a point or an exponent, as a float64 *)
| PNaN                (* not a number *)
| POut.               (* a number outside those modelled *)

Fixpoint read_digits (s : list ascii) (acc : Z) (n : nat)
  : Z * nat * list ascii :=
  match s with
  | c :: s' =>
      if is_digit c then read_digits s' (10 * acc + digit_val c) (S n)
      else (acc, n, s)
  | [] => (acc, n, [])
  end.

Definition read_sign (s : list ascii) : bool * list ascii :=
  match s with
  | "-"%char :: s' => (true, s')
  | "+"%char :: s' => (false, s')
  | _ => (false, s)
  end.

Definition chars_eqb (a b : list ascii) : bool :=
  String.eqb (string_of_list_ascii a) (string_of_list_ascii b).

Definition spells_inf (s : list ascii) : bool :=
  let l := map lower_ascii s in
  chars_eqb l (list_ascii_of_string "inf")
  || chars_eqb l (list_ascii_of_string "infinity").

(** The exponent part: absent, or [e] or [E], a sign and digits up to the
    end; with the exponent comes the number of its digits. *)
Definition read_exponent (s : list ascii) : option (option (Z * nat)) :=
  match s with
  | [] => Some None
  | c :: s' =>
      if Ascii.eqb (lower_ascii c) "e" then
        let '(neg, s1) := read_sign s' in
        match read_digits s1 0 O with
        | (e, S n, []) => Some (Some (if neg then - e else e, S n))
        | _ => None
        end
      else None
  end.

(** An integer literal of [digits] digits that write [n].  It is an int64
    when it fits.  Left out: a minus sign before zero, which is the negative
    zero among floats, and a literal of more than 17 digits that starts with
    zeros. *)
Definition int_literal (neg : bool) (digits : nat) (n : Z) : parsed :=
  let z := if neg then - n else n in
  if neg && (n =? 0) then POut
  else if (17 <? digits)%nat && (n <=? 2 ^ 53) then POut
  else if in_int64 z then PInt z
  else POut.

(** A literal with a point or an exponent: [digits] digits that write [n],
    times ten to the [k], [k] written with [edigits] digits.  The parser
    holds the digits in a float64 and scales it by a power of ten in one
    operation; that is the nearest float64 when the digits are at most 17
    and make a number up to [2 ^ 53], and the power of ten is one a float64
    holds exactly (up to the 22nd).  Other literals are left out. *)
Definition float_literal (neg : bool) (digits : nat) (n k : Z)
    (edigits : nat) : parsed :=
  if (digits <=? 17)%nat && (n <=? 2 ^ 53) && (-22 <=? k) && (k <=? 22)
     && (edigits <=? 17)%nat && negb (neg && (n =? 0))
  then
    let q := (inject_Z n * pow10 k)%Q in
    PFloat (round64 (if neg then - q else q))
  else POut.

Definition parse_numeric (s : string) : parsed :=
  let t := strip_with is_cspace (list_ascii_of_string s) in
  let '(neg, t1) := read_sign t in
  if spells_inf t1 then POut else
  let '(ip, n1, t2) := read_digits t1 0 O in
  let '(fp, n2, t3, point) :=
    match t2 with
    | "."%char :: r => let '(f, n, r') := read_digits r 0 O in (f, n, r', true)
    | _ => (0, O, t2, false)
    end in
  if (n1 + n2 =? 0)%nat then PNaN else
  match read_exponent t3 with
  | None => PNaN
  | Some None =>
      if point
      then float_literal neg (n1 + n2) (ip * 10 ^ Z.of_nat n2 + fp)
             (- Z.of_nat n2) O
      else int_literal neg n1 ip
  | Some (Some (e, ne)) =>
      float_literal neg (n1 + n2) (ip * 10 ^ Z.of_nat n2 + fp)
        (e - Z.of_nat n2) ne
  end.

(** A numeric series: int64, or float64 where [None] is NaN. *)
Inductive series :=
| IntSeries (vs : list Z)
| FloatSeries (vs : list (option Q)).

Definition cell_text (c : cell) : option string :=
  match c with CStr s => Some s | _ => None end.

Definition parse_cell (c : cell) : parsed :=
  match c with
  | CStr s => parse_numeric s
  | CInt z => PInt z
  | CFloat q => PFloat q
  end.

Definition is_PInt (p : parsed) : bool :=
  match p with PInt _ => true | _ => false end.

Definition is_POut (p : parsed) : bool :=
  match p with POut => true | _ => false end.

Definition as_int (p : parsed) : Z :=
  match p with PInt z => z | _ => 0 end.

Definition as_float (p : parsed) : option Q :=
  match p with
  | PInt z => Some (inject_Z z)
  | PFloat q => Some q
  | PNaN | POut => None
  end.

(** An integer literal among floats is read as a float64, which holds it
    exactly up to [2 ^ 53]. *)
Definition float_ok (p : parsed) : bool :=
  match p with PInt z => Z.abs z <=? 2 ^ 53 | _ => true end.

(** The series is int64 when every value is an integer literal, float64 with
    NaN for what does not parse otherwise. *)
Definition to_numeric_coerce (col : list cell) : outcome series :=
  let ps := map parse_cell col in
  if existsb is_POut ps then Beyond
  else if forallb is_PInt ps then Ok (IntSeries (map as_int ps))
  else if forallb float_ok ps then Ok (FloatSeries (map as_float ps))
  else Beyond.

(** [series.fillna(0)] *)
Definition fillna0 (s : series) : list cell :=
  match s with
  | IntSeries vs => map CInt vs
  | FloatSeries vs =>
      map (fun v => CFloat match v with Some q => q | None => 0%Q end) vs
  end.

(** [df[name]], the cells of the column at position [i]. *)
Definition column_at (i : nat) (df : DataFrame) : list cell :=
  map (cell_at i) (rows df).

Fixpoint set_nth {A} (i : nat) (x : A) (l : list A) : list A :=
  match i, l with
  | _, [] => []
  | O, _ :: l' => x :: l'
  | S i', y :: l' => y :: set_nth i' x l'
  end.

Fixpoint zip_with {A B C} (f : A -> B -> C) (l : list A) (m : list B) : list C :=
  match l, m with
  | a :: l', b :: m' => f a b :: zip_with f l' m'
  | _, _ => []
  end.

(** [df[name] = values] for a column that exists, at position [i]. *)
Definition set_column (i : nat) (values : list cell) (df : DataFrame)
  : DataFrame :=
  mkDF (columns df) (zip_with (fun r v => set_nth i v r) (rows df) values).

(** What [df[name]] is: a series when one column bears the name, a frame
    when several do. *)
Inductive item :=
| ItemSeries (i : nat) (col : list cell)    (* the column and its position *)
| ItemFrame.

(** [KeyError], with the missing label as its message. *)
Definition key_error (name : string) : exn := Exn KeyError name.

(** [df[name]] *)
Definition getitem (df : DataFrame) (name : string) : outcome item :=
  match position name (columns df) with
  | None => Raise (key_error name)
  | Some i =>
      if (occurrences name (columns df) =? 1)%nat
      then Ok (ItemSeries i (column_at i df))
      else Ok ItemFrame
  end.

(** *** [series.astype(str)]: [str] of an int, [repr] of a float *)

Definition astype_str (c : cell) : string :=
  match c with
  | CStr s => s
  | CInt z => string_of_list_ascii (Z_to_chars z)
  | CFloat q => string_of_list_ascii (float_chars q)
  end.

(** [series.str.contains(pat, case=False, na=False)] on a series of text:
    the pattern is compiled once, then searched for in every value. *)
Definition str_contains (texts : list string) (pat : list char)
  : outcome (list bool) :=
  (r <- Re.compile pat ;;
   Ok (map (fun t => Re.search r (chars t)) texts))%outcome.

(** [df[mask]]: the records whose entry of the mask is true, in order. *)
Fixpoint select_rows (mask : list bool) (rs : list (list cell))
  : list (list cell) :=
  match mask, rs with
  | b :: mask', r :: rs' =>
      if b then r :: select_rows mask' rs' else select_rows mask' rs'
  | _, _ => []
  end.

(** *** [groupby(...).sum()] *)

Definition cell_num (c : cell) : option Q :=
  match c with
  | CStr _ => None
  | CInt z => Some (inject_Z z)
  | CFloat q => Some q
  end.

(** The order of group keys: numbers by value, before text by code point. *)
Definition cell_compare (a b : cell) : comparison :=
  match cell_num a, cell_num b with
  | Some x, Some y => (x ?= y)%Q
  | Some _, None => Lt
  | None, Some _ => Gt
  | None, None => String.compare (astype_str a) (astype_str b)
  end.

(** Two cells are the same group key. *)
Definition cell_eqb (a b : cell) : bool :=
  match cell_compare a b with Eq => true | _ => false end.

(** The distinct keys, each at its first occurrence. *)
Fixpoint uniques (ks : list cell) : list cell :=
  match ks with
  | [] => []
  | k :: ks' => k :: filter (fun x => negb (cell_eqb x k)) (uniques ks')
  end.

Fixpoint insert_key (k : cell) (l : list cell) : list cell :=
  match l with
  | [] => [k]
  | x :: l' =>
      match cell_compare k x with
      | Gt => x :: insert_key k l'
      | _ => k :: l
      end
  end.

(** [sort=True]: the groups come in the order of their keys. *)
Definition sort_keys (ks : list cell) : list cell :=
  fold_right insert_key [] ks.

(** The value of a cell that holds a number. *)
Definition cell_value (c : cell) : Q :=
  match cell_num c with Some q => q | None => 0%Q end.

(** The values of a column of one numeric dtype. *)
Inductive numbers :=
| Ints (zs : list Z)
| Floats (qs : list Q).

Definition is_text (c : cell) : bool :=
  match c with CStr _ => true | _ => false end.

Definition is_int (c : cell) : bool :=
  match c with CInt _ => true | _ => false end.

Definition is_float (c : cell) : bool :=
  match c with CFloat _ => true | _ => false end.

Definition int_of (c : cell) : Z :=
  match c with CInt z => z | _ => 0 end.

Definition float_of (c : cell) : Q :=
  match c with CFloat q => q | _ => 0%Q end.

(** What a column holds: numbers of one dtype, some text (dtype object), or
    integers and floats side by side, which no numeric dtype holds. *)
Inductive column_values :=
| Numbers (ns : numbers)
| Text
| Mixed.

Definition numeric_values (col : list cell) : column_values :=
  if existsb is_text col then Text
  else if forallb is_int col then Numbers (Ints (map int_of col))
  else if forallb is_float col then Numbers (Floats (map float_of col))
  else Mixed.

(** The values of the records whose key is [k], in the order of the records. *)
Definition group_values {A} (keys : list cell) (vs : list A) (k : cell)
  : list A :=
  map snd (filter (fun p => cell_eqb (fst p) k) (combine keys vs)).

Definition zsum (zs : list Z) : Z := fold_right Z.add 0 zs.

(** pandas adds the float64 values of a group one by one with Kahan's
    compensation: [sumx] is the sum so far, [c] what rounding has lost. *)
Fixpoint kahan (vs : list Q) (sumx c : Q) : outcome Q :=
  match vs with
  | [] => Ok sumx
  | v :: vs' =>
      (y <- fsub v c ;;
       t <- fadd sumx y ;;
       d <- fsub t sumx ;;
       c' <- fsub d y ;;
       kahan vs' t c')%outcome
  end.

(** The sum of a column, in the arithmetic of its dtype. *)
Definition total (ns : numbers) : outcome cell :=
  match ns with
  | Ints zs => Ok (CInt (wrap64 (zsum zs)))
  | Floats qs => (q <- kahan qs 0 0 ;; Ok (CFloat q))%outcome
  end.

(** The values of the group [k]. *)
Definition group_of_numbers (keys : list cell) (ns : numbers) (k : cell)
  : numbers :=
  match ns with
  | Ints zs => Ints (group_values keys zs k)
  | Floats qs => Floats (group_values keys qs k)
  end.

(** The sum of [ns] over the records whose key is [k]. *)
Definition group_total (keys : list cell) (ns : numbers) (k : cell)
  : outcome cell :=
  total (group_of_numbers keys ns k).

(** [f] on every member, up to the first that fails. *)
Fixpoint traverse {A B} (f : A -> outcome B) (l : list A) : outcome (list B) :=
  match l with
  | [] => Ok []
  | x :: l' => (y <- f x ;; ys <- traverse f l' ;; Ok (y :: ys))%outcome
  end.

(** [a - b] on two numeric cells: int64 when both are, float64 otherwise. *)
Definition cell_sub (a b : cell) : outcome cell :=
  match a, b with
  | CInt x, CInt y => Ok (CInt (wrap64 (x - y)))
  | CInt x, CFloat y => (q <- fsub (of_int x) y ;; Ok (CFloat q))%outcome
  | CFloat x, CInt y => (q <- fsub x (of_int y) ;; Ok (CFloat q))%outcome
  | CFloat x, CFloat y => (q <- fsub x y ;; Ok (CFloat q))%outcome
  | _, _ => Beyond
  end.

(** [abs] of a numeric cell; the least int64 is its own absolute value. *)
Definition cell_abs (c : cell) : cell :=
  match c with
  | CInt z => CInt (wrap64 (Z.abs z))
  | CFloat q => CFloat (Qabs q)
  | CStr _ => c
  end.

(** The group keys of a key column, as [groupby] lists them. *)
Definition group_keys (keys : list cell) : list cell :=
  sort_keys (uniques keys).

(** *** [series.nlargest(n)] *)

Section NLargest.
Context {A : Type} (val : A -> Q).

(** [x] goes before the first entry that is not larger: equal values keep
    the order they came in. *)
Fixpoint insert_desc (x : A) (l : list A) : list A :=
  match l with
  | [] => [x]
  | y :: l' =>
      if Qle_bool (val y) (val x) then x :: l
      else y :: insert_desc x l'
  end.

Definition sort_desc (l : list A) : list A := fold_right insert_desc [] l.

Definition nlargest (n : Z) (l : list A) : list A :=
  if n <=? 0 then [] else firstn (Z.to_nat n) (sort_desc l).
End NLargest.

(** *** [frame.sort_values(by=column)] *)

Section SortValues.
Context {A : Type} (key : A -> cell).

(** [x] goes before the first entry whose key is not smaller. *)
Fixpoint insert_asc (x : A) (l : list A) : list A :=
  match l with
  | [] => [x]
  | y :: l' =>
      match cell_compare (key x) (key y) with
      | Gt => y :: insert_asc x l'
      | _ => x :: l
      end
  end.

(** The rows in ascending order of their keys. *)
Definition sort_values (l : list A) : list A := fold_right insert_asc [] l.
End SortValues.

End Pd.

(** ** Streamlit: the elements a run emits *)

Module St.

Import Pd.

(** What [st.plotly_chart] takes: the figures plotly would make of a
    summary.  No run of the script makes one, [go] and [px] not being bound. *)
Inductive figure :=
| Figure_empty                                         (* go.Figure() *)
| Figure_bars (title : string)                         (* two go.Bar traces *)
    (summary : list (cell * cell * cell))
| Figure_bar (x y title : string)                      (* px.bar, one metric *)
    (summary : list (cell * cell))
| Figure_balance (x title : string)                    (* px.bar of the balance *)
    (summary : list (cell * cell * cell * cell))
| Figure_line (title : string)                         (* px.line *)
    (summary : list (cell * cell * cell)).

Inductive event :=
| st_write (s : string)
| st_error (s : string)
| st_info (s : string)
| st_success (s : string)
| st_warning (s : string)
| st_set_page_config (layout page_title : string)
| st_title (s : string)
| st_header (s : string)
| st_subheader (s : string)
| st_sidebar_header (s : string)
| st_sidebar_subheader (s : string)
| st_columns (n : nat)
| st_dataframe (df : DataFrame)
| st_plotly_chart (fig : figure)
| remote (call : string).     (* a request to the Remote Table Source *)

Definition is_remote (e : event) : bool :=
  match e with remote _ => true | _ => false end.

Definition is_diagnostic (e : event) : bool :=
  match e with st_error _ | st_warning _ => true | _ => false end.

(** A run: the events in order, and how it ended. *)
Definition M (A : Type) : Type := list event * outcome A.

Definition ret {A} (a : A) : M A := ([], Ok a).

Definition bind {A B} (m : M A) (f : A -> M B) : M B :=
  match m with
  | (l, Ok a) => let '(l', r) := f a in ((l ++ l')%list, r)
  | (l, Raise e) => (l, Raise e)
  | (l, Beyond) => (l, Beyond)
  end.

Definition emit (e : event) : M unit := ([e], Ok tt).

Definition lift {A} (o : outcome A) : M A := ([], o).

(** A call that goes to the remote service. *)
Definition call {A} (name : string) (o : outcome A) : M A := ([remote name], o).

(** [try: m except ...: handler] where the clauses together catch [Exception]. *)
Definition try_except {A} (m : M A) (handler : exn -> M A) : M A :=
  match m with
  | (l, Raise e) => let '(l', r) := handler e in ((l ++ l')%list, r)
  | _ => m
  end.

End St.

Declare Scope run_scope.
Delimit Scope run_scope with run.
Notation "x <- c ;; k" := (St.bind c (fun x => k))
  (at level 61, c at next level, right associativity) : run_scope.
Notation "c ;; k" := (St.bind c (fun _ => k))
  (at level 61, right associativity) : run_scope.

(** ** gspread and the credential libraries: what the world answers *)

Module Gs.

Definition handle := nat.

(** The answers of the services outside the script during one run. *)
Record world := World {
  secrets_get : string -> outcome bool;          (* truth of st.secrets.get(key) *)
  service_account : outcome handle;              (* gspread.service_account() *)
  import_oauth2client : outcome unit;
  from_json_keyfile_name : string -> list string -> outcome handle;
  authorize : handle -> outcome handle;          (* gspread.authorize(creds) *)
  open_by_id : handle -> string -> outcome handle;
  worksheet : handle -> string -> outcome handle;
  sheet_values : handle -> outcome (list (list string))
}.

(** gspread pads the rows the API returns to one width with empty strings. *)
Definition fill_gaps (vals : list (list string)) : list (list string) :=
  map (fun r => (r ++ repeat "" (Pd.width vals - List.length r))%list) vals.

(** [worksheet.get_all_values()] *)
Definition get_all_values (w : world) (ws : handle)
  : outcome (list (list string)) :=
  (vals <- sheet_values w ws ;; Ok (fill_gaps vals))%outcome.

End Gs.

(** ** The script *)

Module App.

Import Pd St Gs.
Local Open Scope run_scope.

(** *** Google Sheet configuration *)

Definition SCOPE : list string :=
  ["https://spreadsheets.google.com/feeds";
   "https://www.googleapis.com/auth/drive"].
Definition SERVICE_ACCOUNT_FILE : string := "service_account_key.json".
Definition SPREADSHEET_ID : string := "1iyNH3jgsAVHcuPzLY_kMhvNNrET-LwnKv6snUrP7khs".
Definition SHEET_NAME : string := "TradeData".

(** The column labels the script names. *)
Definition IMPORTS : string := "นำเข้า".
Definition EXPORTS : string := "ส่งออก".
Definition YEAR : string := "ปี พ.ศ.".
Definition COUNTRY : string := "ชื่อประเทศ".
Definition HS_CODE : string := "พิกัดศุลกากร".
Definition ITEM : string := "รายการสินค้า".
Definition BALANCE : string := "ดุลการค้า".

Definition numeric_cols : list string := [IMPORTS; EXPORTS; YEAR].

(** *** get_data_from_sheet *)

(** [df[col] = pd.to_numeric(df[col], errors='coerce').fillna(0)] under
    [if col in df.columns]. *)
Definition coerce_column (df : DataFrame) (col : string) : outcome DataFrame :=
  if has_column df col then
    (it <- getitem df col ;;
     match it with
     | ItemFrame =>
         Raise (Exn TypeError "arg must be a list, tuple, 1-d array, or Series")
     | ItemSeries i cells =>
         s <- to_numeric_coerce cells ;;
         Ok (set_column i (fillna0 s) df)
     end)%outcome
  else Ok df.

(** [for col in numeric_cols: ...] *)
Fixpoint coerce_columns (cols : list string) (df : DataFrame)
  : outcome DataFrame :=
  match cols with
  | [] => Ok df
  | col :: cols' =>
      (df' <- coerce_column df col ;; coerce_columns cols' df')%outcome
  end.

(** [pd.DataFrame(data[1:], columns=data[0])] *)
Definition frame_of_values (data : list (list string)) : outcome DataFrame :=
  match data with
  | [] => Raise (Exn IndexError "list index out of range")
  | header :: records => from_records records header
  end.

(** Lines 55 to 74: open the sheet, read it, build and coerce the frame. *)
Definition fetch_frame (w : world) (client : handle) : M DataFrame :=
  spreadsheet <- call "open_by_id" (open_by_id w client SPREADSHEET_ID) ;;
  ws <- call "worksheet" (worksheet w spreadsheet SHEET_NAME) ;;
  data <- call "get_all_values" (get_all_values w ws) ;;
  df <- lift (frame_of_values data) ;;
  df <- lift (coerce_columns numeric_cols df) ;;
  emit (st_success "โหลดข้อมูลจาก Google Sheet สำเร็จ!") ;;
  ret df.

(** The body of the outer [try]. *)
Definition load_body (w : world) : M DataFrame :=
  secret <- lift (secrets_get w "gcp_service_account") ;;
  if (secret : bool) then
    emit (st_write "Debug: Found 'gcp_service_account' secret.") ;;
    match service_account w with
    | Ok client =>
        emit (st_write "Debug: gspread client created successfully from secrets.") ;;
        fetch_frame w client
    | Raise e_gspread =>
        emit (st_error ("Debug Error: Failed to create gspread client from 'gcp_service_account' secret. Error: " ++ exn_msg e_gspread)) ;;
        ret empty_frame
    | Beyond => lift Beyond
    end
  else
    emit (st_write "Debug: 'gcp_service_account' secret not found, falling back to local file.") ;;
    lift (import_oauth2client w) ;;
    creds <- lift (from_json_keyfile_name w SERVICE_ACCOUNT_FILE SCOPE) ;;
    client <- lift (authorize w creds) ;;
    fetch_frame w client.

(** The three [except] clauses, tried in order. *)
Definition load_handler (e : exn) : M DataFrame :=
  if exn_class_eqb (exn_cls e) SpreadsheetNotFound then
    emit (st_error ("เกิดข้อผิดพลาด: ไม่พบ Spreadsheet ID '" ++ SPREADSHEET_ID ++ "' หรือชื่อชีต '" ++ SHEET_NAME ++ "'")) ;;
    emit (st_info "โปรดตรวจสอบ SPREADSHEET_ID และ SHEET_NAME ในโค้ด") ;;
    ret empty_frame
  else if exn_class_eqb (exn_cls e) FileNotFoundError then
    emit (st_error ("เกิดข้อผิดพลาด: ไม่พบไฟล์ Service Account JSON ที่ชื่อ '" ++ SERVICE_ACCOUNT_FILE ++ "'")) ;;
    emit (st_info "โปรดตรวจสอบว่าคุณได้อัปโหลดไฟล์ '{SERVICE_ACCOUNT_FILE}' ไปยัง Colab แล้ว และชื่อไฟล์ถูกต้อง") ;;
    ret empty_frame
  else
    emit (st_error ("เกิดข้อผิดพลาดในการดึงข้อมูล: " ++ exn_msg e)) ;;
    emit (st_info "โปรดตรวจสอบว่า Service Account มีสิทธิ์เข้าถึง Google Sheet และการเชื่อมต่อถูกต้อง") ;;
    ret empty_frame.

Definition get_data_from_sheet (w : world) : M DataFrame :=
  try_except (load_body w) load_handler.

(** *** [@st.cache_data(ttl=300)] *)

Definition TTL : Z := 300.

(** The memo of the one cached call: when it was stored, the value returned
    and the elements to replay. *)
Record entry := Entry {
  stored_at : Z;
  value : DataFrame;
  elements : list event
}.

Definition cache := option entry.

Definition fresh (now : Z) (c : cache) : option entry :=
  match c with
  | Some e => if now <? stored_at e + TTL then Some e else None
  | None => None
  end.

(** One call of the decorated function at time [now]: a fresh entry is
    returned as it is; otherwise the function runs, and what it returns is
    stored. *)
Definition cached_get_data (c : cache) (now : Z) (w : world)
  : cache * M DataFrame :=
  match fresh now c with
  | Some e => (c, (elements e, Ok (value e)))
  | None =>
      match get_data_from_sheet w with
      | (l, Ok df) =>
          (Some (Entry now df (filter (fun ev => negb (is_remote ev)) l)),
           (l, Ok df))
      | r => (None, r)
      end
  end.

(** *** The filter stage (lines 111 to 121) *)

Record criteria := Criteria {
  selected_country : string;
  selected_hs_code : string;
  selected_item : string;
  selected_year : string
}.

(** Python's truth of a string: it is not empty. *)
Definition truthy (s : string) : bool := negb (String.eqb s "").

(** [df[df[column].astype(str).str.contains(selected.strip(), case=False, na=False)]] *)
Definition contains_mask (df : DataFrame) (column selected : string)
  : outcome DataFrame :=
  (it <- getitem df column ;;
   match it with
   | ItemFrame =>
       Raise (Exn AttributeError "'DataFrame' object has no attribute 'str'")
   | ItemSeries _ cells =>
       mask <- str_contains (map astype_str cells) (strip selected) ;;
       Ok (mkDF (columns df) (select_rows mask (rows df)))
   end)%outcome.

(** [if selected: filtered_df = filtered_df[...]] *)
Definition contains_step (df : DataFrame) (column selected : string)
  : outcome DataFrame :=
  if truthy selected then contains_mask df column selected else Ok df.

(** The value [filtered_df] holds after line 121. *)
Definition filtered_df (df : DataFrame) (c : criteria) : outcome DataFrame :=
  (f <- contains_step df COUNTRY (selected_country c) ;;
   f <- contains_step f HS_CODE (selected_hs_code c) ;;
   f <- contains_step f ITEM (selected_item c) ;;
   contains_step f YEAR (selected_year c))%outcome.

(** The same lines over the object store: a variable holds the address of a
    frame, [df.copy()] and [df[mask]] make a new object, an assignment to a
    frame's columns changes the object in place. *)
Definition heap := list DataFrame.

Definition deref (h : heap) (ref : nat) : DataFrame := nth ref h empty_frame.

Definition alloc (h : heap) (df : DataFrame) : heap * nat :=
  ((h ++ [df])%list, List.length h).

(** An in-place change of the object at [ref]. *)
Definition mutate (h : heap) (ref : nat) (df : DataFrame) : heap :=
  set_nth ref df h.

Definition contains_step_ref (h : heap) (ref : nat) (column selected : string)
  : heap * outcome nat :=
  if truthy selected then
    match contains_mask (deref h ref) column selected with
    | Ok df' => let '(h', ref') := alloc h df' in (h', Ok ref')
    | Raise e => (h, Raise e)
    | Beyond => (h, Beyond)
    end
  else (h, Ok ref).

Definition then_ref (r : heap * outcome nat)
    (k : heap -> nat -> heap * outcome nat) : heap * outcome nat :=
  match r with
  | (h, Ok ref) => k h ref
  | _ => r
  end.

(** [filtered_df = df.copy()] and the four steps; [df] is the address held
    by the variable [df]. *)
Definition filtered_df_ref (h : heap) (df : nat) (c : criteria)
  : heap * outcome nat :=
  let '(h0, f0) := alloc h (deref h df) in
  then_ref (contains_step_ref h0 f0 COUNTRY (selected_country c)) (fun h1 f1 =>
  then_ref (contains_step_ref h1 f1 HS_CODE (selected_hs_code c)) (fun h2 f2 =>
  then_ref (contains_step_ref h2 f2 ITEM (selected_item c)) (fun h3 f3 =>
  contains_step_ref h3 f3 YEAR (selected_year c)))).

(** *** The chart helpers (lines 133 to 168) *)

(** [df.groupby(group_col)]: the key column. *)
Definition grouper (df : DataFrame) (group_col : string)
  : outcome (list cell) :=
  (it <- getitem df group_col ;;
   match it with
   | ItemFrame => Raise (Exn ValueError "Grouper not 1-dimensional")
   | ItemSeries _ keys => Ok keys
   end)%outcome.

(** The column a grouped frame is asked for: [KeyError] when the frame has
    none of that label; labels borne by several columns are left out of the
    model. *)
Definition selected (df : DataFrame) (name : string) : outcome (list cell) :=
  match getitem df name with
  | Ok (ItemSeries _ cells) => Ok cells
  | Ok ItemFrame => Beyond
  | Raise _ => Raise (key_error name)
  | Beyond => Beyond
  end.

Definition already_exists (name : string) : exn :=
  Exn ValueError ("cannot insert " ++ name ++ ", already exists").

(** The name [name] is not bound in the script. *)
Definition name_error (name : string) : exn :=
  Exn NameError ("name '" ++ name ++ "' is not defined").

(** A group with the sum of each metric over it. *)
Definition sums_row (keys : list cell) (imps exps : numbers) (k : cell)
  : outcome (cell * cell * cell) :=
  (i <- group_total keys imps k ;;
   e <- group_total keys exps k ;;
   Ok (k, i, e))%outcome.

(** [df.groupby(group_col)[['นำเข้า', 'ส่งออก']].sum().reset_index()]: a row
    (key, import sum, export sum) per group.  [on_text] is what follows when
    a metric column holds text, whose sum is a concatenation. *)
Definition grouped_sums (df : DataFrame) (group_col : string)
    (on_text : outcome (list (cell * cell * cell)))
  : outcome (list (cell * cell * cell)) :=
  (keys <- grouper df group_col ;;
   imp <- selected df IMPORTS ;;
   exp <- selected df EXPORTS ;;
   if String.eqb group_col IMPORTS || String.eqb group_col EXPORTS
   then Raise (already_exists group_col)
   else
     match numeric_values imp, numeric_values exp with
     | Numbers i, Numbers e => traverse (sums_row keys i e) (group_keys keys)
     | Mixed, _ | _, Mixed => Beyond
     | _, _ => on_text
     end)%outcome.


Definition column_warning (name : string) : event :=
  st_warning ("ไม่พบคอลัมน์ '" ++ name ++ "' ในข้อมูล.").

(** A group with the sum of one metric over it. *)
Definition sum_row (keys : list cell) (vs : numbers) (k : cell)
  : outcome (cell * cell) :=
  (t <- group_total keys vs k ;; Ok (k, t))%outcome.

(** [df.groupby(col_name)[value_col].sum()]: a sum per group. *)
Definition grouped_sum (df : DataFrame) (col_name value_col : string)
  : outcome (list (cell * cell)) :=
  (keys <- grouper df col_name ;;
   vals <- selected df value_col ;;
   match numeric_values vals with
   | Numbers vs => traverse (sum_row keys vs) (group_keys keys)
   | Text =>
       Raise (Exn TypeError "Cannot use method 'nlargest' with dtype object")
   | Mixed => Beyond
   end)%outcome.

(** The sum a row of the top-N summary is ranked by. *)
Definition sum_of (row : cell * cell) : Q := cell_value (snd row).

(** Line 147: [summary], the [top_n] largest sums. *)
Definition top_n_summary (df_data : DataFrame) (col_name value_col : string)
    (top_n : Z) : outcome (list (cell * cell)) :=
  (sums <- grouped_sum df_data col_name value_col ;;
   let top := nlargest sum_of top_n sums in
   (* reset_index() *)
   if String.eqb col_name value_col then Raise (already_exists col_name)
   else Ok top)%outcome.

(** Lines 144 to 148: the guard, the summary, and [px.bar], where [px] is
    looked up; on the guard's branch, [go.Figure()], where [go] is. *)
Definition create_top_n_chart (df_data : DataFrame)
    (col_name value_col title : string) (top_n : Z) : M figure :=
  if negb (has_column df_data col_name) then
    emit (column_warning col_name) ;;
    lift (Raise (name_error "go"))
  else
    summary <- lift (top_n_summary df_data col_name value_col top_n) ;;
    lift (Raise (name_error "px")).

Definition balance_of (row : cell * cell * cell * cell) : cell := snd row.

(** [summary_df['ดุลการค้า'] = summary_df['ส่งออก'] - summary_df['นำเข้า']]; the
    new column takes the place of the key column when that bears its name. *)
Definition with_balance (group_col : string) (row : cell * cell * cell)
  : outcome (cell * cell * cell * cell) :=
  let '(k, imp, exp) := row in
  (bal <- cell_sub exp imp ;;
   Ok (if String.eqb group_col BALANCE then bal else k, imp, exp, bal))%outcome.

(** What the balance chart ranks a row by: [abs] of its balance. *)
Definition magnitude (row : cell * cell * cell * cell) : Q :=
  cell_value (cell_abs (balance_of row)).

(** Lines 158 to 162: [summary_df_sorted], the rows of the [top_n] largest
    balances in absolute value. *)
Definition balance_summary (df_data : DataFrame) (group_col : string)
    (top_n : Z) : outcome (list (cell * cell * cell * cell)) :=
  (summary_df <- grouped_sums df_data group_col
     (Raise (Exn TypeError "unsupported operand type(s) for -: 'str' and 'str'")) ;;
   summary_df <- traverse (with_balance group_col) summary_df ;;
   (* summary_df.loc[summary_df['ดุลการค้า'].abs().nlargest(top_n).index] *)
   Ok (nlargest magnitude top_n summary_df))%outcome.

(** Lines 155 to 164: the guard, the summary, and [px.bar]. *)
Definition create_balance_chart (df_data : DataFrame) (group_col title : string)
    (top_n : Z) : M figure :=
  if negb (has_column df_data group_col) then
    emit (column_warning group_col) ;;
    lift (Raise (name_error "go"))
  else
    summary_df_sorted <- lift (balance_summary df_data group_col top_n) ;;
    lift (Raise (name_error "px")).

(** *** The page (lines 89 to 224) *)

Inductive analysis :=
| Overview
| ItemAnalysis
| PartnerAnalysis
| HsCodeAnalysis.

(** The options of the select box. *)
Definition analysis_label (a : analysis) : string :=
  match a with
  | Overview => "ภาพรวม"
  | ItemAnalysis => "การวิเคราะห์สินค้า"
  | PartnerAnalysis => "การวิเคราะห์ประเทศคู่ค้า"
  | HsCodeAnalysis => "การวิเคราะห์พิกัดศุลกากร"
  end.

(** What the user set in the sidebar. *)
Record inputs := Inputs {
  analysis_type : analysis;
  filters : criteria
}.

(** The two top ten charts side by side. *)
Definition top_charts (f : DataFrame) (col title_in title_out : string)
  : M unit :=
  emit (st_columns 2) ;;
  fig <- create_top_n_chart f col IMPORTS title_in 10 ;;
  emit (st_plotly_chart fig) ;;
  fig <- create_top_n_chart f col EXPORTS title_out 10 ;;
  emit (st_plotly_chart fig).

Definition balance_chart (f : DataFrame) (col title : string) : M unit :=
  fig <- create_balance_chart f col title 10 ;;
  emit (st_plotly_chart fig).

(** Line 182: the sums per year, sorted by year. *)
Definition yearly_sums (f : DataFrame) : outcome (list (cell * cell * cell)) :=
  (summary <- grouped_sums f YEAR Beyond ;;
   Ok (sort_values (fun row => fst (fst row)) summary))%outcome.

Definition charts (a : analysis) (f : DataFrame) : M unit :=
  match a with
  | Overview =>
      emit (st_subheader "ภาพรวมการค้า") ;;
      top_charts f COUNTRY "10 อันดับแรกประเทศคู่ค้า (นำเข้า)"
        "10 อันดับแรกประเทศคู่ค้า (ส่งออก)" ;;
      if has_column f YEAR then
        yearly_summary <- lift (yearly_sums f) ;;
        fig <- lift (Raise (name_error "px")) ;;      (* px.line *)
        emit (st_plotly_chart fig)
      else
        emit (st_warning "ไม่พบคอลัมน์ 'ปี พ.ศ.' สำหรับกราฟแนวโน้มรายปี.")
  | ItemAnalysis =>
      emit (st_subheader "การวิเคราะห์สินค้า (รายการสินค้า)") ;;
      top_charts f ITEM "10 อันดับแรกสินค้า (นำเข้า)"
        "10 อันดับแรกสินค้า (ส่งออก)" ;;
      balance_chart f ITEM "ดุลการค้า 10 อันดับแรกของรายการสินค้า"
  | PartnerAnalysis =>
      emit (st_subheader "การวิเคราะห์ประเทศคู่ค้า") ;;
      top_charts f COUNTRY "10 อันดับแรกประเทศคู่ค้า (นำเข้า)"
        "10 อันดับแรกประเทศคู่ค้า (ส่งออก)" ;;
      balance_chart f COUNTRY "ดุลการค้า 10 อันดับแรกของประเทศคู่ค้า"
  | HsCodeAnalysis =>
      emit (st_subheader "การวิเคราะห์พิกัดศุลกากร") ;;
      top_charts f HS_CODE "10 อันดับแรกพิกัดศุลกากร (นำเข้า)"
        "10 อันดับแรกพิกัดศุลกากร (ส่งออก)" ;;
      balance_chart f HS_CODE "ดุลการค้า 10 อันดับแรกของพิกัดศุลกากร"
  end.

Definition nat_to_string (n : nat) : string :=
  string_of_list_ascii (Z_to_chars (Z.of_nat n)).

(** The branch taken when the loaded frame is not empty. *)
Definition page (df : DataFrame) (inp : inputs) : M unit :=
  emit (st_sidebar_header "ตัวเลือกการวิเคราะห์และค้นหา") ;;
  emit (st_sidebar_subheader "ตัวกรองข้อมูล") ;;
  f <- lift (filtered_df df (filters inp)) ;;
  emit (st_subheader ("ข้อมูลที่กรองแล้ว (" ++ nat_to_string (df_len f) ++ " แถว)")) ;;
  emit (st_dataframe f) ;;
  emit (st_header (analysis_label (analysis_type inp))) ;;
  if df_empty f then
    emit (st_warning "ไม่พบข้อมูลตามเงื่อนไขที่เลือก กรุณาลองเลือกใหม่.")
  else charts (analysis_type inp) f.

Definition no_data : event :=
  st_info "ไม่สามารถโหลดข้อมูลได้ โปรดตรวจสอบการตั้งค่าและไฟล์ Service Account JSON.".

(** What the caller does with the loaded frame (lines 95 to 224). *)
Definition render (df : DataFrame) (inp : inputs) : M unit :=
  if negb (df_empty df) then page df inp else emit no_data.

(** One run of the script at time [now]. *)
Definition script (c : cache) (now : Z) (w : world) (inp : inputs)
  : cache * M unit :=
  let '(c', loaded) := cached_get_data c now w in
  (c',
   emit (st_set_page_config "wide" "แดชบอร์ดข้อมูลการค้า") ;;
   emit (st_title "📊 แดชบอร์ดข้อมูลการค้าระหว่างประเทศ") ;;
   df <- loaded ;;
   render df inp).

End App.

(** ** Vocabulary of the statements *)

Module Spec.

Import Pd St Gs App.

(** A client was obtained: from the secret, or from the key file. *)
Inductive client_ready (w : world) : handle -> Prop :=
| ready_secret client :
    secrets_get w "gcp_service_account" = Ok true ->
    service_account w = Ok client ->
    client_ready w client
| ready_keyfile creds client :
    secrets_get w "gcp_service_account" = Ok false ->
    import_oauth2client w = Ok tt ->
    from_json_keyfile_name w SERVICE_ACCOUNT_FILE SCOPE = Ok creds ->
    authorize w creds = Ok client ->
    client_ready w client.

(** A failure between opening the sheet and the frame being ready. *)
Inductive fetch_failure (w : world) (client : handle) : exn -> Prop :=
| fail_open e :
    open_by_id w client SPREADSHEET_ID = Raise e ->
    fetch_failure w client e
| fail_worksheet sh e :
    open_by_id w client SPREADSHEET_ID = Ok sh ->
    worksheet w sh SHEET_NAME = Raise e ->
    fetch_failure w client e
| fail_values sh ws e :
    open_by_id w client SPREADSHEET_ID = Ok sh ->
    worksheet w sh SHEET_NAME = Ok ws ->
    sheet_values w ws = Raise e ->
    fetch_failure w client e
| fail_frame sh ws vals e :
    open_by_id w client SPREADSHEET_ID = Ok sh ->
    worksheet w sh SHEET_NAME = Ok ws ->
    sheet_values w ws = Ok vals ->
    frame_of_values (fill_gaps vals) = Raise e ->
    fetch_failure w client e
| fail_coerce sh ws vals df e :
    open_by_id w client SPREADSHEET_ID = Ok sh ->
    worksheet w sh SHEET_NAME = Ok ws ->
    sheet_values w ws = Ok vals ->
    frame_of_values (fill_gaps vals) = Ok df ->
    coerce_columns numeric_cols df = Raise e ->
    fetch_failure w client e.

(** Some step of the load fails with the exception [e]: the secrets, the
    credentials, the transport, the sheet or the data. *)
Inductive load_failure (w : world) : exn -> Prop :=
| fail_secrets e :
    secrets_get w "gcp_service_account" = Raise e ->
    load_failure w e
| fail_service_account e :
    secrets_get w "gcp_service_account" = Ok true ->
    service_account w = Raise e ->
    load_failure w e
| fail_import e :
    secrets_get w "gcp_service_account" = Ok false ->
    import_oauth2client w = Raise e ->
    load_failure w e
| fail_keyfile e :
    secrets_get w "gcp_service_account" = Ok false ->
    import_oauth2client w = Ok tt ->
    from_json_keyfile_name w SERVICE_ACCOUNT_FILE SCOPE = Raise e ->
    load_failure w e
| fail_authorize creds e :
    secrets_get w "gcp_service_account" = Ok false ->
    import_oauth2client w = Ok tt ->
    from_json_keyfile_name w SERVICE_ACCOUNT_FILE SCOPE = Ok creds ->
    authorize w creds = Raise e ->
    load_failure w e
| fail_fetch client e :
    client_ready w client ->
    fetch_failure w client e ->
    load_failure w e.

(** The outcome is an exception of the class [cls]. *)
Definition raises {A} (cls : exn_class) (o : outcome A) : Prop :=
  exists msg, o = Raise (Exn cls msg).

(** The elements of a run that are error diagnostics. *)
Definition errors (l : list event) : list event :=
  filter (fun ev => match ev with st_error _ => true | _ => false end) l.

(** The requests a run made to the remote service. *)
Definition requests (l : list event) : list event := filter is_remote l.

(** Calls of the cached loader one after the other, each at its time and
    against the world of that moment. *)
Fixpoint run_calls (c : cache) (calls : list (Z * world))
  : list (M DataFrame) :=
  match calls with
  | [] => []
  | (now, w) :: calls' =>
      let '(c', r) := cached_get_data c now w in
      r :: run_calls c' calls'
  end.

(** *** Coercion, as the claim words it *)

(** The number a cell's text parses to; 0 stands for what does not parse. *)
Definition parsed_value (p : parsed) : Q :=
  match p with
  | PInt z => inject_Z z
  | PFloat q => q
  | PNaN | POut => 0%Q
  end.

(** The numerals of a column are among those the model reads: none is left
    out by the parser, and they are integer literals throughout or none is
    an integer past [2 ^ 53], which a float64 would round. *)
Definition modelled (cells : list cell) : Prop :=
  Forall (fun c => parse_cell c <> POut) cells
  /\ (Forall (fun c => is_PInt (parse_cell c) = true) cells
      \/ Forall (fun c => float_ok (parse_cell c) = true) cells).

(** So are the numerals of every column of [cols] that the frame has. *)
Definition modelled_numerals (cols : list string) (df : DataFrame) : Prop :=
  forall col i,
    In col cols -> position col (columns df) = Some i ->
    modelled (column_at i df).

(** The record number [r] of a frame. *)
Definition record (r : nat) (df : DataFrame) : list cell := nth r (rows df) [].

(** The value of a string of digits. *)
Definition digits_value (ds : list ascii) : Z :=
  fold_left (fun acc d => 10 * acc + digit_val d) ds 0.

(** The number written [ds.fs] in decimal notation. *)
Definition decimal_value (ds fs : list ascii) : Q :=
  (inject_Z (digits_value ds)
   + inject_Z (digits_value fs) / inject_Z (10 ^ Z.of_nat (List.length fs)))%Q.

Definition text (cs : list ascii) : string := string_of_list_ascii cs.

(** An optional minus sign. *)
Definition sign_chars (neg : bool) : list ascii :=
  if neg then ["-"%char] else [].

(** *** Grouping, as the claims word it *)

(** The number of distinct values in a key column. *)
Fixpoint count_distinct (ks : list cell) : nat :=
  match ks with
  | [] => O
  | k :: ks' =>
      if existsb (cell_eqb k) ks' then count_distinct ks'
      else S (count_distinct ks')
  end.

(** No two members of [l] are the same key. *)
Definition pairwise_distinct (l : list cell) : Prop :=
  ForallOrdPairs (fun a b => cell_eqb a b = false) l.

(** [l] is in descending order of [val]. *)
Definition descending {A} (val : A -> Q) (l : list A) : Prop :=
  StronglySorted (fun a b => (val b <= val a)%Q) l.


(** The fields of a row of the grouped sums. *)
Definition group_of (row : cell * cell * cell) : cell := fst (fst row).
Definition import_sum (row : cell * cell * cell) : cell := snd (fst row).
Definition export_sum (row : cell * cell * cell) : cell := snd row.

(** The frame has a column [name] (once), whose cells are [cells]. *)
Definition column_is (df : DataFrame) (name : string) (cells : list cell)
  : Prop :=
  exists i, getitem df name = Ok (ItemSeries i cells).

(** The frame has a column [name] (once), whose cells are the numbers [ns],
    all of one dtype. *)
Definition metric_is (df : DataFrame) (name : string) (ns : numbers) : Prop :=
  exists cells,
    column_is df name cells /\ numeric_values cells = Numbers ns.




(** *** The filter, as the claim words it *)

(** The four inputs with the column each one targets. *)
Definition targets (c : criteria) : list (string * string) :=
  [(COUNTRY, selected_country c); (HS_CODE, selected_hs_code c);
   (ITEM, selected_item c); (YEAR, selected_year c)].

(** The inputs that hold some text. *)
Definition active (c : criteria) : list (string * string) :=
  filter (fun t => truthy (snd t)) (targets c).

(** Every character of [p] is an ASCII or a Thai character, and none is
    special in a regular expression. *)
Definition literal_text (p : list char) : Prop :=
  Forall (fun ch => Re.is_meta ch = false /\ in_alphabet ch = true) p.

(** The expression a pattern of ordinary characters compiles to. *)
Fixpoint literal (p : list char) : Re.regex :=
  match p with
  | [] => Re.REps
  | c :: p' => Re.RCat (Re.RChr c) (literal p')
  end.

(** The strings an expression matches in full. *)
Inductive matches : Re.regex -> list char -> Prop :=
| m_eps : matches Re.REps []
| m_chr c a : ci_eqb c a = true -> matches (Re.RChr c) [a]
| m_dot a : a <> Re.newline -> matches Re.RDot [a]
| m_cat r s u v :
    matches r u -> matches s v -> matches (Re.RCat r s) (u ++ v)
| m_alt_l r s u : matches r u -> matches (Re.RAlt r s) u
| m_alt_r r s u : matches s u -> matches (Re.RAlt r s) u
| m_star_nil r : matches (Re.RStar r) []
| m_star_more r u v :
    matches r u -> matches (Re.RStar r) v -> matches (Re.RStar r) (u ++ v).

(** The record [r] passes the input [selected] on [column]: the input is
    empty, or the text of the record's cell contains the trimmed input,
    letter case apart. *)
Definition passes (df : DataFrame) (column selected : string) (r : list cell)
  : bool :=
  negb (truthy selected)
  || match position column (columns df) with
     | Some i =>
         ci_containsb (strip selected) (chars (astype_str (cell_at i r)))
     | None => false
     end.

Definition satisfies (df : DataFrame) (c : criteria) (r : list cell) : bool :=
  forallb (fun t => passes df (fst t) (snd t) r) (targets c).

(** *** Sample worlds and tables *)

Definition sample_values : list (list string) :=
  [[COUNTRY; HS_CODE; ITEM; YEAR; IMPORTS; EXPORTS];
   ["Japan"; "0101.21"; "Live horses"; "2564"; "10"; "5"];
   ["Japan"; "0102.21"; "Live cattle"; "2564"; "0"; "20.5"];
   ["China"; "0101.21"; "Live horses"; "2565"; " 7 "; "n/a"]].

(** The secret is set and every service answers. *)
Definition world_up (vals : list (list string)) : world :=
  World (fun _ => Ok true) (Ok 1%nat) (Ok tt) (fun _ _ => Ok 2%nat)
    (fun _ => Ok 3%nat) (fun _ _ => Ok 4%nat) (fun _ _ => Ok 5%nat)
    (fun _ => Ok vals).

(** No secret, and no key file on disk. *)
Definition world_no_keyfile : world :=
  World (fun _ => Ok false) (Ok 1%nat) (Ok tt)
    (fun _ _ => Raise (Exn FileNotFoundError "No such file or directory"))
    (fun _ => Ok 3%nat) (fun _ _ => Ok 4%nat) (fun _ _ => Ok 5%nat)
    (fun _ => Ok sample_values).

(** The spreadsheet cannot be found. *)
Definition world_no_sheet : world :=
  World (fun _ => Ok true) (Ok 1%nat) (Ok tt) (fun _ _ => Ok 2%nat)
    (fun _ => Ok 3%nat)
    (fun _ _ => Raise (Exn SpreadsheetNotFound "not found"))
    (fun _ _ => Ok 5%nat) (fun _ => Ok sample_values).

(** The frame [sample_values] loads as. *)
Definition sample_table : DataFrame :=
  mkDF [COUNTRY; HS_CODE; ITEM; YEAR; IMPORTS; EXPORTS]
    [[CStr "Japan"; CStr "0101.21"; CStr "Live horses"; CInt 2564; CInt 10;
      CFloat 5];
     [CStr "Japan"; CStr "0102.21"; CStr "Live cattle"; CInt 2564; CInt 0;
      CFloat (41 # 2)];
     [CStr "China"; CStr "0101.21"; CStr "Live horses"; CInt 2565; CInt 7;
      CFloat 0]].

(** The sample sheet as text, before coercion. *)
Definition sample_raw : DataFrame :=
  mkDF (hd [] sample_values) (map (map CStr) (tl sample_values)).

(** A sheet that has no import column. *)
Definition table_without_imports : DataFrame :=
  mkDF [COUNTRY; ITEM; YEAR; EXPORTS]
    [[CStr "Japan"; CStr "Live horses"; CInt 2564; CInt 5]].

(** A sheet that has no country column. *)
Definition table_without_country : DataFrame :=
  mkDF [HS_CODE; ITEM; YEAR; IMPORTS; EXPORTS]
    [[CStr "0101.21"; CStr "Live horses"; CInt 2564; CInt 10; CInt 5]].




(** The table of the specification's scenario. *)
Definition scenario_table : DataFrame :=
  mkDF [COUNTRY; IMPORTS; EXPORTS]
    [[CStr "A"; CInt 10; CInt 5];
     [CStr "A"; CInt 0; CInt 20];
     [CStr "B"; CInt 7; CInt 7]].

Definition is_chart (ev : event) : bool :=
  match ev with st_plotly_chart _ => true | _ => false end.

(** No text in any of the four inputs. *)
Definition no_criteria : criteria := Criteria "" "" "" "".

(** *** Runs of the loader, the filter and the page *)

Definition successes (l : list event) : list event :=
  filter (fun ev => match ev with st_success _ => true | _ => false end) l.

Definition sheet_requests : list event :=
  [remote "open_by_id"; remote "worksheet"; remote "get_all_values"].

Inductive loads (w : world) (vals : list (list string)) (df : DataFrame)
  : Prop :=
| loads_intro client sh ws df0 :
    client_ready w client ->
    open_by_id w client SPREADSHEET_ID = Ok sh ->
    worksheet w sh SHEET_NAME = Ok ws ->
    sheet_values w ws = Ok vals ->
    frame_of_values (fill_gaps vals) = Ok df0 ->
    coerce_columns numeric_cols df0 = Ok df ->
    loads w vals df.

Definition success_event : event :=
  st_success "โหลดข้อมูลจาก Google Sheet สำเร็จ!".

(** How a run of the loader can end; in no case does it draw a chart. *)
Inductive load_run (w : world) : list event -> outcome DataFrame -> Prop :=
| run_loaded vals df l :
    loads w vals df ->
    successes l = [success_event] -> errors l = [] ->
    requests l = sheet_requests ->
    filter is_chart l = [] ->
    load_run w l (Ok df)
| run_failed e l msg n :
    load_failure w e ->
    successes l = [] -> errors l = [st_error msg] ->
    requests l = firstn n sheet_requests ->
    ((forall client, ~ client_ready w client) -> n = O) ->
    filter is_chart l = [] ->
    load_run w l (Ok empty_frame)
| run_beyond l n :
    requests l = firstn n sheet_requests ->
    ((forall client, ~ client_ready w client) -> n = O) ->
    filter is_chart l = [] ->
    load_run w l Beyond.

(** The cell is a number. *)
Definition is_number (c : cell) : bool :=
  match c with CStr _ => false | _ => true end.

(** The cells at position [i] are numbers in every record. *)
Definition numbers_at (i : nat) (df : DataFrame) : Prop :=
  forall r, (r < List.length (rows df))%nat ->
    is_number (cell_at i (record r df)) = true.


(** The elements a cached call shows again. *)
Definition replayed (l : list event) : list event :=
  filter (fun ev => negb (is_remote ev)) l.

(** [l] is in ascending order of its keys, no two alike. *)
Definition ascending {A} (key : A -> cell) (l : list A) : Prop :=
  StronglySorted (fun a b => cell_compare (key a) (key b) = Lt) l.

(** The entries of [l] whose value is [v]. *)
Definition with_value {A} (val : A -> Q) (v : Q) (l : list A) : list A :=
  filter (fun x => Qeq_bool (val x) v) l.

(** The sums of one metric, a row per group in the order of the keys. *)
Definition sums_of (keys : list cell) (vs : numbers)
  : outcome (list (cell * cell)) :=
  traverse (sum_row keys vs) (group_keys keys).


(** Elements without a chart, an error or a request. *)
Definition quiet (l : list event) : Prop :=
  filter is_chart l = [] /\ errors l = [] /\ requests l = [].

Definition is_ints (ns : numbers) : bool :=
  match ns with Ints _ => true | Floats _ => false end.

(** How a view ends once it reaches a chart of the metric [ns]: at the
    lookup of [go] or [px], or outside the model when a sum of floats
    overflows. *)
Definition stops {A} (ns : numbers) (r : outcome A) : Prop :=
  raises NameError r \/ (r = Beyond /\ is_ints ns = false).

(** The elements a page is made of: headings, the table, the column layout,
    warnings, the notice, and charts other than the grouped bars of
    [create_trade_chart]. *)
Definition page_element (ev : event) : bool :=
  match ev with
  | st_sidebar_header _ | st_sidebar_subheader _
  | st_subheader _ | st_header _ | st_dataframe _ | st_columns _
  | st_warning _ | st_info _ => true
  | st_plotly_chart (Figure_bars _ _) => false
  | st_plotly_chart _ => true
  | _ => false
  end.

Definition element (ev : event) : Prop := page_element ev = true.

(** The trimmed input is a pattern that [re.compile] accepts. *)
Definition compiles (selected : string) : Prop :=
  exists r, Re.compile (strip selected) = Ok r.

(** The test one input makes of a record: without text it keeps it; with
    text it searches the cell of [column] for the compiled pattern. *)
Definition keeps (df : DataFrame) (column selected : string)
    (row : list cell) : bool :=
  negb (truthy selected)
  || match position column (columns df), Re.compile (strip selected) with
     | Some i, Ok r => Re.search r (chars (astype_str (cell_at i row)))
     | _, _ => false
     end.

(** The pattern an input compiles to matches a part of the cell of [column]. *)
Definition found (df : DataFrame) (column selected : string)
    (row : list cell) : Prop :=
  exists i r pre u post,
    position column (columns df) = Some i
    /\ Re.compile (strip selected) = Ok r
    /\ chars (astype_str (cell_at i row)) = (pre ++ u ++ post)%list
    /\ matches r u.

(** All four tests of a record. *)
Definition keeps_all (df : DataFrame) (c : criteria) (row : list cell)
  : bool :=
  forallb (fun t => keeps df (fst t) (snd t) row) (targets c).

(** The column a view groups its charts by. *)
Definition group_column (a : analysis) : string :=
  match a with
  | Overview | PartnerAnalysis => COUNTRY
  | ItemAnalysis => ITEM
  | HsCodeAnalysis => HS_CODE
  end.

(** Words joined by bars, as in [cattle|horses]. *)
Fixpoint joined (words : list (list char)) : list char :=
  match words with
  | [] => []
  | [p] => p
  | p :: rest => (p ++ cp "|" :: joined rest)%list
  end.

(** The text of the cell of [row] under [column]. *)
Definition text_at (df : DataFrame) (column : string) (row : list cell)
  : list char :=
  match position column (columns df) with
  | Some i => chars (astype_str (cell_at i row))
  | None => []
  end.

(** The expression for words joined by bars, given the alternatives already
    closed. *)
Fixpoint alternatives (alts : list Re.regex) (words : list (list char))
  : Re.regex :=
  match words with
  | [] => fold_left (fun acc r => Re.RAlt r acc) alts Re.REps
  | [p] => fold_left (fun acc r => Re.RAlt r acc) alts (literal p)
  | p :: rest => alternatives (literal p :: alts) rest
  end.

(** The spreadsheet has no tab of the name asked for. *)
Definition world_no_tab : world :=
  World (fun _ => Ok true) (Ok 1%nat) (Ok tt) (fun _ _ => Ok 2%nat)
    (fun _ => Ok 3%nat) (fun _ _ => Ok 4%nat)
    (fun _ _ => Raise (Exn WorksheetNotFound "TradeData"))
    (fun _ => Ok sample_values).

(** Two expressions alike, the letter case of their characters apart. *)
Inductive same_regex : Re.regex -> Re.regex -> Prop :=
| same_void : same_regex Re.RVoid Re.RVoid
| same_eps : same_regex Re.REps Re.REps
| same_chr c c' : lower c = lower c' -> same_regex (Re.RChr c) (Re.RChr c')
| same_dot : same_regex Re.RDot Re.RDot
| same_cat r r' s s' :
    same_regex r r' -> same_regex s s' ->
    same_regex (Re.RCat r s) (Re.RCat r' s')
| same_alt r r' s s' :
    same_regex r r' -> same_regex s s' ->
    same_regex (Re.RAlt r s) (Re.RAlt r' s')
| same_star r r' : same_regex r r' -> same_regex (Re.RStar r) (Re.RStar r').

(** Two levels of parentheses alike, letter case apart. *)
Definition same_frame (f f' : Re.frame) : Prop :=
  Forall2 same_regex (Re.alts f) (Re.alts f')
  /\ Forall2 same_regex (Re.items f) (Re.items f')
  /\ Re.quantified f = Re.quantified f'.

(** Two compilations that end alike: with expressions alike, with the same
    exception, or both outside the fragment. *)
Definition same_compiled (o o' : outcome Re.regex) : Prop :=
  match o, o' with
  | Ok r, Ok r' => same_regex r r'
  | Raise e, Raise e' => e = e'
  | Beyond, Beyond => True
  | _, _ => False
  end.

(** Two inputs alike, letter case apart: both empty or both not, and the
    same text once trimmed and lowered. *)
Definition same_input (s s' : string) : Prop :=
  truthy s = truthy s' /\ map lower (strip s) = map lower (strip s').

End Spec.

(** * Properties *)

Import Pd St Gs App Spec.

(** ** The loader absorbs every failure *)

Lemma load_handler_empty (e : exn) :
  exists msg hint,
    load_handler e = ([st_error msg; st_info hint], Ok empty_frame).
Proof.
  unfold load_handler.
  destruct (exn_class_eqb (exn_cls e) SpreadsheetNotFound);
    [ | destruct (exn_class_eqb (exn_cls e) FileNotFoundError) ];
    cbn; eauto.
Qed.

Lemma try_except_raise {A} (l : list event) (e : exn) (m : M A)
    (handler : exn -> M A) :
  m = (l, Raise e) ->
  try_except m handler = ((l ++ fst (handler e))%list, snd (handler e)).
Proof.
  intros ->. cbn. now destruct (handler e).
Qed.

#[local] Arguments coerce_columns : simpl never.
#[local] Arguments frame_of_values : simpl never.
#[local] Arguments fill_gaps : simpl never.

(** Replace the answers of the world by what the hypotheses say they are. *)
Ltac answers :=
  cbn; repeat (match goal with H : _ = _ |- _ => rewrite H; clear H end; cbn).

Lemma fetch_failure_raises (w : world) (client : handle) (e : exn) :
  fetch_failure w client e ->
  exists l, fetch_frame w client = (l, Raise e).
Proof.
  unfold fetch_frame, call, lift, get_all_values.
  intros [e' H | sh e' H1 H2 | sh ws e' H1 H2 H3
         | sh ws vals e' H1 H2 H3 H4 | sh ws vals df e' H1 H2 H3 H4 H5];
    answers; eauto.
Qed.

#[local] Arguments fetch_frame : simpl never.

Lemma load_failure_cases (w : world) (e : exn) :
  load_failure w e ->
  (exists l, load_body w = (l, Raise e))
  \/ (exists l msg, load_body w = ((l ++ [st_error msg])%list, Ok empty_frame)).
Proof.
  intros [e' H | e' H1 H2 | e' H1 H2 | e' H1 H2 H3 | creds e' H1 H2 H3 H4
         | client e' Hc Hf].
  - left. unfold load_body, lift. answers. eauto.
  - right. unfold load_body, lift. answers.
    eexists [st_write "Debug: Found 'gcp_service_account' secret."], _.
    reflexivity.
  - left. unfold load_body, lift. answers. eauto.
  - left. unfold load_body, lift. answers. eauto.
  - left. unfold load_body, lift. answers. eauto.
  - left. destruct (fetch_failure_raises _ _ _ Hf) as [l Hl].
    destruct Hc as [cl H1 H2 | creds cl H1 H2 H3 H4];
      unfold load_body, lift; clear Hf; answers; eauto.
Qed.

Lemma get_data_from_sheet_never_raises (w : world) (e : exn) :
  snd (get_data_from_sheet w) <> Raise e.
Proof.
  unfold get_data_from_sheet, try_except.
  destruct (load_body w) as [l [df | e' | ]]; cbn; try discriminate.
  destruct (load_handler_empty e') as (msg & hint & ->). cbn. discriminate.
Qed.

Lemma render_empty_frame (inp : inputs) :
  render empty_frame inp = ([no_data], Ok tt).
Proof. reflexivity. Qed.

Lemma load_failure_result (w : world) (e : exn) :
  load_failure w e ->
  exists l msg,
    get_data_from_sheet w = (l, Ok empty_frame) /\ In (st_error msg) l.
Proof.
  intros H. unfold get_data_from_sheet.
  destruct (load_failure_cases _ _ H) as [[l Hl] | (l & msg & Hl)].
  - rewrite (try_except_raise l e _ _ Hl).
    destruct (load_handler_empty e) as (msg & hint & ->). cbn.
    exists (l ++ [st_error msg; st_info hint])%list, msg. split; [reflexivity|].
    apply in_or_app. right. now left.
  - rewrite Hl. cbn. exists (l ++ [st_error msg])%list, msg.
    split; [reflexivity|]. apply in_or_app. right. now left.
Qed.

(** C1. Whatever step of the load fails (secrets, credentials, key file,
    transport, sheet or data), [get_data_from_sheet] ends normally with the
    empty frame (no columns, no rows) and an error element among the ones it
    emitted; it raises nothing, and the caller shows the no-data notice for
    the empty frame. *)
Theorem failed_load_returns_empty_table (w : world) (e : exn) :
  load_failure w e ->
  exists l msg df,
    get_data_from_sheet w = (l, Ok df)
    /\ columns df = [] /\ rows df = []
    /\ In (st_error msg) l
    /\ (forall e', snd (get_data_from_sheet w) <> Raise e')
    /\ (forall inp, render df inp = ([no_data], Ok tt)).
Proof.
  intros H.
  destruct (load_failure_result w e H) as (l & msg & Hl & Hin).
  exists l, msg, empty_frame. repeat split; auto.
  intros e'. apply get_data_from_sheet_never_raises.
Qed.

Lemma failed_load_returns_empty_table_witness :
  load_failure world_no_keyfile (Exn FileNotFoundError "No such file or directory")
  /\ exists l msg df,
      get_data_from_sheet world_no_keyfile = (l, Ok df)
      /\ columns df = [] /\ rows df = []
      /\ In (st_error msg) l
      /\ (forall e', snd (get_data_from_sheet world_no_keyfile) <> Raise e')
      /\ (forall inp, render df inp = ([no_data], Ok tt)).
Proof.
  assert (H : load_failure world_no_keyfile
                (Exn FileNotFoundError "No such file or directory"))
    by (apply fail_keyfile; reflexivity).
  split; [exact H|].
  exact (failed_load_returns_empty_table world_no_keyfile _ H).
Defined.

(** ** The cache keeps what a failed load returned *)

Lemma requests_of_elements (l : list event) :
  requests (filter (fun ev => negb (is_remote ev)) l) = [].
Proof.
  unfold requests. induction l as [|ev l IH]; cbn; auto.
  destruct (is_remote ev) eqn:E; cbn; auto. now rewrite E.
Qed.

Lemma cached_hit (en : entry) (now : Z) (w : world) :
  stored_at en <= now < stored_at en + TTL ->
  cached_get_data (Some en) now w = (Some en, (elements en, Ok (value en))).
Proof.
  intros [_ H]. unfold cached_get_data, fresh.
  apply Z.ltb_lt in H. now rewrite H.
Qed.

Lemma run_calls_hits (en : entry) (calls : list (Z * world)) :
  Forall (fun call => stored_at en <= fst call < stored_at en + TTL) calls ->
  Forall (fun r => r = (elements en, Ok (value en)))
    (run_calls (Some en) calls).
Proof.
  induction 1 as [|[now w] calls H _ IH]; cbn [run_calls]; [constructor|].
  rewrite (cached_hit en now w H). now constructor.
Qed.

(** C10. Once a call that found no fresh entry has failed and returned the
    empty frame, every call made within the 300 seconds that follow, whatever
    the world would answer by then, returns that empty frame and sends no
    request to the remote service. *)
Theorem failed_load_is_memoized (c0 : cache) (t0 : Z) (w : world) (e : exn)
    (calls : list (Z * world)) :
  fresh t0 c0 = None ->
  load_failure w e ->
  Forall (fun call => t0 <= fst call < t0 + 300) calls ->
  Forall (fun r => snd r = Ok empty_frame /\ requests (fst r) = [])
    (run_calls (fst (cached_get_data c0 t0 w)) calls).
Proof.
  intros Hc Hw Hcalls.
  destruct (load_failure_result w e Hw) as (l & msg & Hl & _).
  unfold cached_get_data at 1. rewrite Hc, Hl. cbn [fst].
  set (en := Entry t0 empty_frame _).
  eapply Forall_impl; [|apply (run_calls_hits en calls Hcalls)].
  intros r ->. cbn. split; [reflexivity|]. apply requests_of_elements.
Qed.

Lemma failed_load_is_memoized_witness :
  (fresh 0 None = None
   /\ load_failure world_no_sheet (Exn SpreadsheetNotFound "not found")
   /\ Forall (fun call => 0 <= fst call < 0 + 300)
        [(100, world_up sample_values); (299, world_up sample_values)])
  /\ df_empty (match snd (get_data_from_sheet (world_up sample_values)) with
               | Ok df => df
               | _ => empty_frame
               end) = false
  /\ Forall (fun r => snd r = Ok empty_frame /\ requests (fst r) = [])
       (run_calls (fst (cached_get_data None 0 world_no_sheet))
          [(100, world_up sample_values); (299, world_up sample_values)]).
Proof.
  assert (Hw : load_failure world_no_sheet (Exn SpreadsheetNotFound "not found")).
  { apply fail_fetch with (client := 1%nat).
    - now apply ready_secret.
    - now apply fail_open. }
  assert (Hc : Forall (fun call => 0 <= fst call < 0 + 300)
                 [(100, world_up sample_values); (299, world_up sample_values)])
    by (repeat constructor; cbn; lia).
  split; [repeat split; assumption|].
  split; [vm_compute; reflexivity|].
  exact (failed_load_is_memoized None 0 world_no_sheet _ _ eq_refl Hw Hc).
Defined.

Example sample_values_load :
  snd (get_data_from_sheet (world_up sample_values)) = Ok sample_table.
Proof. vm_compute. reflexivity. Qed.

(** ** The chart helpers guard the group column, and look up [go] *)

(** With the group column present and the metric column absent, either
    helper raises [KeyError] and emits no diagnostic. *)
Lemma absent_metric_column_raises :
  has_column table_without_imports COUNTRY = true
  /\ has_column table_without_imports IMPORTS = false
  /\ fst (create_top_n_chart table_without_imports COUNTRY IMPORTS "top" 10)
     = []
  /\ raises KeyError
       (snd (create_top_n_chart table_without_imports COUNTRY IMPORTS "top" 10))
  /\ fst (create_balance_chart table_without_imports COUNTRY "balance" 10)
     = []
  /\ raises KeyError
       (snd (create_balance_chart table_without_imports COUNTRY "balance" 10)).
Proof.
  repeat split; try reflexivity; eexists; vm_compute; reflexivity.
Qed.

(** When the group column is absent from the frame, the top-N helper and the
    balance helper each emit the column warning and then raise [NameError]:
    the empty figure they are to return is [go.Figure()], and [go] is not
    bound. *)
Lemma absent_group_column_warns_then_raises (df : DataFrame)
    (group_col value_col title : string) (top_n : Z) :
  has_column df group_col = false ->
  create_top_n_chart df group_col value_col title top_n
  = ([column_warning group_col], Raise (name_error "go"))
  /\ create_balance_chart df group_col title top_n
     = ([column_warning group_col], Raise (name_error "go")).
Proof.
  intros H. unfold create_top_n_chart, create_balance_chart.
  rewrite H. split; reflexivity.
Qed.

(** C3 at a sheet without the country column, no filter set, in the view of
    the trading partners: each helper shows the warning that the column is
    missing and raises [NameError] where it is to return the empty figure;
    the run of the page ends with that exception at its first chart, the
    warning shown once and no chart drawn. *)
Theorem absent_group_column_raises :
  has_column table_without_country COUNTRY = false
  /\ create_top_n_chart table_without_country COUNTRY IMPORTS "top" 10
     = ([column_warning COUNTRY], Raise (name_error "go"))
  /\ create_balance_chart table_without_country COUNTRY "balance" 10
     = ([column_warning COUNTRY], Raise (name_error "go"))
  /\ snd (render table_without_country (Inputs PartnerAnalysis no_criteria))
     = Raise (name_error "go")
  /\ filter (fun ev => match ev with st_warning _ => true | _ => false end)
       (fst (render table_without_country
               (Inputs PartnerAnalysis no_criteria)))
     = [column_warning COUNTRY]
  /\ filter is_chart
       (fst (render table_without_country
               (Inputs PartnerAnalysis no_criteria))) = [].
Proof.
  split; [reflexivity|].
  split; [exact (proj1 (absent_group_column_warns_then_raises
                          table_without_country COUNTRY IMPORTS "top" 10
                          eq_refl))|].
  split; [exact (proj2 (absent_group_column_warns_then_raises
                          table_without_country COUNTRY IMPORTS "balance" 10
                          eq_refl))|].
  repeat split; vm_compute; reflexivity.
Qed.

(** ** The filter stage *)

(** C2 at two inputs the page can receive.  A sheet without the country
    column and a country pattern: line 115 raises [KeyError], and the run
    of the page ends with it.  The sample sheet and the pattern of one
    opening parenthesis: [re.error]. *)
Lemma filter_raises :
  has_column table_without_country COUNTRY = false
  /\ raises KeyError
       (filtered_df table_without_country (Criteria "a" "" "" ""))
  /\ raises KeyError
       (snd (render table_without_country
               (Inputs Overview (Criteria "a" "" "" ""))))
  /\ raises ReError (filtered_df sample_table (Criteria "(" "" "" "")).
Proof.
  split; [reflexivity|]. repeat split; eexists; vm_compute; reflexivity.
Qed.

(** *** The copy made on line 112 *)

Lemma deref_alloc_new (h : heap) (df : DataFrame) :
  deref (fst (alloc h df)) (snd (alloc h df)) = df.
Proof.
  unfold deref, alloc. cbn. rewrite app_nth2 by lia.
  now rewrite Nat.sub_diag.
Qed.

Lemma deref_alloc_old (h : heap) (df : DataFrame) (ref : nat) :
  (ref < List.length h)%nat -> deref (fst (alloc h df)) ref = deref h ref.
Proof. intros H. unfold deref, alloc. cbn. now rewrite app_nth1. Qed.

Lemma set_nth_length {A} (i : nat) (x : A) (l : list A) :
  List.length (set_nth i x l) = List.length l.
Proof.
  revert i. induction l as [|y l IH]; intros [|i]; cbn; auto.
Qed.

Lemma nth_set_nth_same {A} (i : nat) (x d : A) (l : list A) :
  (i < List.length l)%nat -> nth i (set_nth i x l) d = x.
Proof.
  revert i. induction l as [|y l IH]; intros [|i] H; cbn in *;
    try lia; auto. apply IH. lia.
Qed.

Lemma nth_set_nth_other {A} (i j : nat) (x d : A) (l : list A) :
  i <> j -> nth j (set_nth i x l) d = nth j l d.
Proof.
  revert i j. induction l as [|y l IH]; intros [|i] [|j] H; cbn;
    try congruence; auto.
Qed.

Lemma deref_mutate_other (h : heap) (ref ref' : nat) (df : DataFrame) :
  ref <> ref' -> deref (mutate h ref df) ref' = deref h ref'.
Proof. intros H. now apply nth_set_nth_other. Qed.

Lemma deref_mutate_same (h : heap) (ref : nat) (df : DataFrame) :
  (ref < List.length h)%nat -> deref (mutate h ref df) ref = df.
Proof. intros H. now apply nth_set_nth_same. Qed.

(** C8. With no text in any input the filter returns a frame equal to the
    source: same columns, same rows in the same order.  It is a new object:
    its address differs from the source's, and a change made to it in place
    leaves the frame at the source's address as it was. *)
Theorem filter_without_criteria_copies (h : heap) (df : nat) :
  (df < List.length h)%nat ->
  filtered_df (deref h df) no_criteria = Ok (deref h df)
  /\ exists h' f,
      filtered_df_ref h df no_criteria = (h', Ok f)
      /\ f <> df
      /\ deref h' f = deref h df
      /\ deref h' df = deref h df
      /\ forall changed,
          deref (mutate h' f changed) f = changed
          /\ deref (mutate h' f changed) df = deref h df.
Proof.
  intros H. split; [reflexivity|].
  exists (fst (alloc h (deref h df))), (snd (alloc h (deref h df))).
  assert (Hne : snd (alloc h (deref h df)) <> df) by (cbn; lia).
  repeat split.
  - exact Hne.
  - apply deref_alloc_new.
  - now apply deref_alloc_old.
  - apply deref_mutate_same. cbn. rewrite length_app. cbn. lia.
  - rewrite deref_mutate_other by exact Hne. now apply deref_alloc_old.
Qed.

Lemma filter_without_criteria_copies_witness :
  (0 < List.length [sample_table])%nat
  /\ filtered_df (deref [sample_table] 0) no_criteria
     = Ok (deref [sample_table] 0)
  /\ exists h' f,
      filtered_df_ref [sample_table] 0 no_criteria = (h', Ok f)
      /\ f <> 0%nat
      /\ deref h' f = deref [sample_table] 0
      /\ deref h' 0 = deref [sample_table] 0
      /\ forall changed,
          deref (mutate h' f changed) f = changed
          /\ deref (mutate h' f changed) 0 = deref [sample_table] 0.
Proof.
  split; [cbn; lia|].
  apply (filter_without_criteria_copies [sample_table] 0). cbn. lia.
Defined.

(** *** Patterns without special characters are searched for as text *)

Lemma branch_literal (p : list char) :
  Re.branch (rev (map Re.RChr p)) = literal p.
Proof.
  unfold Re.branch.
  rewrite <- (fold_left_rev_right (fun r acc => Re.RCat r acc)).
  rewrite rev_involutive.
  induction p as [|c p IH]; cbn; congruence.
Qed.

Lemma ordinary_char (c : char) :
  Re.is_meta c = false ->
  N.eqb c (cp "(") = false /\ N.eqb c (cp ")") = false
  /\ N.eqb c (cp "|") = false /\ N.eqb c (cp "*") = false
  /\ N.eqb c (cp "+") = false /\ N.eqb c (cp "?") = false
  /\ N.eqb c (cp ".") = false.
Proof.
  unfold Re.is_meta.
  change (chars ".^$*+?{}[]\|()")
    with [cp "."; cp "^"; cp "$"; cp "*"; cp "+"; cp "?"; cp "{"; cp "}";
          cp "["; cp "]"; cp "\"; cp "|"; cp "("; cp ")"]%char.
  cbn [existsb].
  intros H. repeat (apply orb_false_elim in H; destruct H as [? H]).
  repeat split; assumption.
Qed.

Lemma parse_ordinary (p : list char) (cur : Re.frame) :
  literal_text p ->
  Re.parse p cur []
  = Ok (Re.close (Re.Frame (Re.alts cur)
                    (rev (map Re.RChr p) ++ Re.items cur)
                    (match p with [] => Re.quantified cur | _ => false end))).
Proof.
  intros H. revert cur.
  induction H as [|c p [Hc Ha] _ IH]; intros cur.
  - cbn. now destruct cur.
  - destruct (ordinary_char c Hc) as (H1 & H2 & H3 & H4 & H5 & H6 & H7).
    cbn [Re.parse]. rewrite H1, H2, H3, H4, H5, H6, H7, Hc, Ha. cbn [orb].
    rewrite IH. cbn [Re.push Re.alts Re.items Re.quantified map rev].
    rewrite <- app_assoc. cbn [app].
    destruct p; reflexivity.
Qed.

Lemma compile_literal (pat : list char) :
  literal_text pat -> Re.compile pat = Ok (literal pat).
Proof.
  intros H. unfold Re.compile. rewrite (parse_ordinary _ _ H).
  unfold Re.close. cbn [Re.alts Re.items Re.frame0 fold_left].
  rewrite app_nil_r. now rewrite branch_literal.
Qed.

Lemma match_prefix_alt (x y : Re.regex) (s : list char) :
  Re.match_prefix (Re.RAlt x y) s
  = Re.match_prefix x s || Re.match_prefix y s.
Proof.
  revert x y. induction s as [|a s IH]; intros x y; cbn.
  - now rewrite !orb_false_r.
  - rewrite IH.
    destruct (Re.nullable x), (Re.nullable y),
      (Re.match_prefix (Re.deriv a x) s); reflexivity.
Qed.

Lemma match_prefix_void (r : Re.regex) (s : list char) :
  Re.match_prefix (Re.RCat Re.RVoid r) s = false.
Proof. induction s as [|a s IH]; cbn; auto. Qed.

Lemma match_prefix_eps (r : Re.regex) (s : list char) :
  Re.match_prefix (Re.RCat Re.REps r) s = Re.match_prefix r s.
Proof.
  destruct s as [|a s]; cbn; [reflexivity|].
  now rewrite match_prefix_alt, match_prefix_void.
Qed.

Lemma match_prefix_literal (p s : list char) :
  Re.match_prefix (literal p) s = ci_prefixb p s.
Proof.
  revert s. induction p as [|c p IH]; intros s.
  - destruct s; reflexivity.
  - destruct s as [|a s]; cbn; [reflexivity|].
    destruct (ci_eqb c a); cbn.
    + now rewrite match_prefix_eps, IH.
    + apply match_prefix_void.
Qed.

Lemma search_literal (p s : list char) :
  Re.search (literal p) s = ci_containsb p s.
Proof.
  induction s as [|a s IH]; cbn [Re.search ci_containsb];
    rewrite match_prefix_literal; [reflexivity|]. now rewrite IH.
Qed.




(** *** The matcher decides the language of the expression *)

Lemma matches_cat_inv (r s : Re.regex) (w : list char) :
  matches (Re.RCat r s) w ->
  exists u v, w = (u ++ v)%list /\ matches r u /\ matches s v.
Proof. intros H. inversion H; subst. eauto. Qed.

Lemma matches_alt_inv (r s : Re.regex) (w : list char) :
  matches (Re.RAlt r s) w -> matches r w \/ matches s w.
Proof. intros H. inversion H; subst; auto. Qed.

Lemma nullable_matches (r : Re.regex) :
  Re.nullable r = true <-> matches r [].
Proof.
  induction r as [| |c| |r IHr s IHs|r IHr s IHs|r IHr]; cbn.
  - split; [discriminate|]. intros H. inversion H.
  - split; [constructor|reflexivity].
  - split; [discriminate|]. intros H. inversion H.
  - split; [discriminate|]. intros H. inversion H.
  - rewrite andb_true_iff, IHr, IHs. split.
    + intros [Hr Hs]. exact (m_cat r s [] [] Hr Hs).
    + intros H. apply matches_cat_inv in H.
      destruct H as (u & v & E & Hu & Hv). symmetry in E.
      apply app_eq_nil in E. destruct E as [-> ->]. now split.
  - rewrite orb_true_iff, IHr, IHs. split.
    + intros [H | H]; [now apply m_alt_l|now apply m_alt_r].
    + apply matches_alt_inv.
  - split; [constructor|reflexivity].
Qed.

(** A match of a star that reads a character starts with a match of the
    body that reads it. *)
Lemma star_head (r : Re.regex) (s : list char) :
  matches (Re.RStar r) s ->
  forall a s', s = a :: s' ->
  exists u v, s' = (u ++ v)%list /\ matches r (a :: u) /\ matches (Re.RStar r) v.
Proof.
  intros H. remember (Re.RStar r) as rs eqn:E.
  induction H as [| | | | | | |r' u v Hu _ Hv IHv]; try discriminate.
  injection E as ->. intros a s' Hs. destruct u as [|b u].
  - cbn in Hs. now apply IHv.
  - cbn in Hs. injection Hs as -> <-. now exists u, v.
Qed.

Lemma deriv_matches (r : Re.regex) (a : char) (s : list char) :
  matches (Re.deriv a r) s <-> matches r (a :: s).
Proof.
  revert s. induction r as [| |c| |r IHr t IHt|r IHr t IHt|r IHr];
    intros s; cbn.
  - split; intros H; inversion H.
  - split; intros H; inversion H.
  - destruct (ci_eqb c a) eqn:E; split; intros H; inversion H; subst.
    + now constructor.
    + constructor.
    + congruence.
  - destruct (N.eqb a Re.newline) eqn:E; split; intros H; inversion H; subst.
    + apply N.eqb_eq in E. contradiction.
    + constructor. apply N.eqb_neq in E. exact E.
    + constructor.
  - assert (Hcat : matches (Re.RCat (Re.deriv a r) t) s
                   -> matches (Re.RCat r t) (a :: s)).
    { intros H. apply matches_cat_inv in H.
      destruct H as (u & v & -> & Hu & Hv).
      apply IHr in Hu. exact (m_cat r t (a :: u) v Hu Hv). }
    assert (Hsplit : matches (Re.RCat r t) (a :: s) ->
              (exists u v, s = (u ++ v)%list /\ matches r (a :: u) /\ matches t v)
              \/ (matches r [] /\ matches t (a :: s))).
    { intros H. apply matches_cat_inv in H.
      destruct H as ([|b u] & v & E & Hu & Hv); cbn in E.
      - right. subst v. now split.
      - left. injection E as <- ->. now exists u, v. }
    destruct (Re.nullable r) eqn:En.
    + split.
      * intros H. apply matches_alt_inv in H. destruct H as [H | H].
        -- now apply Hcat.
        -- apply nullable_matches in En. apply IHt in H.
           exact (m_cat r t [] (a :: s) En H).
      * intros H. destruct (Hsplit H) as [(u & v & -> & Hu & Hv) | [_ Ht]].
        -- apply m_alt_l. apply m_cat; [now apply IHr|exact Hv].
        -- apply m_alt_r. now apply IHt.
    + split; [exact Hcat|].
      intros H. destruct (Hsplit H) as [(u & v & -> & Hu & Hv) | [Hr _]].
      * apply m_cat; [now apply IHr|exact Hv].
      * apply nullable_matches in Hr. congruence.
  - split; intros H.
    + apply matches_alt_inv in H. destruct H as [H | H].
      * apply m_alt_l. now apply IHr.
      * apply m_alt_r. now apply IHt.
    + apply matches_alt_inv in H. destruct H as [H | H].
      * apply m_alt_l. now apply IHr.
      * apply m_alt_r. now apply IHt.
  - split.
    + intros H. apply matches_cat_inv in H.
      destruct H as (u & v & -> & Hu & Hv).
      apply IHr in Hu. exact (m_star_more r (a :: u) v Hu Hv).
    + intros H.
      destruct (star_head r (a :: s) H a s eq_refl) as (u & v & -> & Hu & Hv).
      apply m_cat; [now apply IHr|exact Hv].
Qed.

Lemma match_prefix_matches (r : Re.regex) (s : list char) :
  Re.match_prefix r s = true
  <-> exists u v, s = (u ++ v)%list /\ matches r u.
Proof.
  revert r. induction s as [|a s IH]; intros r; cbn [Re.match_prefix];
    rewrite orb_true_iff, nullable_matches.
  - split.
    + intros [H | H]; [|discriminate]. now exists [], [].
    + intros (u & v & E & H). left. symmetry in E.
      apply app_eq_nil in E. destruct E as [-> _]. exact H.
  - rewrite IH. split.
    + intros [H | (u & v & -> & H)].
      * now exists [], (a :: s).
      * exists (a :: u), v. split; [reflexivity|]. now apply deriv_matches.
    + intros ([|b u] & v & E & H).
      * now left.
      * right. cbn in E. injection E as <- ->. exists u, v.
        split; [reflexivity|]. now apply deriv_matches.
Qed.

Lemma search_matches (r : Re.regex) (s : list char) :
  Re.search r s = true
  <-> exists pre u post, s = (pre ++ u ++ post)%list /\ matches r u.
Proof.
  induction s as [|a s IH]; cbn [Re.search];
    rewrite orb_true_iff, match_prefix_matches.
  - split.
    + intros [(u & v & E & H) | H]; [|discriminate]. now exists [], u, v.
    + intros (pre & u & post & E & H). left. symmetry in E.
      apply app_eq_nil in E. destruct E as [-> E]. now exists u, post.
  - rewrite IH. split.
    + intros [(u & v & E & H) | (pre & u & post & -> & H)].
      * now exists [], u, v.
      * now exists (a :: pre), u, post.
    + intros ([|b pre] & u & post & E & H).
      * left. now exists u, post.
      * right. cbn in E. injection E as <- ->. now exists pre, u, post.
Qed.

(** *** The four steps keep the records that pass every input *)

Lemma select_rows_map (g : list cell -> bool) (rs : list (list cell)) :
  select_rows (map g rs) rs = filter g rs.
Proof.
  induction rs as [|r rs IH]; cbn; [reflexivity|].
  rewrite IH. reflexivity.
Qed.

Lemma position_of_occurrence (name : string) (cols : list string) :
  occurrences name cols <> O -> exists i, position name cols = Some i.
Proof.
  unfold occurrences. induction cols as [|c cols IH]; cbn; [congruence|].
  destruct (String.eqb name c); [eauto|].
  intros H. destruct (IH H) as [i ->]. cbn. eauto.
Qed.

Lemma getitem_series (df : DataFrame) (name : string) :
  occurrences name (columns df) = 1%nat ->
  exists i, position name (columns df) = Some i
            /\ getitem df name = Ok (ItemSeries i (column_at i df)).
Proof.
  intros H.
  destruct (position_of_occurrence name (columns df)) as [i Hi];
    [rewrite H; discriminate|].
  exists i. split; [exact Hi|].
  unfold getitem. now rewrite Hi, H.
Qed.

Lemma filter_filter {A} (f g : A -> bool) (l : list A) :
  filter g (filter f l) = filter (fun x => f x && g x) l.
Proof.
  induction l as [|x l IH]; cbn; [reflexivity|].
  destruct (f x); cbn; [destruct (g x)|]; now rewrite IH.
Qed.

Lemma filter_all {A} (f : A -> bool) (l : list A) :
  (forall x, f x = true) -> filter f l = l.
Proof.
  intros H. induction l as [|x l IH]; cbn; [reflexivity|].
  now rewrite H, IH.
Qed.

Lemma contains_step_passes (df : DataFrame) (column selected : string) :
  (truthy selected = true ->
   occurrences column (columns df) = 1%nat /\ literal_text (strip selected)) ->
  contains_step df column selected
  = Ok (mkDF (columns df) (filter (passes df column selected) (rows df))).
Proof.
  intros H. unfold contains_step, passes.
  destruct (truthy selected) eqn:Ht; cbn [negb orb].
  - destruct (H eq_refl) as [Hocc Hlit].
    destruct (getitem_series df column Hocc) as (i & Hi & Hget).
    unfold contains_mask, str_contains. rewrite Hget, Hi. cbn [obind].
    rewrite (compile_literal _ Hlit). cbn [obind].
    unfold column_at. rewrite !map_map, select_rows_map.
    f_equal. f_equal. apply filter_ext. intros r.
    apply search_literal.
  - rewrite filter_all by reflexivity. now destruct df.
Qed.

Lemma filtered_df_passes (df : DataFrame) (c : criteria) :
  (forall column selected,
     In (column, selected) (active c) ->
     occurrences column (columns df) = 1%nat
     /\ literal_text (strip selected)) ->
  filtered_df df c
  = Ok (mkDF (columns df) (filter (satisfies df c) (rows df))).
Proof.
  intros H.
  assert (Hstep : forall column selected rs,
             In (column, selected) (targets c) ->
             contains_step (mkDF (columns df) rs) column selected
             = Ok (mkDF (columns df)
                     (filter (passes df column selected) rs))).
  { intros column selected rs Hin.
    rewrite contains_step_passes; [reflexivity|].
    intros Ht. apply H. unfold active. apply filter_In. now split. }
  unfold filtered_df.
  replace df with (mkDF (columns df) (rows df)) at 1 by now destruct df.
  rewrite Hstep by (cbn; auto). cbn [obind].
  rewrite Hstep by (cbn; auto). cbn [obind].
  rewrite Hstep by (cbn; auto). cbn [obind].
  rewrite Hstep by (cbn; auto 6).
  rewrite !filter_filter. f_equal. f_equal. apply filter_ext. intros r.
  unfold satisfies. cbn. now rewrite andb_true_r, !andb_assoc.
Qed.



(** Letters that fold to an ASCII letter are found by it: the Kelvin sign
    by k, the dotted capital I by i.  A pattern with a letter outside ASCII
    and Thai is left out of the model. *)
Example folding_on_sample :
  filtered_df (mkDF [COUNTRY] [[CStr "CAFÉ"]; [CStr "290 K"]; [CStr "İzmir"]])
    (Criteria "k" "" "" "")
  = Ok (mkDF [COUNTRY] [[CStr "290 K"]])
  /\ filtered_df
       (mkDF [COUNTRY] [[CStr "CAFÉ"]; [CStr "290 K"]; [CStr "İzmir"]])
       (Criteria "I" "" "" "")
     = Ok (mkDF [COUNTRY] [[CStr "İzmir"]])
  /\ filtered_df
       (mkDF [COUNTRY] [[CStr "CAFÉ"]; [CStr "290 K"]; [CStr "İzmir"]])
       (Criteria "é" "" "" "")
     = Beyond.
Proof. vm_compute. repeat split; reflexivity. Qed.




Example filter_on_sample :
  filtered_df sample_table (Criteria " JAP " "" "" "2564")
  = Ok (mkDF (columns sample_table) (firstn 2 (rows sample_table))).
Proof. vm_compute. reflexivity. Qed.

(** ** Numeric coercion *)

Lemma position_lt (name : string) (cols : list string) (i : nat) :
  position name cols = Some i -> (i < List.length cols)%nat.
Proof.
  revert i. induction cols as [|c cols IH]; intros i; cbn; [discriminate|].
  destruct (String.eqb name c).
  - intros [= <-]. lia.
  - destruct (position name cols) as [j|]; cbn; [|discriminate].
    intros [= <-]. specialize (IH j eq_refl). lia.
Qed.

Lemma position_name (name : string) (cols : list string) (i : nat) :
  position name cols = Some i -> nth_error cols i = Some name.
Proof.
  revert i. induction cols as [|c cols IH]; intros i; cbn; [discriminate|].
  destruct (String.eqb name c) eqn:E.
  - intros [= <-]. apply String.eqb_eq in E. now subst.
  - destruct (position name cols) as [j|]; cbn; [|discriminate].
    intros [= <-]. cbn. now apply IH.
Qed.

Lemma position_inj (a b : string) (cols : list string) (i : nat) :
  position a cols = Some i -> position b cols = Some i -> a = b.
Proof.
  intros Ha Hb. apply position_name in Ha, Hb. congruence.
Qed.

Lemma has_column_position (df : DataFrame) (name : string) :
  has_column df name = true <-> exists i, position name (columns df) = Some i.
Proof.
  unfold has_column. induction (columns df) as [|c cols IH]; cbn.
  - split; [discriminate|]. intros [i H]. discriminate.
  - destruct (String.eqb name c); cbn; [split; eauto|].
    rewrite IH. split; intros [i H].
    + rewrite H. cbn. eauto.
    + destruct (position name cols) as [j|]; [eauto|discriminate].
Qed.

Lemma occurrences_NoDup (name : string) (cols : list string) (i : nat) :
  NoDup cols -> position name cols = Some i -> occurrences name cols = 1%nat.
Proof.
  unfold occurrences. intros Hnd. revert i.
  induction Hnd as [|c cols Hc Hnd IH]; intros i; cbn; [discriminate|].
  destruct (String.eqb name c) eqn:E.
  - intros _. apply String.eqb_eq in E. subst c. cbn. f_equal.
    destruct (filter (String.eqb name) cols) as [|x l] eqn:F; [reflexivity|].
    assert (Hx : In x (filter (String.eqb name) cols)) by (rewrite F; now left).
    apply filter_In in Hx. destruct Hx as [Hx Hn].
    apply String.eqb_eq in Hn. subst x. contradiction.
  - destruct (position name cols) as [j|]; cbn; [|discriminate].
    intros _. now apply (IH j).
Qed.

Lemma nth_zip_with {A B C} (f : A -> B -> C) (l : list A) (m : list B)
    (r : nat) (da : A) (db : B) (dc : C) :
  (r < List.length l)%nat -> List.length m = List.length l ->
  nth r (zip_with f l m) dc = f (nth r l da) (nth r m db).
Proof.
  revert m r. induction l as [|a l IH]; intros [|b m] [|r] Hr Hm;
    cbn in *; try lia; auto.
  apply IH; lia.
Qed.

Lemma zip_with_length {A B C} (f : A -> B -> C) (l : list A) (m : list B) :
  List.length m = List.length l ->
  List.length (zip_with f l m) = List.length l.
Proof.
  revert m. induction l as [|a l IH]; intros [|b m] Hm; cbn in *;
    try lia; auto.
Qed.

Lemma zip_with_Forall {A B C} (P : A -> Prop) (Q : C -> Prop)
    (f : A -> B -> C) (l : list A) (m : list B) :
  (forall a b, P a -> Q (f a b)) ->
  Forall P l -> Forall Q (zip_with f l m).
Proof.
  intros Hf H. revert m. induction H as [|a l Ha _ IH]; intros [|b m];
    cbn; constructor; auto.
Qed.

Lemma fillna0_length (s : series) (n : nat) :
  match s with
  | IntSeries vs => List.length vs
  | FloatSeries vs => List.length vs
  end = n ->
  List.length (fillna0 s) = n.
Proof. destruct s; cbn; now rewrite length_map. Qed.

Lemma nth_map_lt {A B} (f : A -> B) (l : list A) (r : nat) (d : A) (d' : B) :
  (r < List.length l)%nat -> nth r (map f l) d' = f (nth r l d).
Proof.
  intros H. rewrite (nth_indep _ d' (f d)) by now rewrite length_map.
  apply map_nth.
Qed.

Lemma position_occurs (name : string) (cols : list string) (i : nat) :
  position name cols = Some i -> (1 <= occurrences name cols)%nat.
Proof.
  unfold occurrences. revert i.
  induction cols as [|c cols IH]; intros i; cbn; [discriminate|].
  destruct (String.eqb name c); cbn; [lia|].
  destruct (position name cols) as [j|]; cbn; [|discriminate].
  intros _. now apply (IH j).
Qed.

Lemma column_at_ext (i : nat) (df df' : DataFrame) :
  List.length (rows df') = List.length (rows df) ->
  (forall r, cell_at i (record r df') = cell_at i (record r df)) ->
  column_at i df' = column_at i df.
Proof.
  intros Hlen Hcell. unfold column_at.
  apply (nth_ext _ _ (CStr "") (CStr "")); [now rewrite !length_map|].
  intros r Hr. rewrite length_map in Hr.
  rewrite (nth_map_lt (cell_at i) (rows df') r []) by exact Hr.
  rewrite (nth_map_lt (cell_at i) (rows df) r []) by now rewrite <- Hlen.
  apply Hcell.
Qed.

Lemma forallb_map_Forall {A B} (f : A -> B) (p : B -> bool) (l : list A) :
  Forall (fun x => p (f x) = true) l -> forallb p (map f l) = true.
Proof. induction 1 as [|x l Hx _ IH]; cbn; [reflexivity|]. now rewrite Hx. Qed.

Lemma to_numeric_coerce_cells (cells : list cell) :
  modelled cells ->
  exists s,
    to_numeric_coerce cells = Ok s
    /\ List.length (fillna0 s) = List.length cells
    /\ forall r, (r < List.length cells)%nat ->
         cell_num (nth r (fillna0 s) (CStr ""))
         = Some (parsed_value (parse_cell (nth r cells (CStr "")))).
Proof.
  intros [Hout Hkind]. unfold to_numeric_coerce.
  assert (Hinf : existsb is_POut (map parse_cell cells) = false).
  { clear Hkind. induction Hout as [|c cells Hc _ IH]; cbn; [reflexivity|].
    rewrite IH. destruct (parse_cell c); try reflexivity. congruence. }
  rewrite Hinf.
  destruct (forallb is_PInt (map parse_cell cells)) eqn:Hint.
  - eexists. split; [reflexivity|]. cbn [fillna0].
    split; [now rewrite !length_map|].
    intros r Hr.
    rewrite (nth_map_lt CInt _ r 0) by now rewrite !length_map.
    rewrite (nth_map_lt as_int _ r PNaN) by now rewrite length_map.
    rewrite (nth_map_lt parse_cell _ r (CStr "")) by exact Hr.
    rewrite forallb_forall in Hint.
    assert (Hp : is_PInt (parse_cell (nth r cells (CStr ""))) = true)
      by (apply Hint, in_map, nth_In; exact Hr).
    destruct (parse_cell (nth r cells (CStr ""))); now try discriminate Hp.
  - assert (Hf : forallb float_ok (map parse_cell cells) = true).
    { destruct Hkind as [H | H].
      - rewrite (forallb_map_Forall parse_cell is_PInt cells H) in Hint.
        discriminate.
      - now apply forallb_map_Forall. }
    rewrite Hf. eexists. split; [reflexivity|]. cbn [fillna0].
    split; [now rewrite !length_map|].
    intros r Hr.
    rewrite (nth_map_lt _ _ r None) by now rewrite !length_map.
    rewrite (nth_map_lt as_float _ r PNaN) by now rewrite length_map.
    rewrite (nth_map_lt parse_cell _ r (CStr "")) by exact Hr.
    now destruct (parse_cell (nth r cells (CStr ""))).
Qed.

Lemma record_beyond (r : nat) (df : DataFrame) :
  (List.length (rows df) <= r)%nat -> record r df = [].
Proof. intros H. unfold record. now apply nth_overflow. Qed.

Lemma cell_at_set_nth_same (i : nat) (v : cell) (row : list cell) :
  (i < List.length row)%nat -> cell_at i (set_nth i v row) = v.
Proof. apply nth_set_nth_same. Qed.

Lemma cell_at_set_nth_other (i j : nat) (v : cell) (row : list cell) :
  j <> i -> cell_at j (set_nth i v row) = cell_at j row.
Proof. intros H. apply nth_set_nth_other. congruence. Qed.

(** One pass of the loop body over a column the frame has. *)
Lemma coerce_column_spec (df : DataFrame) (col : string) (i : nat) :
  rectangular df -> occurrences col (columns df) = 1%nat ->
  position col (columns df) = Some i ->
  modelled (column_at i df) ->
  exists df',
    coerce_column df col = Ok df'
    /\ columns df' = columns df
    /\ rectangular df'
    /\ List.length (rows df') = List.length (rows df)
    /\ (forall r, (r < List.length (rows df))%nat ->
          cell_num (cell_at i (record r df'))
          = Some (parsed_value (parse_cell (cell_at i (record r df)))))
    /\ (forall j r, j <> i ->
          cell_at j (record r df') = cell_at j (record r df)).
Proof.
  intros Hrect Hocc Hpos Hcells.
  destruct (getitem_series df col Hocc) as (i' & Hi' & Hget).
  assert (i' = i) by congruence. subst i'.
  destruct (to_numeric_coerce_cells _ Hcells) as (s & Hs & Hlen & Hval).
  unfold column_at in Hlen, Hval. rewrite length_map in Hlen, Hval.
  exists (set_column i (fillna0 s) df).
  assert (Hhas : has_column df col = true)
    by (apply has_column_position; eauto).
  unfold coerce_column. rewrite Hhas, Hget. cbn [obind]. rewrite Hs.
  cbn [obind].
  split; [reflexivity|]. split; [reflexivity|].
  split; [|split; [|split]].
  - unfold rectangular, set_column. cbn [rows columns].
    apply zip_with_Forall with (P := fun r => List.length r = List.length (columns df)).
    + intros a b Ha. now rewrite set_nth_length.
    + exact Hrect.
  - unfold set_column. cbn [rows]. now apply zip_with_length.
  - intros r Hr. unfold record, set_column. cbn [rows].
    rewrite (nth_zip_with _ _ _ r [] (CStr "") []) by assumption.
    rewrite cell_at_set_nth_same.
    + rewrite (Hval r Hr). f_equal. f_equal. f_equal.
      apply (nth_map_lt (cell_at i) (rows df) r []). exact Hr.
    + unfold rectangular in Hrect. rewrite Forall_forall in Hrect.
      rewrite (Hrect (nth r (rows df) [])) by (apply nth_In; exact Hr).
      now apply position_lt with (name := col).
  - intros j r Hj.
    destruct (Nat.lt_ge_cases r (List.length (rows df))) as [Hr | Hr].
    + unfold record, set_column. cbn [rows].
      rewrite (nth_zip_with _ _ _ r [] (CStr "") []) by assumption.
      now apply cell_at_set_nth_other.
    + rewrite !record_beyond; [reflexivity|exact Hr|].
      unfold set_column. cbn [rows]. rewrite zip_with_length; assumption.
Qed.

(** A column the frame lacks is passed over. *)
Lemma coerce_column_absent (df : DataFrame) (col : string) :
  position col (columns df) = None -> coerce_column df col = Ok df.
Proof.
  intros H. unfold coerce_column.
  destruct (has_column df col) eqn:E; [|reflexivity].
  apply has_column_position in E. destruct E as [i E]. congruence.
Qed.

Lemma coerce_columns_cons (c : string) (cols : list string) (df : DataFrame) :
  coerce_columns (c :: cols) df
  = (df' <- coerce_column df c ;; coerce_columns cols df')%outcome.
Proof. reflexivity. Qed.

(** The loop over any list of distinct column names, none of which the frame
    has twice. *)
Lemma coerce_columns_spec (cols : list string) (df : DataFrame) :
  NoDup cols -> rectangular df ->
  (forall col, In col cols -> (occurrences col (columns df) <= 1)%nat) ->
  modelled_numerals cols df ->
  exists df',
    coerce_columns cols df = Ok df'
    /\ columns df' = columns df
    /\ rectangular df'
    /\ List.length (rows df') = List.length (rows df)
    /\ (forall col i r,
          In col cols -> position col (columns df) = Some i ->
          (r < List.length (rows df))%nat ->
          cell_num (cell_at i (record r df'))
          = Some (parsed_value (parse_cell (cell_at i (record r df)))))
    /\ (forall j r,
          (forall col, In col cols -> position col (columns df) <> Some j) ->
          cell_at j (record r df') = cell_at j (record r df)).
Proof.
  intros Hcols. revert df.
  induction Hcols as [|c cols Hc Hcols IH]; intros df Hrect Hocc Hfin.
  - exists df. cbn. repeat split; auto. intros col i r [].
  - assert (Hstep : exists df1,
               coerce_column df c = Ok df1
               /\ columns df1 = columns df
               /\ rectangular df1
               /\ List.length (rows df1) = List.length (rows df)
               /\ (forall i r, position c (columns df) = Some i ->
                     (r < List.length (rows df))%nat ->
                     cell_num (cell_at i (record r df1))
                     = Some (parsed_value (parse_cell (cell_at i (record r df)))))
               /\ (forall j r, position c (columns df) <> Some j ->
                     cell_at j (record r df1) = cell_at j (record r df))).
    { destruct (position c (columns df)) as [i|] eqn:Hpos.
      - assert (Hone : occurrences c (columns df) = 1%nat).
        { pose proof (position_occurs _ _ _ Hpos).
          pose proof (Hocc c (or_introl eq_refl)). lia. }
        destruct (coerce_column_spec df c i Hrect Hone Hpos
                    (Hfin c i (or_introl eq_refl) Hpos))
          as (df1 & H1 & H2 & H3 & H4 & H5 & H6).
        exists df1. split; [exact H1|]. split; [exact H2|].
        split; [exact H3|]. split; [exact H4|]. split.
        + intros i' r [= <-]. apply H5.
        + intros j r Hj. apply H6. congruence.
      - exists df. rewrite (coerce_column_absent df c Hpos).
        repeat split; auto. intros i r [=]. }
    destruct Hstep as (df1 & H1 & H2 & H3 & H4 & H5 & H6).
    assert (Hother : forall col i, In col cols ->
               position col (columns df) = Some i ->
               position c (columns df) <> Some i).
    { intros col i Hin Hpos Hpc.
      apply Hc. now rewrite (position_inj c col _ i Hpc Hpos). }
    assert (Hocc1 : forall col, In col cols ->
               (occurrences col (columns df1) <= 1)%nat).
    { intros col Hin. rewrite H2. apply Hocc. now right. }
    assert (Hfin1 : modelled_numerals cols df1).
    { intros col i Hin Hpos. rewrite H2 in Hpos.
      rewrite (column_at_ext i df df1 H4
                 (fun r => H6 i r (Hother col i Hin Hpos))).
      exact (Hfin col i (or_intror Hin) Hpos). }
    destruct (IH df1 H3 Hocc1 Hfin1) as (df' & G1 & G2 & G3 & G4 & G5 & G6).
    exists df'. rewrite coerce_columns_cons, H1. cbn [obind].
    split; [exact G1|]. split; [congruence|]. split; [exact G3|].
    split; [congruence|]. split.
    + intros col i r [<- | Hin] Hpos Hr.
      * rewrite G6.
        -- now apply H5.
        -- intros col' Hin' Hpos'. rewrite H2 in Hpos'.
           now apply (Hother col' i Hin' Hpos').
      * rewrite (G5 col i r Hin); [|now rewrite H2|now rewrite H4].
        now rewrite H6 by now apply (Hother col).
    + intros j r Hj. rewrite G6.
      * apply H6. apply Hj. now left.
      * intros col Hin. rewrite H2. apply Hj. now right.
Qed.

(** *** What the parser reads *)

Lemma digit_cases (d : ascii) :
  is_digit d = true -> In d (list_ascii_of_string "0123456789").
Proof.
  destruct d as [[] [] [] [] [] [] [] []]; intros H; vm_compute in H;
    try discriminate H; cbn; auto 12.
Qed.

Ltac each_digit d H :=
  apply digit_cases in H; cbn in H;
  repeat (destruct H as [H | H]; [subst d|]); [..|contradiction].

Lemma digit_not_cspace (d : ascii) : is_digit d = true -> is_cspace d = false.
Proof. intros H. each_digit d H; reflexivity. Qed.

Lemma read_sign_digit (d : ascii) (l : list ascii) :
  is_digit d = true -> read_sign (d :: l) = (false, d :: l).
Proof. intros H. each_digit d H; reflexivity. Qed.

Lemma spells_inf_digit (d : ascii) (l : list ascii) :
  is_digit d = true -> spells_inf (d :: l) = false.
Proof. intros H. each_digit d H; reflexivity. Qed.

Lemma digit_val_bounds (d : ascii) :
  is_digit d = true -> 0 <= digit_val d <= 9.
Proof. intros H. each_digit d H; vm_compute; split; discriminate. Qed.

Lemma drop_while_all (p : ascii -> bool) (ws l : list ascii) :
  Forall (fun c => p c = true) ws ->
  drop_while p (ws ++ l) = drop_while p l.
Proof.
  induction 1 as [|c ws Hc _ IH]; cbn; [reflexivity|]. now rewrite Hc.
Qed.

Lemma strip_with_core (p : ascii -> bool) (ws1 ws2 core : list ascii)
    (a z : ascii) :
  Forall (fun c => p c = true) ws1 ->
  Forall (fun c => p c = true) ws2 ->
  p a = false -> p z = false ->
  strip_with p (ws1 ++ (a :: core ++ [z]) ++ ws2) = a :: core ++ [z].
Proof.
  intros H1 H2 Ha Hz. unfold strip_with.
  rewrite drop_while_all by exact H1. cbn [app drop_while]. rewrite Ha.
  change (a :: (core ++ [z]) ++ ws2)
    with ((a :: core ++ [z]) ++ ws2)%list.
  rewrite rev_app_distr, drop_while_all by now apply Forall_rev.
  rewrite app_comm_cons, rev_app_distr. cbn [rev app drop_while].
  rewrite Hz. cbn [rev]. now rewrite rev_app_distr, rev_involutive.
Qed.

Lemma read_digits_app (ds rest : list ascii) (acc : Z) (n : nat) :
  Forall (fun d => is_digit d = true) ds ->
  match rest with [] => True | c :: _ => is_digit c = false end ->
  read_digits (ds ++ rest) acc n
  = (fold_left (fun a d => 10 * a + digit_val d) ds acc,
     (n + List.length ds)%nat, rest).
Proof.
  intros Hds Hrest. revert acc n.
  induction Hds as [|d ds Hd _ IH]; intros acc n; cbn.
  - rewrite Nat.add_0_r. destruct rest as [|c rest]; cbn; [reflexivity|].
    now rewrite Hrest.
  - rewrite Hd, IH. f_equal. f_equal. lia.
Qed.

Lemma strip_with_edges (p : ascii -> bool) (ws1 ws2 core pre rest : list ascii)
    (a z : ascii) :
  Forall (fun c => p c = true) ws1 ->
  Forall (fun c => p c = true) ws2 ->
  core = a :: rest -> p a = false ->
  core = (pre ++ [z])%list -> p z = false ->
  strip_with p (ws1 ++ core ++ ws2) = core.
Proof.
  intros H1 H2 Ea Ha Ez Hz. unfold strip_with.
  rewrite drop_while_all by exact H1.
  rewrite Ea at 1. cbn [app drop_while]. rewrite Ha.
  change (a :: rest ++ ws2)%list with ((a :: rest) ++ ws2)%list.
  rewrite <- Ea, rev_app_distr, drop_while_all by now apply Forall_rev.
  rewrite Ez, rev_app_distr. cbn [rev app drop_while]. rewrite Hz.
  cbn [rev]. now rewrite rev_involutive.
Qed.

Lemma read_digits_all (ds : list ascii) (acc : Z) (n : nat) :
  Forall (fun d => is_digit d = true) ds ->
  read_digits ds acc n
  = (fold_left (fun a d => 10 * a + digit_val d) ds acc,
     (n + List.length ds)%nat, []).
Proof.
  intros H. rewrite <- (app_nil_r ds) at 1. now apply read_digits_app.
Qed.

(** Digits write a number below the power of ten of their length. *)
Lemma digits_bound (ds : list ascii) (acc : Z) :
  Forall (fun d => is_digit d = true) ds -> 0 <= acc ->
  0 <= fold_left (fun a d => 10 * a + digit_val d) ds acc
  < (acc + 1) * 10 ^ Z.of_nat (List.length ds).
Proof.
  intros H. revert acc.
  induction H as [|d ds Hd _ IH]; intros acc Hacc.
  - cbn. lia.
  - pose proof (digit_val_bounds d Hd) as Hv.
    cbn [fold_left List.length]. rewrite Nat2Z.inj_succ, Z.pow_succ_r by lia.
    specialize (IH (10 * acc + digit_val d) ltac:(lia)).
    assert (Hp : 0 < 10 ^ Z.of_nat (List.length ds))
      by (apply Z.pow_pos_nonneg; lia).
    nia.
Qed.

Lemma digits_value_bound (ds : list ascii) :
  Forall (fun d => is_digit d = true) ds ->
  0 <= digits_value ds < 10 ^ Z.of_nat (List.length ds).
Proof.
  intros H. pose proof (digits_bound ds 0 H ltac:(lia)) as Hb.
  unfold digits_value. lia.
Qed.

Lemma parse_numeric_integer (neg : bool) (ws1 ws2 ds : list ascii) :
  Forall (fun c => is_cspace c = true) ws1 ->
  Forall (fun c => is_cspace c = true) ws2 ->
  Forall (fun d => is_digit d = true) ds -> ds <> [] ->
  (List.length ds <= 17)%nat ->
  (neg = true -> digits_value ds <> 0) ->
  parse_numeric (text (ws1 ++ (sign_chars neg ++ ds) ++ ws2))
  = PInt (if neg then - digits_value ds else digits_value ds).
Proof.
  intros H1 H2 Hds Hne Hlen Hzero.
  pose proof (digits_value_bound ds Hds) as Hb.
  assert (Hp : 10 ^ Z.of_nat (List.length ds) <= 10 ^ 17)
    by (apply Z.pow_le_mono_r; lia).
  destruct (exists_last Hne) as (ds' & z & Ez).
  assert (Hz : is_digit z = true).
  { rewrite Ez in Hds. apply Forall_app in Hds. destruct Hds as [_ Hds].
    now inversion Hds. }
  destruct ds as [|d ds0]; [congruence|].
  assert (Hd : is_digit d = true) by now inversion Hds.
  unfold parse_numeric, text. rewrite list_ascii_of_string_of_list_ascii.
  assert (Hstrip : strip_with is_cspace (ws1 ++ (sign_chars neg ++ d :: ds0) ++ ws2)
                   = (sign_chars neg ++ d :: ds0)%list).
  { destruct neg.
    - apply (strip_with_edges is_cspace ws1 ws2 ("-"%char :: d :: ds0)
               ("-"%char :: ds') (d :: ds0) "-"%char z); auto.
      + cbn. now rewrite Ez.
      + now apply digit_not_cspace.
    - apply (strip_with_edges is_cspace ws1 ws2 (d :: ds0) ds' ds0 d z);
        auto; now apply digit_not_cspace. }
  rewrite Hstrip.
  assert (Hsign : read_sign (sign_chars neg ++ d :: ds0) = (neg, d :: ds0)).
  { destruct neg; cbn [sign_chars app]; [reflexivity|now apply read_sign_digit]. }
  rewrite Hsign. cbv beta iota.
  rewrite (spells_inf_digit d ds0 Hd).
  rewrite (read_digits_all (d :: ds0) 0 0 Hds).
  cbv beta iota. cbn [Nat.add List.length Nat.eqb read_exponent].
  fold (digits_value (d :: ds0)). unfold int_literal.
  assert (E1 : neg && (digits_value (d :: ds0) =? 0) = false).
  { destruct neg; [|reflexivity]. cbn. apply Z.eqb_neq. now apply Hzero. }
  assert (E2 : (17 <? S (List.length ds0))%nat = false)
    by (apply Nat.ltb_ge; exact Hlen).
  rewrite E1, E2. cbn [andb].
  assert (E3 : in_int64 (if neg then - digits_value (d :: ds0)
                         else digits_value (d :: ds0)) = true).
  { unfold in_int64. apply andb_true_iff.
    change (10 ^ 17) with 100000000000000000 in Hp.
    change (2 ^ 63) with 9223372036854775808.
    split; [apply Z.leb_le|apply Z.ltb_lt]; destruct neg; lia. }
  now rewrite E3.
Qed.

Lemma inject_pow10_nonzero (n : nat) : ~ (inject_Z (10 ^ Z.of_nat n) == 0)%Q.
Proof.
  intros H. unfold Qeq in H. cbn [Qnum Qden inject_Z] in H.
  rewrite Z.mul_1_r in H. change (0 * 1) with 0 in H.
  assert (Hp : 0 < 10 ^ Z.of_nat n) by (apply Z.pow_pos_nonneg; lia).
  rewrite H in Hp. discriminate Hp.
Qed.

Lemma pow10_neg (n : nat) :
  (pow10 (- Z.of_nat n) == 1 / inject_Z (10 ^ Z.of_nat n))%Q.
Proof.
  unfold pow10. destruct n as [|n].
  - reflexivity.
  - replace (0 <=? - Z.of_nat (S n)) with false by (symmetry; apply Z.leb_gt; lia).
    rewrite Z.opp_involutive. field. apply inject_pow10_nonzero.
Qed.

Lemma parse_numeric_decimal (neg : bool) (ws1 ws2 ds fs : list ascii) :
  Forall (fun c => is_cspace c = true) ws1 ->
  Forall (fun c => is_cspace c = true) ws2 ->
  Forall (fun d => is_digit d = true) ds -> ds <> [] ->
  Forall (fun d => is_digit d = true) fs ->
  (List.length ds + List.length fs <= 15)%nat ->
  (neg = true -> 0 < digits_value ds + digits_value fs) ->
  exists q,
    parse_numeric (text (ws1 ++ (sign_chars neg ++ ds ++ "."%char :: fs) ++ ws2))
    = PFloat (round64 q)
    /\ (q == if neg then - decimal_value ds fs else decimal_value ds fs)%Q.
Proof.
  intros H1 H2 Hds Hne Hfs Hlen Hzero.
  pose proof (digits_value_bound ds Hds) as Hbd.
  pose proof (digits_value_bound fs Hfs) as Hbf.
  destruct ds as [|d ds0]; [congruence|].
  assert (Hd : is_digit d = true) by now inversion Hds.
  assert (Hlast : exists pre z,
             (d :: ds0 ++ "."%char :: fs = pre ++ [z])%list
             /\ is_cspace z = false).
  { destruct fs as [|f fs0].
    - exists (d :: ds0), "."%char. split; reflexivity.
    - destruct (@exists_last _ (f :: fs0)) as (fs' & z & Ez); [discriminate|].
      exists (d :: ds0 ++ "."%char :: fs')%list, z. split.
      + rewrite Ez. cbn. now rewrite <- app_assoc.
      + apply digit_not_cspace. rewrite Ez in Hfs.
        apply Forall_app in Hfs. destruct Hfs as [_ Hfs]. now inversion Hfs. }
  destruct Hlast as (pre & z & Ez & Hz).
  unfold parse_numeric, text. rewrite list_ascii_of_string_of_list_ascii.
  assert (Hstrip :
    strip_with is_cspace
      (ws1 ++ (sign_chars neg ++ (d :: ds0) ++ "."%char :: fs) ++ ws2)
    = (sign_chars neg ++ (d :: ds0) ++ "."%char :: fs)%list).
  { destruct neg.
    - apply (strip_with_edges is_cspace ws1 ws2
               ("-"%char :: d :: ds0 ++ "."%char :: fs)
               ("-"%char :: pre) (d :: ds0 ++ "."%char :: fs) "-"%char z);
        auto. cbn. now rewrite <- Ez.
    - apply (strip_with_edges is_cspace ws1 ws2
               (d :: ds0 ++ "."%char :: fs) pre (ds0 ++ "."%char :: fs) d z);
        auto. now apply digit_not_cspace. }
  rewrite Hstrip.
  assert (Hsign : read_sign (sign_chars neg ++ (d :: ds0) ++ "."%char :: fs)
                  = (neg, ((d :: ds0) ++ "."%char :: fs)%list)).
  { destruct neg; cbn [sign_chars app]; [reflexivity|now apply read_sign_digit]. }
  rewrite Hsign. cbv beta iota.
  change ((d :: ds0) ++ "."%char :: fs)%list
    with (d :: (ds0 ++ "."%char :: fs))%list at 1.
  rewrite (spells_inf_digit d _ Hd).
  rewrite (read_digits_app (d :: ds0) ("."%char :: fs) 0 0 Hds eq_refl).
  cbv beta iota.
  rewrite (read_digits_all fs 0 0 Hfs).
  cbv beta iota. cbn [Nat.add List.length Nat.eqb read_exponent].
  fold (digits_value (d :: ds0)). fold (digits_value fs).
  set (n := digits_value (d :: ds0) * 10 ^ Z.of_nat (List.length fs)
            + digits_value fs).
  assert (Hpf : 0 < 10 ^ Z.of_nat (List.length fs))
    by (apply Z.pow_pos_nonneg; lia).
  assert (Hn : 0 <= n < 10 ^ 15).
  { assert (Hsum : 10 ^ Z.of_nat (List.length (d :: ds0))
                   * 10 ^ Z.of_nat (List.length fs) <= 10 ^ 15).
    { rewrite <- Z.pow_add_r by lia. apply Z.pow_le_mono_r; lia. }
    unfold n. nia. }
  unfold float_literal.
  assert (E1 : (S (List.length ds0 + List.length fs) <=? 17)%nat = true)
    by (apply Nat.leb_le; cbn [List.length] in Hlen; lia).
  assert (E2 : (n <=? 2 ^ 53) = true).
  { apply Z.leb_le. change (10 ^ 15) with 1000000000000000 in Hn.
    change (2 ^ 53) with 9007199254740992. lia. }
  assert (E3 : (-22 <=? - Z.of_nat (List.length fs)) = true)
    by (apply Z.leb_le; lia).
  assert (E4 : (- Z.of_nat (List.length fs) <=? 22) = true)
    by (apply Z.leb_le; lia).
  assert (E5 : neg && (n =? 0) = false).
  { destruct neg; [|reflexivity]. cbn. apply Z.eqb_neq.
    specialize (Hzero eq_refl). unfold n. nia. }
  rewrite E1, E2, E3, E4, E5. cbn [andb negb Nat.leb].
  eexists. split; [reflexivity|].
  assert (Hv : (inject_Z n * pow10 (- Z.of_nat (List.length fs))
                == decimal_value (d :: ds0) fs)%Q).
  { rewrite pow10_neg. unfold decimal_value, n.
    rewrite inject_Z_plus, inject_Z_mult. field. apply inject_pow10_nonzero. }
  destruct neg; [apply Qopp_comp|]; exact Hv.
Qed.

Lemma numeric_cols_NoDup : NoDup numeric_cols.
Proof.
  unfold numeric_cols. repeat constructor; cbn; intuition discriminate.
Qed.

(** C6. In a rectangular frame that has none of the three numeric columns
    twice, and whose numerals in them are among those the model reads, the
    loop over the three columns ends normally; in each of them that the
    frame has, every cell becomes a number, never a missing value: 0 when
    its text does not parse, the number parsed otherwise.  Text made of up
    to 17 digits, with an optional minus sign and white space around,
    parses to the integer it writes; with a decimal point among up to 15
    digits, to the float64 nearest to the number it writes. *)
Theorem numeric_cells_are_coerced (df : DataFrame) :
  rectangular df ->
  (forall col, In col numeric_cols ->
     (occurrences col (columns df) <= 1)%nat) ->
  modelled_numerals numeric_cols df ->
  (exists df',
     coerce_columns numeric_cols df = Ok df'
     /\ columns df' = columns df
     /\ List.length (rows df') = List.length (rows df)
     /\ forall col i r,
         In col numeric_cols -> position col (columns df) = Some i ->
         (r < List.length (rows df))%nat ->
         cell_num (cell_at i (record r df'))
         = Some (parsed_value (parse_cell (cell_at i (record r df))))
         /\ (parse_cell (cell_at i (record r df)) = PNaN ->
             cell_num (cell_at i (record r df')) = Some 0%Q))
  /\ (forall neg ws1 ws2 ds,
        Forall (fun c => is_cspace c = true) ws1 ->
        Forall (fun c => is_cspace c = true) ws2 ->
        Forall (fun d => is_digit d = true) ds -> ds <> [] ->
        (List.length ds <= 17)%nat ->
        (neg = true -> digits_value ds <> 0) ->
        parse_numeric (text (ws1 ++ (sign_chars neg ++ ds) ++ ws2))
        = PInt (if neg then - digits_value ds else digits_value ds))
  /\ (forall neg ws1 ws2 ds fs,
        Forall (fun c => is_cspace c = true) ws1 ->
        Forall (fun c => is_cspace c = true) ws2 ->
        Forall (fun d => is_digit d = true) ds -> ds <> [] ->
        Forall (fun d => is_digit d = true) fs ->
        (List.length ds + List.length fs <= 15)%nat ->
        (neg = true -> 0 < digits_value ds + digits_value fs) ->
        exists q,
          parse_numeric
            (text (ws1 ++ (sign_chars neg ++ ds ++ "."%char :: fs) ++ ws2))
          = PFloat (round64 q)
          /\ (q == if neg then - decimal_value ds fs
                   else decimal_value ds fs)%Q).
Proof.
  intros Hrect Hocc Hfin. split; [|split].
  - destruct (coerce_columns_spec numeric_cols df numeric_cols_NoDup
                Hrect Hocc Hfin) as (df' & H1 & H2 & _ & H4 & H5 & _).
    exists df'. split; [exact H1|]. split; [exact H2|]. split; [exact H4|].
    intros col i r Hin Hpos Hr. split; [exact (H5 col i r Hin Hpos Hr)|].
    intros Hnan. rewrite (H5 col i r Hin Hpos Hr). now rewrite Hnan.
  - intros. now apply parse_numeric_integer.
  - intros. now apply parse_numeric_decimal.
Qed.

Lemma sample_raw_modelled : modelled_numerals numeric_cols sample_raw.
Proof.
  intros col i [<- | [<- | [<- | []]]] Hpos; vm_compute in Hpos;
    injection Hpos as <-; (split; [repeat constructor; vm_compute; discriminate|]).
  - left. repeat constructor.
  - right. repeat constructor.
  - left. repeat constructor.
Qed.

Lemma sample_raw_columns (col : string) :
  In col numeric_cols -> (occurrences col (columns sample_raw) <= 1)%nat.
Proof. intros [<- | [<- | [<- | []]]]; vm_compute; lia. Qed.

Lemma numeric_cells_are_coerced_witness :
  (rectangular sample_raw
   /\ (forall col, In col numeric_cols ->
         (occurrences col (columns sample_raw) <= 1)%nat)
   /\ modelled_numerals numeric_cols sample_raw)
  /\ coerce_columns numeric_cols sample_raw = Ok sample_table
  /\ (exists df',
       coerce_columns numeric_cols sample_raw = Ok df'
       /\ columns df' = columns sample_raw
       /\ List.length (rows df') = List.length (rows sample_raw)
       /\ forall col i r,
           In col numeric_cols -> position col (columns sample_raw) = Some i ->
           (r < List.length (rows sample_raw))%nat ->
           cell_num (cell_at i (record r df'))
           = Some (parsed_value (parse_cell (cell_at i (record r sample_raw))))
           /\ (parse_cell (cell_at i (record r sample_raw)) = PNaN ->
               cell_num (cell_at i (record r df')) = Some 0%Q)).
Proof.
  assert (Hrect : rectangular sample_raw) by (repeat constructor).
  split; [split; [exact Hrect|];
          split; [exact sample_raw_columns | exact sample_raw_modelled]|].
  split; [vm_compute; reflexivity|].
  exact (proj1 (numeric_cells_are_coerced sample_raw Hrect sample_raw_columns
                  sample_raw_modelled)).
Defined.

(** ** Grouping and ranking *)

(** *** Group keys *)

Lemma string_compare_refl (s : string) : String.compare s s = Eq.
Proof.
  pose proof (String.compare_antisym s s) as H.
  destruct (String.compare s s); cbn in H; congruence.
Qed.

Lemma cell_eqb_refl (a : cell) : cell_eqb a a = true.
Proof.
  unfold cell_eqb, cell_compare. destruct (cell_num a) as [q|].
  - now rewrite (proj1 (Qeq_alt q q) (Qeq_refl q)).
  - now rewrite string_compare_refl.
Qed.

Lemma cell_eqb_sym (a b : cell) : cell_eqb a b = cell_eqb b a.
Proof.
  unfold cell_eqb, cell_compare.
  destruct (cell_num a) as [x|], (cell_num b) as [y|]; try reflexivity.
  - rewrite <- (Qcompare_antisym y x). now destruct (y ?= x)%Q.
  - rewrite (String.compare_antisym (astype_str a) (astype_str b)).
    now destruct (String.compare (astype_str b) (astype_str a)).
Qed.

Lemma cell_eqb_trans (a b c : cell) :
  cell_eqb a b = true -> cell_eqb b c = true -> cell_eqb a c = true.
Proof.
  unfold cell_eqb, cell_compare.
  destruct (cell_num a) as [x|], (cell_num b) as [y|], (cell_num c) as [z|];
    try discriminate.
  - destruct (x ?= y)%Q eqn:E1; try discriminate.
    destruct (y ?= z)%Q eqn:E2; try discriminate. intros _ _.
    apply Qeq_alt in E1, E2.
    now rewrite (proj1 (Qeq_alt x z) (Qeq_trans _ _ _ E1 E2)).
  - destruct (String.compare (astype_str a) (astype_str b)) eqn:E1;
      try discriminate.
    apply String.compare_eq_iff in E1. now rewrite E1.
Qed.

Lemma uniques_incl (ks : list cell) (u : cell) :
  In u (uniques ks) -> In u ks.
Proof.
  induction ks as [|k ks IH]; cbn; [auto|].
  intros [<- | H]; [now left|]. apply filter_In in H. right. now apply IH.
Qed.

Lemma uniques_covers (ks : list cell) (x : cell) :
  In x ks -> exists u, In u (uniques ks) /\ cell_eqb x u = true.
Proof.
  induction ks as [|k ks IH]; cbn; [contradiction|].
  intros [<- | H].
  - exists k. split; [now left|apply cell_eqb_refl].
  - destruct (IH H) as (u & Hu & E).
    destruct (cell_eqb u k) eqn:Euk.
    + exists k. split; [now left|]. now apply cell_eqb_trans with u.
    + exists u. split; [|exact E]. right. apply filter_In. now rewrite Euk.
Qed.

Lemma pairwise_distinct_filter (f : cell -> bool) (l : list cell) :
  pairwise_distinct l -> pairwise_distinct (filter f l).
Proof.
  unfold pairwise_distinct.
  induction 1 as [|a l Ha _ IH]; cbn; [constructor|].
  destruct (f a); [|exact IH]. constructor; [|exact IH].
  rewrite Forall_forall in Ha |- *. intros b Hb.
  apply filter_In in Hb. now apply Ha.
Qed.

Lemma uniques_distinct (ks : list cell) : pairwise_distinct (uniques ks).
Proof.
  induction ks as [|k ks IH]; cbn; [constructor|].
  constructor.
  - apply Forall_forall. intros b Hb. apply filter_In in Hb.
    destruct Hb as [_ Hb]. rewrite cell_eqb_sym.
    now destruct (cell_eqb b k).
  - now apply pairwise_distinct_filter.
Qed.

Lemma insert_key_perm (k : cell) (l : list cell) :
  Permutation (insert_key k l) (k :: l).
Proof.
  induction l as [|x l IH]; cbn; [reflexivity|].
  destruct (cell_compare k x); try reflexivity.
  rewrite IH. apply perm_swap.
Qed.

Lemma sort_keys_perm (l : list cell) : Permutation (sort_keys l) l.
Proof.
  induction l as [|k l IH]; cbn; [reflexivity|].
  rewrite insert_key_perm. now constructor.
Qed.


(** *** The number of groups *)

Lemma filter_keeps_all {A} (f : A -> bool) (l : list A) :
  (forall x, In x l -> f x = true) -> filter f l = l.
Proof.
  intros H. induction l as [|x l IH]; cbn; [reflexivity|].
  rewrite (H x) by now left. f_equal. apply IH. intros y Hy. apply H. now right.
Qed.

Lemma one_match_length (k : cell) (l : list cell) :
  pairwise_distinct l ->
  (exists u, In u l /\ cell_eqb u k = true) ->
  S (List.length (filter (fun x => negb (cell_eqb x k)) l)) = List.length l.
Proof.
  unfold pairwise_distinct.
  induction 1 as [|a l Ha Hl IH]; intros (u & Hu & E); [contradiction|].
  cbn. destruct (cell_eqb a k) eqn:Ea; cbn.
  - f_equal. f_equal. apply filter_keeps_all. intros x Hx.
    rewrite Forall_forall in Ha. specialize (Ha x Hx).
    destruct (cell_eqb x k) eqn:Ex; [|reflexivity].
    rewrite (cell_eqb_trans a k x Ea) in Ha; [discriminate|].
    now rewrite cell_eqb_sym.
  - f_equal. apply IH. destruct Hu as [<- | Hu]; [congruence|]. eauto.
Qed.

Lemma uniques_length (ks : list cell) :
  List.length (uniques ks) = count_distinct ks.
Proof.
  induction ks as [|k ks IH]; cbn; [reflexivity|].
  destruct (existsb (cell_eqb k) ks) eqn:E.
  - rewrite <- IH. apply one_match_length; [apply uniques_distinct|].
    apply existsb_exists in E. destruct E as (x & Hx & Ex).
    destruct (uniques_covers ks x Hx) as (u & Hu & Eu).
    exists u. split; [exact Hu|].
    rewrite cell_eqb_sym. now apply cell_eqb_trans with x.
  - f_equal. rewrite <- IH. f_equal. apply filter_keeps_all.
    intros x Hx. apply uniques_incl in Hx.
    destruct (cell_eqb x k) eqn:Ex; [|reflexivity].
    assert (H : existsb (cell_eqb k) ks = true).
    { apply existsb_exists. exists x. split; [exact Hx|].
      now rewrite cell_eqb_sym. }
    congruence.
Qed.

Lemma group_keys_length (keys : list cell) :
  List.length (group_keys keys) = count_distinct keys.
Proof.
  unfold group_keys.
  rewrite (Permutation_length (sort_keys_perm _)). apply uniques_length.
Qed.

(** *** Sums over groups *)











(** *** int64 sums *)








(** The sums of the groups of an integer column as int64 cells. *)
Lemma traverse_ok {A B} (f : A -> outcome B) (g : A -> B) (l : list A) :
  (forall x, In x l -> f x = Ok (g x)) -> traverse f l = Ok (map g l).
Proof.
  induction l as [|x l IH]; intros H; cbn [traverse map]; [reflexivity|].
  rewrite (H x) by now left. cbn [obind].
  rewrite IH by (intros y Hy; apply H; now right). reflexivity.
Qed.

Lemma traverse_inv {A B} (f : A -> outcome B) (l : list A) (m : list B) :
  traverse f l = Ok m -> Forall2 (fun x y => f x = Ok y) l m.
Proof.
  revert m. induction l as [|x l IH]; intros m; cbn [traverse].
  - intros [= <-]. constructor.
  - destruct (f x) as [y| |] eqn:E; cbn [obind]; try discriminate.
    destruct (traverse f l) as [ys| |]; cbn [obind]; try discriminate.
    intros [= <-]. constructor; [exact E|now apply IH].
Qed.

Lemma traverse_not_raise {A B} (f : A -> outcome B) (l : list A) (e : exn) :
  (forall x, f x <> Raise e) -> traverse f l <> Raise e.
Proof.
  intros H. induction l as [|x l IH]; cbn [traverse]; [discriminate|].
  specialize (H x). destruct (f x) as [y| |]; cbn [obind];
    [|congruence|discriminate].
  destruct (traverse f l) as [ys| |]; cbn [obind]; congruence.
Qed.

(** *** Ranking *)

Section Ranking.
Context {A : Type} (val : A -> Q).

Lemma insert_desc_perm (x : A) (l : list A) :
  Permutation (insert_desc val x l) (x :: l).
Proof.
  induction l as [|y l IH]; cbn; [reflexivity|].
  destruct (Qle_bool (val y) (val x)); [reflexivity|].
  rewrite IH. apply perm_swap.
Qed.

Lemma sort_desc_perm (l : list A) : Permutation (sort_desc val l) l.
Proof.
  induction l as [|x l IH]; cbn; [reflexivity|].
  rewrite insert_desc_perm. now constructor.
Qed.

Lemma insert_desc_descending (x : A) (l : list A) :
  descending val l -> descending val (insert_desc val x l).
Proof.
  unfold descending.
  induction 1 as [|y l Hl IH Hy]; cbn; [repeat constructor|].
  destruct (Qle_bool (val y) (val x)) eqn:E.
  - apply Qle_bool_iff in E. constructor; [now constructor|].
    constructor; [exact E|].
    eapply Forall_impl; [|exact Hy]. intros z Hz. cbn in Hz.
    now apply Qle_trans with (val y).
  - constructor; [exact IH|].
    apply (Permutation_Forall (Permutation_sym (insert_desc_perm x l))).
    constructor; [|exact Hy].
    destruct (Qlt_le_dec (val x) (val y)) as [H | H].
    + now apply Qlt_le_weak.
    + apply Qle_bool_iff in H. congruence.
Qed.

Lemma sort_desc_descending (l : list A) : descending val (sort_desc val l).
Proof.
  induction l as [|x l IH]; cbn; [constructor|].
  now apply insert_desc_descending.
Qed.

Lemma firstn_In (n : nat) (l : list A) (x : A) :
  In x (firstn n l) -> In x l.
Proof.
  revert n. induction l as [|y l IH]; intros [|n]; cbn; try contradiction.
  intros [<- | H]; [now left|]. right. now apply (IH n).
Qed.

Lemma firstn_descending (n : nat) (l : list A) :
  descending val l -> descending val (firstn n l).
Proof.
  unfold descending. intros H. revert n.
  induction H as [|x l Hl IH Hx]; intros [|n]; cbn; try constructor.
  - apply IH.
  - apply Forall_forall. intros y Hy. rewrite Forall_forall in Hx.
    apply Hx. now apply (firstn_In n).
Qed.

Lemma nlargest_descending (n : Z) (l : list A) :
  descending val (nlargest val n l).
Proof.
  unfold nlargest. destruct (n <=? 0); [constructor|].
  apply firstn_descending, sort_desc_descending.
Qed.

Lemma nlargest_length (n : Z) (l : list A) :
  List.length (nlargest val n l) = Nat.min (Z.to_nat n) (List.length l).
Proof.
  unfold nlargest. destruct (n <=? 0) eqn:E.
  - apply Z.leb_le in E. now replace (Z.to_nat n) with O by lia.
  - rewrite length_firstn.
    now rewrite (Permutation_length (sort_desc_perm l)).
Qed.

Lemma nlargest_In (n : Z) (l : list A) (x : A) :
  In x (nlargest val n l) -> In x l.
Proof.
  unfold nlargest. destruct (n <=? 0); [contradiction|].
  intros H. apply firstn_In in H.
  now apply (Permutation_in _ (sort_desc_perm l)).
Qed.
End Ranking.

(** *** The summaries on a frame that has the columns *)

Lemma column_is_cells (df : DataFrame) (name : string) (cells : list cell) :
  column_is df name cells ->
  has_column df name = true
  /\ List.length cells = List.length (rows df).
Proof.
  intros [i H]. unfold getitem in H.
  destruct (position name (columns df)) as [j|] eqn:Hpos; [|discriminate].
  destruct (occurrences name (columns df) =? 1)%nat; [|discriminate].
  injection H as <- <-. split.
  - apply has_column_position. eauto.
  - unfold column_at. apply length_map.
Qed.



Lemma grouper_ok (df : DataFrame) (name : string) (keys : list cell) :
  column_is df name keys -> grouper df name = Ok keys.
Proof. intros [i H]. unfold grouper. now rewrite H. Qed.

Lemma selected_ok (df : DataFrame) (name : string) (cells : list cell) :
  column_is df name cells -> selected df name = Ok cells.
Proof. intros [i H]. unfold selected. now rewrite H. Qed.

Lemma grouped_sum_ok (df : DataFrame) (col_name value_col : string)
    (keys : list cell) (ns : numbers) :
  column_is df col_name keys -> metric_is df value_col ns ->
  grouped_sum df col_name value_col = sums_of keys ns.
Proof.
  intros Hk (cells & Hc & Hv). unfold grouped_sum.
  rewrite (grouper_ok _ _ _ Hk), (selected_ok _ _ _ Hc). cbn [obind].
  now rewrite Hv.
Qed.


(** The rows of the sums of one metric: a row per group key, in the order
    of the keys, each with the sum of its group. *)
Lemma sums_of_inv (keys : list cell) (ns : numbers) (sums : list (cell * cell)) :
  sums_of keys ns = Ok sums ->
  map fst sums = group_keys keys
  /\ Forall (fun e => group_total keys ns (fst e) = Ok (snd e)) sums.
Proof.
  unfold sums_of. intros H. apply traverse_inv in H.
  induction H as [|k e ks sums Hk _ [IH1 IH2]]; [split; constructor|].
  unfold sum_row in Hk.
  destruct (group_total keys ns k) as [t| |] eqn:E; cbn [obind] in Hk;
    try discriminate.
  injection Hk as <-. cbn [map fst]. split; [now rewrite IH1|].
  constructor; [exact E|exact IH2].
Qed.

(** The rows of the sums of both metrics. *)
Lemma sums_rows_inv (keys : list cell) (imps exps : numbers)
    (sums : list (cell * cell * cell)) :
  traverse (sums_row keys imps exps) (group_keys keys) = Ok sums ->
  map group_of sums = group_keys keys
  /\ Forall (fun row =>
               group_total keys imps (group_of row) = Ok (import_sum row)
               /\ group_total keys exps (group_of row) = Ok (export_sum row))
       sums.
Proof.
  intros H. apply traverse_inv in H.
  induction H as [|k e ks sums Hk _ [IH1 IH2]]; [split; constructor|].
  unfold sums_row in Hk.
  destruct (group_total keys imps k) as [i| |] eqn:Ei; cbn [obind] in Hk;
    try discriminate.
  destruct (group_total keys exps k) as [x| |] eqn:Ex; cbn [obind] in Hk;
    try discriminate.
  injection Hk as <-. cbn [map]. unfold group_of at 1. cbn [fst].
  split; [now rewrite IH1|].
  constructor; [|exact IH2]. now split.
Qed.

(** The sums of an int64 column always exist: int64 wraps around. *)
Lemma int_sums_exist (keys : list cell) (zs : list Z) :
  sums_of keys (Ints zs)
  = Ok (map (fun k => (k, CInt (wrap64 (zsum (group_values keys zs k)))))
          (group_keys keys)).
Proof. unfold sums_of. now apply traverse_ok. Qed.

(** C5. On a frame that has the group column and, apart from it, the metric
    column with numbers of one dtype in it, whose sums per group are
    [sums] (a sum exists unless it overflows float64), the summary of
    line 147 holds at most [n] entries, each a group with the sum of the
    metric over it, in descending order of that sum; with fewer than [n]
    distinct group values it holds one entry per value.  The helper then
    raises [NameError] at [px.bar], for [px] is not bound. *)
Theorem top_n_is_bounded_and_sorted (df : DataFrame)
    (col_name value_col title : string) (n : nat)
    (keys : list cell) (ns : numbers) (sums : list (cell * cell)) :
  column_is df col_name keys -> metric_is df value_col ns ->
  col_name <> value_col ->
  sums_of keys ns = Ok sums ->
  exists top,
    top_n_summary df col_name value_col (Z.of_nat n) = Ok top
    /\ (List.length top <= n)%nat
    /\ descending sum_of top
    /\ ((count_distinct keys < n)%nat ->
        List.length top = count_distinct keys)
    /\ (forall e, In e top ->
          In (fst e) (group_keys keys)
          /\ group_total keys ns (fst e) = Ok (snd e))
    /\ create_top_n_chart df col_name value_col title (Z.of_nat n)
       = ([], Raise (name_error "px")).
Proof.
  intros Hk Hv Hne Hsums.
  exists (nlargest sum_of (Z.of_nat n) sums).
  destruct (sums_of_inv _ _ _ Hsums) as [Hkeys Hrows].
  assert (Hlen : List.length sums = count_distinct keys).
  { rewrite <- group_keys_length, <- Hkeys. now rewrite length_map. }
  assert (Hsum : top_n_summary df col_name value_col (Z.of_nat n)
                 = Ok (nlargest sum_of (Z.of_nat n) sums)).
  { unfold top_n_summary.
    rewrite (grouped_sum_ok _ _ _ _ _ Hk Hv), Hsums. cbn [obind].
    apply String.eqb_neq in Hne. now rewrite Hne. }
  split; [exact Hsum|]. split; [|split; [|split; [|split]]].
  - rewrite nlargest_length, Nat2Z.id. apply Nat.le_min_l.
  - apply nlargest_descending.
  - intros Hlt. rewrite nlargest_length, Nat2Z.id, Hlen. lia.
  - intros e He. apply nlargest_In in He.
    rewrite Forall_forall in Hrows. split; [|now apply Hrows].
    rewrite <- Hkeys. now apply in_map.
  - unfold create_top_n_chart.
    rewrite (proj1 (column_is_cells _ _ _ Hk)). cbn [negb].
    now rewrite Hsum.
Qed.

Lemma top_n_is_bounded_and_sorted_witness :
  (column_is sample_table COUNTRY (column_at 0 sample_table)
   /\ metric_is sample_table IMPORTS (Ints [10; 0; 7])
   /\ COUNTRY <> IMPORTS
   /\ sums_of (column_at 0 sample_table) (Ints [10; 0; 7])
      = Ok [(CStr "China", CInt 7); (CStr "Japan", CInt 10)])
  /\ exists top,
      top_n_summary sample_table COUNTRY IMPORTS (Z.of_nat 10) = Ok top
      /\ (List.length top <= 10)%nat
      /\ descending sum_of top
      /\ ((count_distinct (column_at 0 sample_table) < 10)%nat ->
          List.length top = count_distinct (column_at 0 sample_table))
      /\ (forall e, In e top ->
            In (fst e) (group_keys (column_at 0 sample_table))
            /\ group_total (column_at 0 sample_table) (Ints [10; 0; 7]) (fst e)
               = Ok (snd e))
      /\ create_top_n_chart sample_table COUNTRY IMPORTS "top" (Z.of_nat 10)
         = ([], Raise (name_error "px")).
Proof.
  assert (Hk : column_is sample_table COUNTRY (column_at 0 sample_table))
    by (exists 0%nat; reflexivity).
  assert (Hv : metric_is sample_table IMPORTS (Ints [10; 0; 7]))
    by (exists (column_at 4 sample_table); split;
        [exists 4%nat; reflexivity | reflexivity]).
  assert (Hne : COUNTRY <> IMPORTS) by discriminate.
  assert (Hs : sums_of (column_at 0 sample_table) (Ints [10; 0; 7])
               = Ok [(CStr "China", CInt 7); (CStr "Japan", CInt 10)])
    by (vm_compute; reflexivity).
  split; [repeat split; assumption|].
  exact (top_n_is_bounded_and_sorted sample_table COUNTRY IMPORTS "top" 10
           _ _ _ Hk Hv Hne Hs).
Defined.

Example top_import_partner :
  top_n_summary sample_table COUNTRY IMPORTS 1 = Ok [(CStr "Japan", CInt 10)].
Proof. vm_compute. reflexivity. Qed.




Example balance_on_sample :
  balance_summary sample_table COUNTRY 10
  = Ok [(CStr "Japan", CInt 10, CFloat (51 # 2), CFloat (31 # 2));
        (CStr "China", CInt 7, CFloat 0, CFloat (-7))]%Q.
Proof. vm_compute. reflexivity. Qed.




(** ** The loaded frame is a table *)

Lemma bind_ok_inv {A B} (m : M A) (f : A -> M B) (l : list event) (b : B) :
  bind m f = (l, Ok b) ->
  exists l1 a l2, m = (l1, Ok a) /\ f a = (l2, Ok b) /\ l = (l1 ++ l2)%list.
Proof.
  destruct m as [l1 [a|e|]]; cbn; try discriminate.
  destruct (f a) as [l2 r] eqn:E. intros [= <- ->]. now exists l1, a, l2.
Qed.

Lemma width_le {A} (vals : list (list A)) (r : list A) :
  In r vals -> (List.length r <= width vals)%nat.
Proof.
  induction vals as [|x vals IH]; [contradiction|].
  change (width (x :: vals)) with (Nat.max (List.length x) (width vals)).
  intros [<- | H]; [lia|]. specialize (IH H). lia.
Qed.

Lemma fill_gaps_width (vals : list (list string)) :
  Forall (fun r => List.length r = width vals) (fill_gaps vals).
Proof.
  unfold fill_gaps. apply Forall_forall. intros r Hr.
  apply in_map_iff in Hr. destruct Hr as (x & <- & Hx).
  rewrite length_app, repeat_length. pose proof (width_le vals x Hx). lia.
Qed.

Lemma from_records_rectangular (records : list (list string))
    (header : list string) (df : DataFrame) :
  from_records records header = Ok df -> rectangular df.
Proof.
  unfold from_records.
  destruct (forallb _ records) eqn:E.
  - intros [= <-]. unfold rectangular. cbn.
    rewrite forallb_forall in E. apply Forall_forall. intros r Hr.
    apply in_map_iff in Hr. destruct Hr as (x & <- & Hx).
    rewrite length_map. apply Nat.eqb_eq. now apply E.
  - destruct (width records =? List.length header)%nat; discriminate.
Qed.

(** The sheet as gspread returns it always makes a frame, unless it has no
    row at all. *)
Lemma frame_of_filled_values (vals : list (list string)) :
  vals <> [] -> exists df, frame_of_values (fill_gaps vals) = Ok df.
Proof.
  intros Hne. pose proof (fill_gaps_width vals) as H.
  destruct (fill_gaps vals) as [|h rs] eqn:E.
  - apply map_eq_nil in E. contradiction.
  - unfold frame_of_values, from_records.
    inversion H as [|x l Hh Hrs]; subst.
    replace (forallb _ rs) with true; [eauto|].
    symmetry. apply forallb_forall. intros r Hr.
    rewrite Forall_forall in Hrs. apply Nat.eqb_eq. rewrite Hh. now apply Hrs.
Qed.

Lemma coerce_column_rectangular (df df' : DataFrame) (col : string) :
  coerce_column df col = Ok df' -> rectangular df -> rectangular df'.
Proof.
  unfold coerce_column. destruct (has_column df col); [|now intros [= <-]].
  destruct (getitem df col) as [[i cells|]| |]; cbn [obind]; try discriminate.
  destruct (to_numeric_coerce cells) as [s| |]; cbn [obind]; try discriminate.
  intros [= <-] H. unfold rectangular, set_column. cbn [rows columns].
  apply zip_with_Forall with (P := fun r => List.length r = List.length (columns df));
    [|exact H].
  intros a b Ha. now rewrite set_nth_length.
Qed.

Lemma coerce_columns_rectangular (cols : list string) (df df' : DataFrame) :
  coerce_columns cols df = Ok df' -> rectangular df -> rectangular df'.
Proof.
  revert df. induction cols as [|c cols IH]; intros df.
  - now intros [= <-].
  - rewrite coerce_columns_cons.
    destruct (coerce_column df c) as [df1| |] eqn:E; cbn [obind];
      try discriminate.
    intros H Hr. apply (IH df1 H). now apply (coerce_column_rectangular df df1 c).
Qed.

Lemma empty_frame_rectangular : rectangular empty_frame.
Proof. constructor. Qed.

Lemma fetch_frame_rectangular (w : world) (client : handle)
    (l : list event) (df : DataFrame) :
  fetch_frame w client = (l, Ok df) -> rectangular df.
Proof.
  unfold fetch_frame. intros H.
  apply bind_ok_inv in H. destruct H as (l1 & sh & l2 & _ & H & _).
  apply bind_ok_inv in H. destruct H as (l3 & ws & l4 & _ & H & _).
  apply bind_ok_inv in H. destruct H as (l5 & data & l6 & _ & H & _).
  apply bind_ok_inv in H. destruct H as (l7 & df0 & l8 & H0 & H & _).
  apply bind_ok_inv in H. destruct H as (l9 & df1 & l10 & H1 & H & _).
  apply bind_ok_inv in H. destruct H as (l11 & [] & l12 & _ & H & _).
  injection H as _ <-.
  unfold lift in H0, H1. injection H0 as _ H0. injection H1 as _ H1.
  apply (coerce_columns_rectangular numeric_cols df0 df1 H1).
  unfold frame_of_values in H0. destruct data as [|h rs]; [discriminate|].
  now apply (from_records_rectangular rs h).
Qed.

(** X1. Whatever the world answers, the frame the loader returns has one
    cell per column in every record. *)
Theorem loaded_frame_is_rectangular (w : world) (l : list event)
    (df : DataFrame) :
  get_data_from_sheet w = (l, Ok df) -> rectangular df.
Proof.
  unfold get_data_from_sheet, try_except.
  destruct (load_body w) as [l0 [df0|e|]] eqn:E.
  - intros [= _ <-]. revert E. unfold load_body. intros E.
    apply bind_ok_inv in E. destruct E as (l1 & secret & l2 & _ & E & _).
    destruct secret.
    + apply bind_ok_inv in E. destruct E as (l3 & [] & l4 & _ & E & _).
      destruct (service_account w) as [client|e|]; [| |discriminate].
      * apply bind_ok_inv in E. destruct E as (l5 & [] & l6 & _ & E & _).
        now apply (fetch_frame_rectangular w client l6).
      * apply bind_ok_inv in E. destruct E as (l5 & [] & l6 & _ & E & _).
        injection E as _ <-. apply empty_frame_rectangular.
    + apply bind_ok_inv in E. destruct E as (l3 & [] & l4 & _ & E & _).
      apply bind_ok_inv in E. destruct E as (l5 & [] & l6 & _ & E & _).
      apply bind_ok_inv in E. destruct E as (l7 & creds & l8 & _ & E & _).
      apply bind_ok_inv in E. destruct E as (l9 & client & l10 & _ & E & _).
      now apply (fetch_frame_rectangular w client l10).
  - destruct (load_handler_empty e) as (msg & hint & ->).
    intros [= _ <-]. apply empty_frame_rectangular.
  - discriminate.
Qed.

Lemma loaded_frame_is_rectangular_witness :
  get_data_from_sheet (world_up sample_values)
  = (fst (get_data_from_sheet (world_up sample_values)), Ok sample_table)
  /\ rectangular sample_table.
Proof.
  assert (H : get_data_from_sheet (world_up sample_values)
              = (fst (get_data_from_sheet (world_up sample_values)),
                 Ok sample_table)) by (vm_compute; reflexivity).
  split; [exact H|].
  exact (loaded_frame_is_rectangular (world_up sample_values) _ _ H).
Defined.

Example script_without_sheet :
  snd (script None 0 world_no_sheet (Inputs Overview no_criteria))
  = ([st_set_page_config "wide" "แดชบอร์ดข้อมูลการค้า";
      st_title "📊 แดชบอร์ดข้อมูลการค้าระหว่างประเทศ";
      st_write "Debug: Found 'gcp_service_account' secret.";
      st_write "Debug: gspread client created successfully from secrets.";
      remote "open_by_id";
      st_error ("เกิดข้อผิดพลาด: ไม่พบ Spreadsheet ID '" ++ SPREADSHEET_ID
                ++ "' หรือชื่อชีต '" ++ SHEET_NAME ++ "'");
      st_info "โปรดตรวจสอบ SPREADSHEET_ID และ SHEET_NAME ในโค้ด";
      no_data],
     Ok tt).
Proof. vm_compute. reflexivity. Qed.

(** ** Further properties of the pipeline *)

Lemma contains_step_shape (df df1 : DataFrame) (column selected : string) :
  contains_step df column selected = Ok df1 ->
  exists g,
    df1 = mkDF (columns df) (filter g (rows df))
    /\ forall rs,
        contains_step (mkDF (columns df) rs) column selected
        = Ok (mkDF (columns df) (filter g rs)).
Proof.
  unfold contains_step. destruct (truthy selected).
  - unfold contains_mask, getitem, str_contains. cbn [columns].
    destruct (position column (columns df)) as [i|]; [|discriminate].
    destruct (occurrences column (columns df) =? 1)%nat; [|discriminate].
    cbn [obind].
    destruct (Re.compile (strip selected)) as [r| |]; try discriminate.
    cbn [obind]. intros [= <-].
    exists (fun row => Re.search r (chars (astype_str (cell_at i row)))).
    split.
    + unfold column_at. now rewrite !map_map, select_rows_map.
    + intros rs. unfold column_at. cbn [rows].
      now rewrite !map_map, select_rows_map.
  - intros [= <-]. exists (fun _ => true). split.
    + rewrite filter_all by reflexivity. now destruct df.
    + intros rs. now rewrite filter_all by reflexivity.
Qed.

(** X10. Filtering is idempotent: the frame the filter returns passes
    it unchanged. *)
Theorem filter_is_idempotent (df df1 : DataFrame) (c : criteria) :
  filtered_df df c = Ok df1 -> filtered_df df1 c = Ok df1.
Proof.
  unfold filtered_df.
  destruct (contains_step df COUNTRY (selected_country c)) as [f1| |] eqn:E1;
    try discriminate. cbn [obind].
  destruct (contains_step f1 HS_CODE (selected_hs_code c)) as [f2| |] eqn:E2;
    try discriminate. cbn [obind].
  destruct (contains_step f2 ITEM (selected_item c)) as [f3| |] eqn:E3;
    try discriminate. cbn [obind].
  intros E4.
  destruct (contains_step_shape _ _ _ _ E1) as (g1 & -> & H1).
  destruct (contains_step_shape _ _ _ _ E2) as (g2 & -> & H2).
  destruct (contains_step_shape _ _ _ _ E3) as (g3 & -> & H3).
  destruct (contains_step_shape _ _ _ _ E4) as (g4 & -> & H4).
  cbn [columns rows] in *.
  rewrite H1. cbn [obind]. rewrite H2. cbn [obind].
  rewrite H3. cbn [obind]. rewrite H4.
  do 2 f_equal. rewrite !filter_filter. apply filter_ext. intros x.
  destruct (g1 x), (g2 x), (g3 x), (g4 x); reflexivity.
Qed.

Lemma filter_is_idempotent_witness :
  filtered_df sample_table (Criteria "jap" "" "horses|cattle" "")
  = Ok (mkDF (columns sample_table) (firstn 2 (rows sample_table)))
  /\ filtered_df (mkDF (columns sample_table) (firstn 2 (rows sample_table)))
       (Criteria "jap" "" "horses|cattle" "")
     = Ok (mkDF (columns sample_table) (firstn 2 (rows sample_table))).
Proof.
  assert (H : filtered_df sample_table (Criteria "jap" "" "horses|cattle" "")
              = Ok (mkDF (columns sample_table) (firstn 2 (rows sample_table))))
    by (vm_compute; reflexivity).
  split; [exact H|].
  exact (filter_is_idempotent sample_table _ _ H).
Defined.

(** The scenario of the specification: two records of A and one of B. *)
Example scenario_of_the_specification :
  grouped_sums scenario_table COUNTRY Beyond
  = Ok [(CStr "A", CInt 10, CInt 25); (CStr "B", CInt 7, CInt 7)]
  /\ top_n_summary scenario_table COUNTRY IMPORTS 1 = Ok [(CStr "A", CInt 10)]
  /\ balance_summary scenario_table COUNTRY 1
     = Ok [(CStr "A", CInt 10, CInt 25, CInt 15)].
Proof. repeat split; vm_compute; reflexivity. Qed.

(** A pattern that no record matches: the page reports it and draws no
    chart; nothing is raised. *)
Example no_match_on_sample :
  let run := render sample_table
               (Inputs Overview (Criteria "Atlantis" "" "" "")) in
  snd run = Ok tt
  /\ In (st_warning "ไม่พบข้อมูลตามเงื่อนไขที่เลือก กรุณาลองเลือกใหม่.") (fst run)
  /\ filter is_chart (fst run) = [].
Proof. vm_compute. repeat split; auto 10. Qed.

(** ** The loader, run by run *)

Lemma fetch_frame_cases (w : world) (client : handle) :
  (exists sh ws vals df0 df,
      open_by_id w client SPREADSHEET_ID = Ok sh
      /\ worksheet w sh SHEET_NAME = Ok ws
      /\ sheet_values w ws = Ok vals
      /\ frame_of_values (fill_gaps vals) = Ok df0
      /\ coerce_columns numeric_cols df0 = Ok df
      /\ fetch_frame w client
         = ((sheet_requests ++ [st_success "โหลดข้อมูลจาก Google Sheet สำเร็จ!"])%list,
            Ok df))
  \/ (exists e n, fetch_failure w client e
        /\ fetch_frame w client = (firstn n sheet_requests, Raise e))
  \/ (exists n, fetch_frame w client = (firstn n sheet_requests, Beyond)).
Proof.
  unfold fetch_frame, call, lift, get_all_values.
  destruct (open_by_id w client SPREADSHEET_ID) as [sh|e|] eqn:H1; cbn.
  2:{ right; left. exists e, 1%nat. split; [now apply fail_open|reflexivity]. }
  2:{ right; right. now exists 1%nat. }
  destruct (worksheet w sh SHEET_NAME) as [ws|e|] eqn:H2; cbn.
  2:{ right; left. exists e, 2%nat. split; [eapply fail_worksheet; eauto|reflexivity]. }
  2:{ right; right. now exists 2%nat. }
  destruct (sheet_values w ws) as [vals|e|] eqn:H3; cbn.
  2:{ right; left. exists e, 3%nat. split; [eapply fail_values; eauto|reflexivity]. }
  2:{ right; right. now exists 3%nat. }
  destruct (frame_of_values (fill_gaps vals)) as [df0|e|] eqn:H4; cbn.
  2:{ right; left. exists e, 3%nat. split; [eapply fail_frame; eauto|reflexivity]. }
  2:{ right; right. now exists 3%nat. }
  destruct (coerce_columns numeric_cols df0) as [df|e|] eqn:H5; cbn.
  2:{ right; left. exists e, 3%nat. split; [eapply fail_coerce; eauto|reflexivity]. }
  2:{ right; right. now exists 3%nat. }
  left. exists sh, ws, vals, df0, df. repeat split; auto.
Qed.

Lemma requests_firstn (n : nat) :
  requests (firstn n sheet_requests) = firstn n sheet_requests
  /\ errors (firstn n sheet_requests) = []
  /\ successes (firstn n sheet_requests) = []
  /\ filter is_chart (firstn n sheet_requests) = [].
Proof. destruct n as [|[|[|[|n]]]]; repeat split; reflexivity. Qed.

Lemma requests_app (l l' : list event) :
  requests (l ++ l') = (requests l ++ requests l')%list.
Proof. apply filter_app. Qed.

Lemma errors_app (l l' : list event) :
  errors (l ++ l') = (errors l ++ errors l')%list.
Proof. apply filter_app. Qed.

Lemma successes_app (l l' : list event) :
  successes (l ++ l') = (successes l ++ successes l')%list.
Proof. apply filter_app. Qed.

Ltac filters :=
  rewrite ?requests_app, ?errors_app, ?successes_app, ?filter_app;
  repeat match goal with
  | |- context [requests (firstn ?n sheet_requests)] =>
      rewrite (proj1 (requests_firstn n))
  | |- context [errors (firstn ?n sheet_requests)] =>
      rewrite (proj1 (proj2 (requests_firstn n)))
  | |- context [successes (firstn ?n sheet_requests)] =>
      rewrite (proj1 (proj2 (proj2 (requests_firstn n))))
  | |- context [filter is_chart (firstn ?n sheet_requests)] =>
      rewrite (proj2 (proj2 (proj2 (requests_firstn n))))
  end.

Lemma fetch_run (w : world) (client : handle) (pre l' : list event)
    (o : outcome DataFrame) :
  client_ready w client ->
  requests pre = [] -> errors pre = [] -> successes pre = [] ->
  filter is_chart pre = [] ->
  fetch_frame w client = (l', o) ->
  let r := try_except ((pre ++ l')%list, o) load_handler in
  load_run w (fst r) (snd r).
Proof.
  intros Hc Hr He Hs Hch Hf.
  destruct (fetch_frame_cases w client)
    as [(sh & ws & vals & df0 & df & H1 & H2 & H3 & H4 & H5 & E)
       | [(e & n & Hfail & E) | (n & E)]];
    rewrite E in Hf; injection Hf as <- <-; cbn.
  - apply run_loaded with (vals := vals).
    + econstructor; eauto.
    + filters. rewrite Hs. reflexivity.
    + filters. rewrite He. reflexivity.
    + filters. rewrite Hr. reflexivity.
    + filters. rewrite Hch. reflexivity.
  - destruct (load_handler_empty e) as (msg & hint & ->). cbn.
    apply run_failed with (e := e) (msg := msg) (n := n).
    + eapply fail_fetch; eauto.
    + filters. rewrite Hs. reflexivity.
    + filters. rewrite He. reflexivity.
    + filters. rewrite Hr. cbn. now rewrite app_nil_r.
    + intros Hno. now destruct (Hno client).
    + filters. rewrite Hch. reflexivity.
  - apply run_beyond with (n := n).
    + filters. now rewrite Hr.
    + intros Hno. now destruct (Hno client).
    + filters. now rewrite Hch.
Qed.

Lemma load_runs (w : world) :
  load_run w (fst (get_data_from_sheet w)) (snd (get_data_from_sheet w)).
Proof.
  unfold get_data_from_sheet, load_body, lift.
  destruct (secrets_get w "gcp_service_account") as [[|]|e|] eqn:H1;
    cbn [bind fst snd app].
  - destruct (service_account w) as [client|e|] eqn:H2.
    + destruct (fetch_frame w client) as [l' o] eqn:Hf.
      apply (fetch_run w client
               [st_write "Debug: Found 'gcp_service_account' secret.";
                st_write "Debug: gspread client created successfully from secrets."]
               l' o); try reflexivity; auto.
      now apply ready_secret.
    + cbn. apply run_failed with (e := e)
        (msg := "Debug Error: Failed to create gspread client from 'gcp_service_account' secret. Error: " ++ exn_msg e)
        (n := O); try reflexivity.
      now apply fail_service_account.
    + cbn. now apply run_beyond with (n := O); try reflexivity.
  - destruct (import_oauth2client w) as [[]|e|] eqn:H2; cbn.
    2:{ destruct (load_handler_empty e) as (msg & hint & ->). cbn.
        apply run_failed with (e := e) (msg := msg) (n := O); try reflexivity.
        now apply fail_import. }
    2:{ now apply run_beyond with (n := O); try reflexivity. }
    destruct (from_json_keyfile_name w SERVICE_ACCOUNT_FILE SCOPE)
      as [creds|e|] eqn:H3; cbn.
    2:{ destruct (load_handler_empty e) as (msg & hint & ->). cbn.
        apply run_failed with (e := e) (msg := msg) (n := O); try reflexivity.
        now apply fail_keyfile. }
    2:{ now apply run_beyond with (n := O); try reflexivity. }
    destruct (authorize w creds) as [client|e|] eqn:H4; cbn.
    2:{ destruct (load_handler_empty e) as (msg & hint & ->). cbn.
        apply run_failed with (e := e) (msg := msg) (n := O); try reflexivity.
        eapply fail_authorize; eauto. }
    2:{ now apply run_beyond with (n := O); try reflexivity. }
    destruct (fetch_frame w client) as [l' o] eqn:Hf.
    apply (fetch_run w client
             [st_write "Debug: 'gcp_service_account' secret not found, falling back to local file."]
             l' o); try reflexivity; auto.
    eapply ready_keyfile; eauto.
  - cbn. destruct (load_handler_empty e) as (msg & hint & ->). cbn.
    apply run_failed with (e := e) (msg := msg) (n := O); try reflexivity.
    now apply fail_secrets.
  - cbn. now apply run_beyond with (n := O); try reflexivity.
Qed.

Lemma loads_run (w : world) (vals : list (list string)) (df : DataFrame) :
  loads w vals df ->
  exists pre,
    get_data_from_sheet w
    = ((pre ++ sheet_requests ++ [success_event])%list, Ok df).
Proof.
  intros [client sh ws df0 Hc H1 H2 H3 H4 H5].
  assert (Hf : fetch_frame w client
               = ((sheet_requests ++ [success_event])%list, Ok df)).
  { unfold fetch_frame, call, lift, get_all_values. answers. reflexivity. }
  unfold get_data_from_sheet, load_body, lift.
  destruct Hc as [cl Ha Hb | creds cl Ha Hb Hc Hd]; answers.
  - now exists [st_write "Debug: Found 'gcp_service_account' secret.";
                st_write "Debug: gspread client created successfully from secrets."].
  - now exists [st_write "Debug: 'gcp_service_account' secret not found, falling back to local file."].
Qed.

(** X2. Every run of the loader that returns reports either a success or
    an error, never both: with the success message comes the frame read
    from the sheet and no error; with the error message, the only one,
    comes the empty frame. *)
Theorem load_reports_success_or_error (w : world) (l : list event)
    (df : DataFrame) :
  get_data_from_sheet w = (l, Ok df) ->
  (successes l = [success_event] /\ errors l = []
   /\ exists vals, loads w vals df)
  \/ (successes l = [] /\ (exists msg, errors l = [st_error msg])
      /\ df = empty_frame /\ exists e, load_failure w e).
Proof.
  intros H. pose proof (load_runs w) as Hrun. rewrite H in Hrun. cbn in Hrun.
  inversion Hrun; subst.
  - left. eauto.
  - right. eauto 6.
Qed.

Lemma load_reports_success_or_error_witness :
  get_data_from_sheet (world_up sample_values)
  = (fst (get_data_from_sheet (world_up sample_values)), Ok sample_table)
  /\ ((successes (fst (get_data_from_sheet (world_up sample_values)))
       = [success_event]
       /\ errors (fst (get_data_from_sheet (world_up sample_values))) = []
       /\ exists vals, loads (world_up sample_values) vals sample_table)
      \/ (successes (fst (get_data_from_sheet (world_up sample_values))) = []
          /\ (exists msg,
                 errors (fst (get_data_from_sheet (world_up sample_values)))
                 = [st_error msg])
          /\ sample_table = empty_frame
          /\ exists e, load_failure (world_up sample_values) e)).
Proof.
  assert (H : get_data_from_sheet (world_up sample_values)
              = (fst (get_data_from_sheet (world_up sample_values)),
                 Ok sample_table)) by (vm_compute; reflexivity).
  split; [exact H|].
  exact (load_reports_success_or_error (world_up sample_values) _ _ H).
Defined.

(** X3. The loader asks the remote service at most three things, each once
    and in this order: open the spreadsheet, select the worksheet, read
    the values.  It asks nothing when it obtained no client, and all three
    when it returns a frame that is not empty. *)
Theorem load_requests_once_in_order (w : world) :
  snd (get_data_from_sheet w) <> Beyond ->
  exists n,
    requests (fst (get_data_from_sheet w)) = firstn n sheet_requests
    /\ ((forall client, ~ client_ready w client) -> n = O)
    /\ (forall df, snd (get_data_from_sheet w) = Ok df ->
          df_empty df = false -> n = 3%nat).
Proof.
  intros _. pose proof (load_runs w) as Hrun.
  destruct (get_data_from_sheet w) as [l o]. cbn in *.
  inversion Hrun as [vals df l' L Hs He Hr | e l' msg n Hf Hs He Hr Hn
                    | l' n Hr Hn]; subst.
  - exists 3%nat. split; [exact Hr|]. split; [|reflexivity].
    intros Hno. destruct L as [client sh ws df0 Hc _ _ _ _ _].
    now destruct (Hno client).
  - exists n. split; [exact Hr|]. split; [exact Hn|].
    intros df [= <-]. discriminate.
  - exists n. split; [exact Hr|]. split; [exact Hn|]. discriminate.
Qed.

Lemma load_requests_once_in_order_witness :
  snd (get_data_from_sheet world_no_sheet) <> Beyond
  /\ exists n,
      requests (fst (get_data_from_sheet world_no_sheet))
      = firstn n sheet_requests
      /\ ((forall client, ~ client_ready world_no_sheet client) -> n = O)
      /\ (forall df, snd (get_data_from_sheet world_no_sheet) = Ok df ->
            df_empty df = false -> n = 3%nat).
Proof.
  assert (H : snd (get_data_from_sheet world_no_sheet) <> Beyond)
    by (vm_compute; discriminate).
  split; [exact H|].
  exact (load_requests_once_in_order world_no_sheet H).
Defined.

(** X4. A tab name that the spreadsheet does not have.  gspread raises
    [WorksheetNotFound], which is no [SpreadsheetNotFound]: the failure is
    reported by the last clause, with the text of the exception, and the
    hint to check SPREADSHEET_ID and SHEET_NAME is not shown, though the
    message of the first clause names the sheet. *)
Theorem missing_worksheet_is_reported_by_the_last_clause (w : world)
    (client sh : handle) (msg : string) :
  client_ready w client ->
  open_by_id w client SPREADSHEET_ID = Ok sh ->
  worksheet w sh SHEET_NAME = Raise (Exn WorksheetNotFound msg) ->
  exists l,
    get_data_from_sheet w = (l, Ok empty_frame)
    /\ errors l = [st_error ("เกิดข้อผิดพลาดในการดึงข้อมูล: " ++ msg)]
    /\ ~ In (st_info "โปรดตรวจสอบ SPREADSHEET_ID และ SHEET_NAME ในโค้ด") l
    /\ requests l = [remote "open_by_id"; remote "worksheet"].
Proof.
  intros Hc H1 H2.
  assert (Hf : fetch_frame w client
               = ([remote "open_by_id"; remote "worksheet"],
                  Raise (Exn WorksheetNotFound msg))).
  { unfold fetch_frame, call, lift. now answers. }
  unfold get_data_from_sheet, load_body, lift.
  destruct Hc as [cl Ha Hb | creds cl Ha Hb Hc Hd]; answers;
    (eexists; split; [reflexivity|]; split; [reflexivity|];
     split; [|reflexivity]);
    cbn; intuition discriminate.
Qed.

Lemma missing_worksheet_is_reported_by_the_last_clause_witness :
  (client_ready world_no_tab 1%nat
   /\ open_by_id world_no_tab 1%nat SPREADSHEET_ID = Ok 4%nat
   /\ worksheet world_no_tab 4%nat SHEET_NAME
      = Raise (Exn WorksheetNotFound "TradeData"))
  /\ exists l,
      get_data_from_sheet world_no_tab = (l, Ok empty_frame)
      /\ errors l = [st_error ("เกิดข้อผิดพลาดในการดึงข้อมูล: " ++ "TradeData")]
      /\ ~ In (st_info "โปรดตรวจสอบ SPREADSHEET_ID และ SHEET_NAME ในโค้ด") l
      /\ requests l = [remote "open_by_id"; remote "worksheet"].
Proof.
  assert (Hc : client_ready world_no_tab 1%nat) by (now apply ready_secret).
  split; [repeat split; [exact Hc]|].
  exact (missing_worksheet_is_reported_by_the_last_clause world_no_tab
           1%nat 4%nat "TradeData" Hc eq_refl eq_refl).
Defined.

(** *** What a load that succeeds returns *)

Lemma fillna0_numbers (s : series) :
  Forall (fun c => is_number c = true) (fillna0 s).
Proof. destruct s; cbn; apply Forall_map, Forall_forall; reflexivity. Qed.

Lemma to_numeric_coerce_length (cells : list cell) (s : series) :
  to_numeric_coerce cells = Ok s ->
  List.length (fillna0 s) = List.length cells.
Proof.
  unfold to_numeric_coerce.
  destruct (existsb is_POut (map parse_cell cells)); [discriminate|].
  destruct (forallb is_PInt (map parse_cell cells));
    [intros [= <-]; cbn; now rewrite !length_map|].
  destruct (forallb float_ok (map parse_cell cells)); [|discriminate].
  intros [= <-]; cbn; now rewrite !length_map.
Qed.

(** What one pass of the loop did when it ended normally. *)
Lemma coerce_column_inv (df df' : DataFrame) (col : string) :
  coerce_column df col = Ok df' ->
  (position col (columns df) = None /\ df' = df)
  \/ (exists i s,
        position col (columns df) = Some i
        /\ occurrences col (columns df) = 1%nat
        /\ to_numeric_coerce (column_at i df) = Ok s
        /\ df' = set_column i (fillna0 s) df).
Proof.
  unfold coerce_column, getitem.
  destruct (has_column df col) eqn:Hhas.
  - apply has_column_position in Hhas. destruct Hhas as [i Hi]. rewrite Hi.
    destruct (occurrences col (columns df) =? 1)%nat eqn:Hocc; cbn [obind];
      [|discriminate].
    destruct (to_numeric_coerce (column_at i df)) as [s| |] eqn:Hs;
      cbn [obind]; try discriminate.
    intros [= <-]. right. exists i, s. apply Nat.eqb_eq in Hocc. auto.
  - intros [= <-]. left. split; [|reflexivity].
    destruct (position col (columns df)) as [i|] eqn:Hi; [|reflexivity].
    assert (has_column df col = true) by (apply has_column_position; eauto).
    congruence.
Qed.

Lemma set_column_cells (i : nat) (values : list cell) (df : DataFrame) :
  List.length values = List.length (rows df) ->
  columns (set_column i values df) = columns df
  /\ List.length (rows (set_column i values df)) = List.length (rows df)
  /\ (rectangular df -> rectangular (set_column i values df))
  /\ (forall j r, j <> i ->
        cell_at j (record r (set_column i values df))
        = cell_at j (record r df))
  /\ (forall r, (r < List.length (rows df))%nat ->
        (i < List.length (record r df))%nat ->
        cell_at i (record r (set_column i values df))
        = nth r values (CStr "")).
Proof.
  intros Hlen. split; [reflexivity|]. split; [|split; [|split]].
  - unfold set_column. cbn [rows]. now apply zip_with_length.
  - intros Hrect. unfold rectangular, set_column. cbn [rows columns].
    apply zip_with_Forall
      with (P := fun r => List.length r = List.length (columns df)).
    + intros a b Ha. now rewrite set_nth_length.
    + exact Hrect.
  - intros j r Hj.
    destruct (Nat.lt_ge_cases r (List.length (rows df))) as [Hr | Hr].
    + unfold record, set_column. cbn [rows].
      rewrite (nth_zip_with _ _ _ r [] (CStr "") []) by assumption.
      now apply cell_at_set_nth_other.
    + rewrite !record_beyond; [reflexivity|exact Hr|].
      unfold set_column. cbn [rows]. rewrite zip_with_length; assumption.
  - intros r Hr Hi. unfold record, set_column in *. cbn [rows].
    rewrite (nth_zip_with _ _ _ r [] (CStr "") []) by assumption.
    now apply cell_at_set_nth_same.
Qed.

Lemma rectangular_record (df : DataFrame) (r : nat) :
  rectangular df -> (r < List.length (rows df))%nat ->
  List.length (record r df) = List.length (columns df).
Proof.
  intros Hrect Hr. unfold rectangular in Hrect. rewrite Forall_forall in Hrect.
  apply Hrect. now apply nth_In.
Qed.

Lemma coerce_column_ok (df df' : DataFrame) (col : string) :
  coerce_column df col = Ok df' -> rectangular df ->
  columns df' = columns df
  /\ List.length (rows df') = List.length (rows df)
  /\ rectangular df'
  /\ (forall j r, position col (columns df) <> Some j ->
        cell_at j (record r df') = cell_at j (record r df))
  /\ (forall i, position col (columns df) = Some i ->
        occurrences col (columns df) = 1%nat /\ numbers_at i df').
Proof.
  intros H Hrect.
  destruct (coerce_column_inv _ _ _ H) as [[Hp ->] | (i & s & Hp & Hocc & Hs & ->)].
  - repeat split; auto; congruence.
  - pose proof (to_numeric_coerce_length _ _ Hs) as Hlen.
    unfold column_at in Hlen. rewrite length_map in Hlen.
    destruct (set_column_cells i (fillna0 s) df Hlen)
      as (H1 & H2 & H3 & H4 & H5).
    split; [exact H1|]. split; [exact H2|]. split; [auto|]. split.
    + intros j r Hj. apply H4. congruence.
    + intros i' Hp'. assert (i' = i) by congruence. subst i'.
      split; [exact Hocc|].
      intros r Hr. rewrite H2 in Hr. rewrite H5; auto.
      * pose proof (fillna0_numbers s) as Hn. rewrite Forall_forall in Hn.
        apply Hn. apply nth_In. now rewrite Hlen.
      * rewrite rectangular_record by assumption.
        now apply position_lt with (name := col).
Qed.

Lemma coerce_columns_ok (cols : list string) (df df' : DataFrame) :
  coerce_columns cols df = Ok df' -> rectangular df ->
  columns df' = columns df
  /\ List.length (rows df') = List.length (rows df)
  /\ rectangular df'
  /\ (forall j r,
        (forall col, In col cols -> position col (columns df) <> Some j) ->
        cell_at j (record r df') = cell_at j (record r df))
  /\ (forall col i, In col cols -> position col (columns df) = Some i ->
        occurrences col (columns df) = 1%nat /\ numbers_at i df')
  /\ (forall i, numbers_at i df -> numbers_at i df').
Proof.
  revert df. induction cols as [|c cols IH]; intros df H Hrect.
  - cbn in H. injection H as <-.
    split; [reflexivity|]. split; [reflexivity|]. split; [exact Hrect|].
    split; [reflexivity|]. split; [intros ? ? []|auto].
  - rewrite coerce_columns_cons in H.
    destruct (coerce_column df c) as [df1| |] eqn:H1; try discriminate.
    cbn [obind] in H.
    destruct (coerce_column_ok _ _ _ H1 Hrect) as (A1 & A2 & A3 & A4 & A5).
    destruct (IH df1 H A3) as (B1 & B2 & B3 & B4 & B5 & B6).
    assert (Hkeep : forall i, numbers_at i df -> numbers_at i df1).
    { intros i Hn r Hr.
      assert (Hdec : position c (columns df) = Some i
                     \/ position c (columns df) <> Some i).
      { destruct (position c (columns df)) as [k|]; [|right; discriminate].
        destruct (Nat.eq_dec k i) as [->|]; [now left|right; congruence]. }
      destruct Hdec as [Hp | Hp].
      - now apply (proj2 (A5 i Hp)).
      - rewrite A4 by exact Hp. apply Hn. now rewrite <- A2. }
    split; [congruence|]. split; [congruence|]. split; [exact B3|].
    split; [|split].
    + intros j r Hj. rewrite B4.
      * apply A4. apply Hj. now left.
      * intros col Hin. rewrite A1. apply Hj. now right.
    + intros col i [<- | Hin] Hp.
      * destruct (A5 i Hp) as [Hocc Hn]. split; [exact Hocc|]. now apply B6.
      * rewrite <- A1 in Hp. destruct (B5 col i Hin Hp) as [Hocc Hn].
        split; [now rewrite <- A1|exact Hn].
    + intros i Hn. apply B6. now apply Hkeep.
Qed.

(** A column the loop has passed over is what [fillna(0)] returned. *)
Lemma coerce_column_series (df df' : DataFrame) (col : string) (i : nat) :
  coerce_column df col = Ok df' -> rectangular df ->
  position col (columns df) = Some i ->
  exists s, column_at i df' = fillna0 s.
Proof.
  intros H Hrect Hp.
  destruct (coerce_column_inv _ _ _ H)
    as [[Hp' ->] | (i' & s & Hp' & Hocc & Hs & ->)]; [congruence|].
  assert (i' = i) by congruence. subst i'. exists s.
  pose proof (to_numeric_coerce_length _ _ Hs) as Hlen.
  unfold column_at in Hlen. rewrite length_map in Hlen.
  destruct (set_column_cells i (fillna0 s) df Hlen) as (_ & H2 & _ & _ & H5).
  unfold column_at.
  apply (nth_ext _ _ (CStr "") (CStr "")); [now rewrite length_map, H2|].
  intros r Hr. rewrite length_map, H2 in Hr.
  rewrite (nth_map_lt (cell_at i) _ r []) by now rewrite H2.
  apply H5; [exact Hr|].
  rewrite rectangular_record by assumption.
  now apply position_lt with (name := col).
Qed.

Lemma coerce_columns_series (cols : list string) (df df' : DataFrame)
    (col : string) (i : nat) :
  coerce_columns cols df = Ok df' -> rectangular df ->
  In col cols -> position col (columns df) = Some i ->
  exists s, column_at i df' = fillna0 s.
Proof.
  revert df. induction cols as [|c cols IH]; intros df H Hrect Hin Hp;
    [contradiction|].
  rewrite coerce_columns_cons in H.
  destruct (coerce_column df c) as [df1| |] eqn:H1; try discriminate.
  cbn [obind] in H.
  destruct (coerce_column_ok _ _ _ H1 Hrect) as (A1 & A2 & A3 & A4 & A5).
  destruct (in_dec string_dec col cols) as [Hlater | Hlast].
  - apply (IH df1 H A3 Hlater). now rewrite A1.
  - destruct Hin as [<- | Hin]; [|contradiction].
    destruct (coerce_column_series _ _ _ _ H1 Hrect Hp) as [s Hs].
    exists s. rewrite <- Hs.
    destruct (coerce_columns_ok _ _ _ H A3) as (B1 & B2 & B3 & B4 & _).
    apply column_at_ext; [exact B2|]. intros r. apply B4.
    intros col Hcol Hp'. rewrite A1 in Hp'.
    apply Hlast. now rewrite (position_inj c col _ i Hp Hp').
Qed.

Lemma width_header (header : list string) (records : list (list string)) :
  Forall (fun r => List.length r <= List.length header)%nat records ->
  width (header :: records) = List.length header.
Proof.
  intros H.
  change (width (header :: records))
    with (Nat.max (List.length header) (width records)).
  enough (width records <= List.length header)%nat by lia.
  induction H as [|r rs Hr _ IH]; [apply Nat.le_0_l|].
  change (width (r :: rs)) with (Nat.max (List.length r) (width rs)). lia.
Qed.

Lemma nth_filled (r : list string) (k j : nat) :
  nth j (r ++ repeat "" k) "" = nth j r "".
Proof.
  destruct (Nat.lt_ge_cases j (List.length r)) as [H | H].
  - now apply app_nth1.
  - rewrite app_nth2 by exact H. rewrite (nth_overflow r) by exact H.
    destruct (Nat.lt_ge_cases (j - List.length r) k) as [H' | H'].
    + now apply nth_repeat_lt.
    + apply nth_overflow. now rewrite repeat_length.
Qed.

Lemma cell_at_text (rs : list (list string)) (j r : nat) :
  cell_at j (nth r (map (map CStr) rs) []) = CStr (nth j (nth r rs []) "").
Proof.
  change (@nil cell) with (map CStr []). rewrite (map_nth (map CStr)).
  unfold cell_at. apply (map_nth CStr).
Qed.

(** The frame built from a sheet whose records are no wider than its
    header. *)
Lemma frame_of_sheet (header : list string) (records : list (list string)) :
  Forall (fun r => List.length r <= List.length header)%nat records ->
  exists df0,
    frame_of_values (fill_gaps (header :: records)) = Ok df0
    /\ columns df0 = header
    /\ List.length (rows df0) = List.length records
    /\ rectangular df0
    /\ forall j r,
        cell_at j (record r df0) = CStr (nth j (nth r records []) "").
Proof.
  intros Hw. pose proof (width_header header records Hw) as Hwidth.
  pose proof (fill_gaps_width (header :: records)) as Hfill.
  unfold fill_gaps in *. cbn [map] in *. rewrite Hwidth in *.
  rewrite Nat.sub_diag in *. cbn [repeat] in *. rewrite app_nil_r in *.
  inversion Hfill as [|x l _ Hrs]; subst. clear Hfill.
  unfold frame_of_values, from_records.
  replace (forallb _ _) with true.
  2:{ symmetry. apply forallb_forall. intros r Hr.
      rewrite Forall_forall in Hrs. apply Nat.eqb_eq. now apply Hrs. }
  eexists. split; [reflexivity|]. cbn [columns rows].
  split; [reflexivity|]. split; [now rewrite !length_map|]. split.
  - unfold rectangular. cbn [columns rows]. apply Forall_map.
    eapply Forall_impl; [|exact Hrs]. intros r Hr. now rewrite length_map.
  - intros j r. unfold record. cbn [rows]. rewrite cell_at_text. f_equal.
    destruct (Nat.lt_ge_cases r (List.length records)) as [H | H].
    + rewrite (nth_map_lt _ records r [] []) by exact H. apply nth_filled.
    + rewrite (nth_overflow (map _ records)) by now rewrite length_map.
      now rewrite (nth_overflow records) by exact H.
Qed.

Lemma forallb_map_inv {A B} (f : A -> B) (p : B -> bool) (l : list A) :
  forallb p (map f l) = true -> Forall (fun x => p (f x) = true) l.
Proof.
  intros H. rewrite forallb_forall in H. apply Forall_forall.
  intros x Hx. apply H. now apply in_map.
Qed.

(** A column the coercion accepts holds numerals of the model. *)
Lemma to_numeric_coerce_modelled (cells : list cell) (s : series) :
  to_numeric_coerce cells = Ok s -> modelled cells.
Proof.
  unfold to_numeric_coerce, modelled.
  destruct (existsb is_POut (map parse_cell cells)) eqn:E; [discriminate|].
  intros H. split.
  - apply Forall_forall. intros c Hc Hout.
    assert (existsb is_POut (map parse_cell cells) = true); [|congruence].
    apply existsb_exists. exists (parse_cell c). split; [now apply in_map|].
    now rewrite Hout.
  - destruct (forallb is_PInt (map parse_cell cells)) eqn:Ei.
    + left. now apply forallb_map_inv.
    + destruct (forallb float_ok (map parse_cell cells)) eqn:Ef;
        [|discriminate].
      right. now apply forallb_map_inv.
Qed.

Lemma to_numeric_coerce_values (cells : list cell) (s : series) (r : nat) :
  to_numeric_coerce cells = Ok s -> (r < List.length cells)%nat ->
  cell_num (nth r (fillna0 s) (CStr ""))
  = Some (parsed_value (parse_cell (nth r cells (CStr "")))).
Proof.
  intros Hs Hr.
  destruct (to_numeric_coerce_cells cells (to_numeric_coerce_modelled _ _ Hs))
    as (s' & Hs' & _ & Hval).
  assert (s' = s) by congruence. subst s'. now apply Hval.
Qed.

Lemma coerce_column_values (df df' : DataFrame) (col : string) (i r : nat) :
  coerce_column df col = Ok df' -> rectangular df ->
  position col (columns df) = Some i -> (r < List.length (rows df))%nat ->
  cell_num (cell_at i (record r df'))
  = Some (parsed_value (parse_cell (cell_at i (record r df)))).
Proof.
  intros H Hrect Hp Hr.
  destruct (coerce_column_inv _ _ _ H)
    as [[Hp' ->] | (i' & s & Hp' & Hocc & Hs & ->)]; [congruence|].
  assert (i' = i) by congruence. subst i'.
  pose proof (to_numeric_coerce_length _ _ Hs) as Hlen.
  unfold column_at in Hlen. rewrite length_map in Hlen.
  destruct (set_column_cells i (fillna0 s) df Hlen) as (_ & _ & _ & _ & H5).
  rewrite H5; auto.
  - rewrite (to_numeric_coerce_values _ _ r Hs)
      by (unfold column_at; now rewrite length_map).
    unfold column_at. now rewrite (nth_map_lt (cell_at i) (rows df) r []).
  - rewrite rectangular_record by assumption.
    now apply position_lt with (name := col).
Qed.

Lemma coerce_columns_values (cols : list string) (df df' : DataFrame)
    (col : string) (i r : nat) :
  NoDup cols -> coerce_columns cols df = Ok df' -> rectangular df ->
  In col cols -> position col (columns df) = Some i ->
  (r < List.length (rows df))%nat ->
  cell_num (cell_at i (record r df'))
  = Some (parsed_value (parse_cell (cell_at i (record r df)))).
Proof.
  intros Hnd. revert df.
  induction Hnd as [|c cols Hc Hnd IH]; intros df H Hrect Hin Hp Hr;
    [contradiction|].
  rewrite coerce_columns_cons in H.
  destruct (coerce_column df c) as [df1| |] eqn:H1; try discriminate.
  cbn [obind] in H.
  destruct (coerce_column_ok _ _ _ H1 Hrect) as (A1 & A2 & A3 & A4 & A5).
  destruct (coerce_columns_ok _ _ _ H A3) as (B1 & B2 & B3 & B4 & B5 & B6).
  destruct Hin as [<- | Hin].
  - rewrite B4.
    + now apply (coerce_column_values df df1 c).
    + intros col Hcol Hp'. rewrite A1 in Hp'.
      apply Hc. now rewrite (position_inj c col _ i Hp Hp').
  - rewrite (IH df1 H A3 Hin); [| now rewrite A1 | now rewrite A2].
    rewrite A4; [reflexivity|].
    intros Hp'. apply Hc. now rewrite (position_inj c col _ i Hp' Hp).
Qed.

Lemma sample_values_loads :
  loads (world_up sample_values) sample_values sample_table.
Proof.
  apply loads_intro with (client := 1%nat) (sh := 4%nat) (ws := 5%nat)
    (df0 := sample_raw); try reflexivity.
  now apply ready_secret.
Defined.

(** X5. A load that succeeds returns the sheet: the header row names the
    columns, every further row is a record, text passes through as it is
    (a row shorter than the header is filled with empty text) and the
    cells of the numeric columns hold the number parsed, 0 for what does
    not parse. *)
Theorem loaded_frame_keeps_the_sheet (w : world) (header : list string)
    (records : list (list string)) (df : DataFrame) :
  loads w (header :: records) df ->
  Forall (fun r => List.length r <= List.length header)%nat records ->
  columns df = header
  /\ df_len df = List.length records
  /\ (forall j r,
        (forall col, In col numeric_cols -> position col header <> Some j) ->
        cell_at j (record r df) = CStr (nth j (nth r records []) ""))
  /\ (forall col i r,
        In col numeric_cols -> position col header = Some i ->
        (r < List.length records)%nat ->
        cell_num (cell_at i (record r df))
        = Some (parsed_value (parse_numeric (nth i (nth r records []) "")))).
Proof.
  intros [client sh ws df0 Hc H1 H2 H3 H4 H5] Hw.
  destruct (frame_of_sheet header records Hw) as (df0' & F1 & F2 & F3 & F4 & F5).
  assert (df0' = df0) by congruence. subst df0'.
  destruct (coerce_columns_ok _ _ _ H5 F4) as (B1 & B2 & B3 & B4 & B5 & B6).
  split; [congruence|]. split; [unfold df_len; congruence|]. split.
  - intros j r Hj. rewrite B4; [apply F5|]. now rewrite F2.
  - intros col i r Hin Hp Hr.
    rewrite (coerce_columns_values numeric_cols df0 df col i r);
      auto using numeric_cols_NoDup; try congruence.
    now rewrite F5.
Qed.

Lemma loaded_frame_keeps_the_sheet_witness :
  (loads (world_up sample_values) (hd [] sample_values :: tl sample_values)
     sample_table
   /\ Forall (fun r => List.length r <= List.length (hd [] sample_values))%nat
        (tl sample_values))
  /\ columns sample_table = hd [] sample_values
  /\ df_len sample_table = List.length (tl sample_values)
  /\ (forall j r,
        (forall col, In col numeric_cols ->
           position col (hd [] sample_values) <> Some j) ->
        cell_at j (record r sample_table)
        = CStr (nth j (nth r (tl sample_values) []) ""))
  /\ (forall col i r,
        In col numeric_cols -> position col (hd [] sample_values) = Some i ->
        (r < List.length (tl sample_values))%nat ->
        cell_num (cell_at i (record r sample_table))
        = Some (parsed_value
                  (parse_numeric (nth i (nth r (tl sample_values) []) "")))).
Proof.
  assert (Hw : Forall (fun r => List.length r
                                <= List.length (hd [] sample_values))%nat
                 (tl sample_values)) by (repeat constructor).
  split; [split; [exact sample_values_loads|exact Hw]|].
  exact (loaded_frame_keeps_the_sheet (world_up sample_values)
           (hd [] sample_values) (tl sample_values) sample_table
           sample_values_loads Hw).
Defined.

(** What [fillna(0)] returns holds numbers of one dtype. *)
Lemma fillna0_values (s : series) :
  exists ns, numeric_values (fillna0 s) = Numbers ns.
Proof.
  unfold numeric_values. destruct s as [zs|qs]; cbn [fillna0].
  - assert (H1 : existsb is_text (map CInt zs) = false)
      by (induction zs; cbn; auto).
    assert (H2 : forallb is_int (map CInt zs) = true)
      by (induction zs; cbn; auto).
    rewrite H1, H2. eauto.
  - set (f := fun v : option Q =>
                CFloat match v with Some q => q | None => 0%Q end).
    assert (H1 : existsb is_text (map f qs) = false)
      by (induction qs; cbn; auto).
    assert (H3 : forallb is_float (map f qs) = true)
      by (induction qs; cbn; auto).
    rewrite H1, H3. destruct (forallb is_int (map f qs)); eauto.
Qed.

Lemma frame_of_values_rectangular (data : list (list string))
    (df : DataFrame) :
  frame_of_values data = Ok df -> rectangular df.
Proof.
  unfold frame_of_values. destruct data as [|header records]; [discriminate|].
  apply from_records_rectangular.
Qed.

(** What the coercion loop leaves in a numeric column. *)
Lemma coerced_metric (df0 df : DataFrame) (col : string) :
  coerce_columns numeric_cols df0 = Ok df -> rectangular df0 ->
  In col numeric_cols -> has_column df col = true ->
  exists i s vs,
    getitem df col = Ok (ItemSeries i (fillna0 s))
    /\ numeric_values (fillna0 s) = Numbers vs.
Proof.
  intros H Hrect Hin Hhas.
  destruct (coerce_columns_ok _ _ _ H Hrect) as (B1 & B2 & B3 & B4 & B5 & B6).
  apply has_column_position in Hhas. destruct Hhas as [i Hp].
  rewrite B1 in Hp. destruct (B5 col i Hin Hp) as [Hocc Hn].
  destruct (coerce_columns_series _ _ _ col i H Hrect Hin Hp) as [s Hs].
  destruct (fillna0_values s) as [vs Hvs].
  exists i, s, vs. rewrite <- Hs. split; [|now rewrite Hs].
  unfold getitem. rewrite B1, Hp, Hocc. reflexivity.
Qed.

Lemma loaded_series (w : world) (l : list event) (df : DataFrame)
    (col : string) :
  get_data_from_sheet w = (l, Ok df) ->
  In col numeric_cols -> has_column df col = true ->
  (errors l = [] /\ filter is_chart l = [])
  /\ exists i s vs,
      getitem df col = Ok (ItemSeries i (fillna0 s))
      /\ numeric_values (fillna0 s) = Numbers vs.
Proof.
  intros H Hin Hhas.
  pose proof (load_runs w) as Hrun. rewrite H in Hrun. cbn in Hrun.
  inversion Hrun as [vals df' l' L Hs He Hr Hch
                    | e l' msg n Hfail Hs He Hr Hn Hch| ]; subst.
  - split; [now split|].
    destruct L as [client sh ws df0 Hc H1 H2 H3 H4 H5].
    apply (coerced_metric df0 df col H5); auto.
    now apply frame_of_values_rectangular with (data := fill_gaps vals).
  - discriminate Hhas.
Qed.

Lemma loaded_metric (w : world) (l : list event) (df : DataFrame)
    (col : string) :
  get_data_from_sheet w = (l, Ok df) ->
  In col numeric_cols -> has_column df col = true ->
  (errors l = [] /\ filter is_chart l = [])
  /\ exists vs, metric_is df col vs.
Proof.
  intros H Hin Hhas.
  destruct (loaded_series w l df col H Hin Hhas)
    as (Hl & i & s & vs & Hget & Hvs).
  split; [exact Hl|]. exists vs, (fillna0 s). split; [now exists i|exact Hvs].
Qed.

(** X6. After a load that returned, a numeric column the frame has bears
    its name alone and holds numbers only, all of them integers or all of
    them floats, as the series [fillna(0)] returned: the sums of the
    charts never meet text. *)
Theorem loaded_numeric_columns_hold_numbers (w : world) (l : list event)
    (df : DataFrame) (col : string) :
  get_data_from_sheet w = (l, Ok df) ->
  In col numeric_cols -> has_column df col = true ->
  occurrences col (columns df) = 1%nat
  /\ exists cells vs,
      column_is df col cells
      /\ numeric_values cells = Numbers vs
      /\ ((exists zs, cells = map CInt zs)
          \/ (exists qs, cells = map CFloat qs)).
Proof.
  intros H Hin Hhas.
  destruct (loaded_series w l df col H Hin Hhas)
    as (_ & i & s & vs & Hget & Hvs).
  assert (Hocc : occurrences col (columns df) = 1%nat).
  { unfold getitem in Hget.
    destruct (position col (columns df)); [|discriminate].
    destruct (occurrences col (columns df) =? 1)%nat eqn:E; [|discriminate].
    now apply Nat.eqb_eq. }
  split; [exact Hocc|]. exists (fillna0 s), vs.
  split; [now exists i|]. split; [exact Hvs|].
  destruct s as [zs | qs]; cbn [fillna0].
  - left. now exists zs.
  - right. exists (map (fun v => match v with Some q => q | None => 0%Q end) qs).
    now rewrite map_map.
Qed.

Lemma loaded_numeric_columns_hold_numbers_witness :
  (get_data_from_sheet (world_up sample_values)
   = (fst (get_data_from_sheet (world_up sample_values)), Ok sample_table)
   /\ In EXPORTS numeric_cols /\ has_column sample_table EXPORTS = true)
  /\ occurrences EXPORTS (columns sample_table) = 1%nat
  /\ exists cells vs,
      column_is sample_table EXPORTS cells
      /\ numeric_values cells = Numbers vs
      /\ ((exists zs, cells = map CInt zs)
          \/ (exists qs, cells = map CFloat qs)).
Proof.
  assert (H : get_data_from_sheet (world_up sample_values)
              = (fst (get_data_from_sheet (world_up sample_values)),
                 Ok sample_table)) by (vm_compute; reflexivity).
  assert (Hin : In EXPORTS numeric_cols) by (right; now left).
  split; [repeat split; assumption|].
  exact (loaded_numeric_columns_hold_numbers (world_up sample_values) _ _
           EXPORTS H Hin eq_refl).
Defined.

(** X7. A sheet that has a header row and no record: the loader reports a
    success and returns a frame with the header's columns and no record;
    the page then shows the notice that the data could not be loaded,
    whatever the inputs. *)
Theorem header_only_sheet_shows_no_data (w : world) (header : list string)
    (df : DataFrame) :
  loads w [header] df ->
  (exists l, get_data_from_sheet w = (l, Ok df)
             /\ In success_event l /\ errors l = [])
  /\ columns df = header /\ rows df = []
  /\ forall inp, render df inp = ([no_data], Ok tt).
Proof.
  intros L.
  assert (Hshape : columns df = header /\ rows df = []).
  { destruct L as [client sh ws df0 Hc H1 H2 H3 H4 H5].
    destruct (frame_of_sheet header [] (Forall_nil _))
      as (df0' & F1 & F2 & F3 & F4 & _).
    assert (df0' = df0) by congruence. subst df0'.
    destruct (coerce_columns_ok _ _ _ H5 F4) as (B1 & B2 & _).
    split; [congruence|]. apply length_zero_iff_nil. cbn in F3. congruence. }
  destruct Hshape as [Hcols Hrows].
  split; [|split; [exact Hcols|split; [exact Hrows|]]].
  - pose proof (load_runs w) as Hrun.
    destruct (loads_run w _ _ L) as [pre Hl]. rewrite Hl in Hrun. cbn in Hrun.
    eexists. split; [exact Hl|]. split.
    + apply in_or_app. right. apply in_or_app. right. now left.
    + inversion Hrun; subst; auto.
      (* a failed run returns the empty frame and reports an error *)
      all: exfalso.
      all: match goal with H : successes _ = [] |- _ =>
             rewrite !successes_app in H; cbn in H;
             apply app_eq_nil in H; destruct H as [_ H]; discriminate H
           end.
  - intros inp. unfold render, df_empty. rewrite Hrows.
    now destruct (columns df).
Qed.

Lemma header_only_sheet_shows_no_data_witness :
  loads (world_up [[COUNTRY; IMPORTS; EXPORTS]]) [[COUNTRY; IMPORTS; EXPORTS]]
    (mkDF [COUNTRY; IMPORTS; EXPORTS] [])
  /\ (exists l,
         get_data_from_sheet (world_up [[COUNTRY; IMPORTS; EXPORTS]])
         = (l, Ok (mkDF [COUNTRY; IMPORTS; EXPORTS] []))
         /\ In success_event l /\ errors l = [])
  /\ columns (mkDF [COUNTRY; IMPORTS; EXPORTS] []) = [COUNTRY; IMPORTS; EXPORTS]
  /\ rows (mkDF [COUNTRY; IMPORTS; EXPORTS] []) = []
  /\ forall inp,
      render (mkDF [COUNTRY; IMPORTS; EXPORTS] []) inp = ([no_data], Ok tt).
Proof.
  assert (L : loads (world_up [[COUNTRY; IMPORTS; EXPORTS]])
                [[COUNTRY; IMPORTS; EXPORTS]]
                (mkDF [COUNTRY; IMPORTS; EXPORTS] [])).
  { apply loads_intro with (client := 1%nat) (sh := 4%nat) (ws := 5%nat)
      (df0 := mkDF [COUNTRY; IMPORTS; EXPORTS] []); try reflexivity.
    now apply ready_secret. }
  split; [exact L|].
  exact (header_only_sheet_shows_no_data _ _ _ L).
Defined.

(** ** The cache entry and its 300 seconds *)

(** X8. What a call that found no fresh entry returned is served, with the
    elements it showed and without any request, to every call made less
    than 300 seconds later, whatever the world is by then; from 300
    seconds on the entry counts for nothing, and the call runs the loader
    again. *)
Theorem cache_entry_lives_300_seconds (c0 : cache) (t0 now : Z)
    (w w' : world) (l : list event) (df : DataFrame) :
  fresh t0 c0 = None ->
  get_data_from_sheet w = (l, Ok df) ->
  t0 <= now ->
  let c1 := fst (cached_get_data c0 t0 w) in
  (now < t0 + 300 ->
   cached_get_data c1 now w' = (c1, (replayed l, Ok df))
   /\ requests (replayed l) = [])
  /\ (t0 + 300 <= now ->
      cached_get_data c1 now w' = cached_get_data None now w').
Proof.
  intros Hc Hl Hnow. unfold cached_get_data at 1. rewrite Hc, Hl. cbn [fst].
  fold (replayed l). cbv zeta. split.
  - intros Hlt. split; [|apply requests_of_elements].
    now rewrite cached_hit by (cbn; unfold TTL; lia).
  - intros Hge. unfold cached_get_data, fresh. cbn [stored_at].
    replace (now <? t0 + TTL) with false; [reflexivity|].
    symmetry. apply Z.ltb_ge. unfold TTL. lia.
Qed.

Lemma cache_entry_lives_300_seconds_witness :
  (fresh 0 None = None
   /\ get_data_from_sheet (world_up sample_values)
      = (fst (get_data_from_sheet (world_up sample_values)), Ok sample_table)
   /\ 0 <= 299)
  /\ (let c1 := fst (cached_get_data None 0 (world_up sample_values)) in
      (299 < 0 + 300 ->
       cached_get_data c1 299 world_no_sheet
       = (c1, (replayed (fst (get_data_from_sheet (world_up sample_values))),
               Ok sample_table))
       /\ requests (replayed (fst (get_data_from_sheet (world_up sample_values))))
          = [])
      /\ (0 + 300 <= 299 ->
          cached_get_data c1 299 world_no_sheet
          = cached_get_data None 299 world_no_sheet)).
Proof.
  assert (H : get_data_from_sheet (world_up sample_values)
              = (fst (get_data_from_sheet (world_up sample_values)),
                 Ok sample_table)) by (vm_compute; reflexivity).
  assert (Hle : 0 <= 299) by lia.
  split; [repeat split; assumption|].
  exact (cache_entry_lives_300_seconds None 0 299 (world_up sample_values)
           world_no_sheet _ _ eq_refl H Hle).
Defined.

(** ** The filter, whatever the patterns *)

Lemma filtered_df_shape (df f : DataFrame) (c : criteria) :
  filtered_df df c = Ok f ->
  exists keep, f = mkDF (columns df) (filter keep (rows df)).
Proof.
  unfold filtered_df.
  destruct (contains_step df COUNTRY (selected_country c)) as [f1| |] eqn:E1;
    try discriminate. cbn [obind].
  destruct (contains_step f1 HS_CODE (selected_hs_code c)) as [f2| |] eqn:E2;
    try discriminate. cbn [obind].
  destruct (contains_step f2 ITEM (selected_item c)) as [f3| |] eqn:E3;
    try discriminate. cbn [obind].
  intros E4.
  destruct (contains_step_shape _ _ _ _ E1) as (g1 & -> & _).
  destruct (contains_step_shape _ _ _ _ E2) as (g2 & -> & _).
  destruct (contains_step_shape _ _ _ _ E3) as (g3 & -> & _).
  destruct (contains_step_shape _ _ _ _ E4) as (g4 & -> & _).
  cbn [columns rows]. rewrite !filter_filter. eauto.
Qed.

Lemma filter_length_le {A} (g : A -> bool) (l : list A) :
  (List.length (filter g l) <= List.length l)%nat.
Proof. induction l as [|x l IH]; cbn; [lia|]. destruct (g x); cbn; lia. Qed.

(** X11. Whatever the four inputs hold, patterns with special characters
    included, a filter that returns a frame has only removed records: the
    columns are those of the input, and the records are the ones of the
    input that some test keeps, in the order they had. *)
Theorem filter_only_removes_records (df f : DataFrame) (c : criteria) :
  filtered_df df c = Ok f ->
  columns f = columns df
  /\ (exists keep, rows f = filter keep (rows df))
  /\ (df_len f <= df_len df)%nat
  /\ (rectangular df -> rectangular f).
Proof.
  intros H. destruct (filtered_df_shape df f c H) as [keep ->].
  cbn [columns rows]. split; [reflexivity|]. split; [eauto|]. split.
  - apply filter_length_le.
  - unfold rectangular. cbn [columns rows]. intros Hrect.
    apply Forall_forall. intros r Hr. apply filter_In in Hr.
    rewrite Forall_forall in Hrect. now apply Hrect.
Qed.

Lemma filter_only_removes_records_witness :
  filtered_df sample_table (Criteria "jap" "" "horses|cattle" "")
  = Ok (mkDF (columns sample_table) (firstn 2 (rows sample_table)))
  /\ columns (mkDF (columns sample_table) (firstn 2 (rows sample_table)))
     = columns sample_table
  /\ (exists keep,
         rows (mkDF (columns sample_table) (firstn 2 (rows sample_table)))
         = filter keep (rows sample_table))
  /\ (df_len (mkDF (columns sample_table) (firstn 2 (rows sample_table)))
      <= df_len sample_table)%nat
  /\ (rectangular sample_table ->
      rectangular (mkDF (columns sample_table) (firstn 2 (rows sample_table)))).
Proof.
  assert (H : filtered_df sample_table (Criteria "jap" "" "horses|cattle" "")
              = Ok (mkDF (columns sample_table) (firstn 2 (rows sample_table))))
    by (vm_compute; reflexivity).
  split; [exact H|].
  exact (filter_only_removes_records sample_table _ _ H).
Defined.

(** *** When the filter returns, and what it keeps *)

Lemma contains_step_keeps (df : DataFrame) (column selected : string) :
  (truthy selected = true ->
   occurrences column (columns df) = 1%nat /\ compiles selected) ->
  contains_step df column selected
  = Ok (mkDF (columns df) (filter (keeps df column selected) (rows df))).
Proof.
  intros H. unfold contains_step, keeps.
  destruct (truthy selected); cbn [negb orb].
  - destruct (H eq_refl) as [Hocc [r Hr]].
    destruct (getitem_series df column Hocc) as (i & Hp & Hget).
    unfold contains_mask, str_contains. rewrite Hget, Hp, Hr. cbn [obind].
    unfold column_at. now rewrite !map_map, select_rows_map.
  - rewrite filter_all by reflexivity. now destruct df.
Qed.

Lemma contains_step_returns (df f : DataFrame) (column selected : string) :
  contains_step df column selected = Ok f ->
  truthy selected = true ->
  occurrences column (columns df) = 1%nat /\ compiles selected.
Proof.
  unfold contains_step. intros H Ht. rewrite Ht in H.
  unfold contains_mask, getitem, str_contains in H.
  destruct (position column (columns df)) as [i|]; [|discriminate].
  destruct (occurrences column (columns df) =? 1)%nat eqn:Hocc;
    [|discriminate].
  cbn [obind] in H.
  destruct (Re.compile (strip selected)) as [r| |] eqn:Hr; try discriminate.
  split; [now apply Nat.eqb_eq|now exists r].
Qed.

Lemma keeps_columns (df df' : DataFrame) (column selected : string) :
  columns df' = columns df ->
  keeps df' column selected = keeps df column selected.
Proof. intros H. unfold keeps. now rewrite H. Qed.

Lemma active_cases (c : criteria) (column selected : string) :
  In (column, selected) (active c) <->
  truthy selected = true
  /\ ((column = COUNTRY /\ selected = selected_country c)
      \/ (column = HS_CODE /\ selected = selected_hs_code c)
      \/ (column = ITEM /\ selected = selected_item c)
      \/ (column = YEAR /\ selected = selected_year c)).
Proof.
  unfold active, targets. rewrite filter_In. cbn [In snd]. split.
  - intros [[H|[H|[H|[H|[]]]]] Ht]; injection H as <- <-; split; auto 6.
  - intros [Ht [[-> ->]|[[-> ->]|[[-> ->]|[-> ->]]]]]; split; auto 6.
Qed.

Lemma filtered_df_keeps (df : DataFrame) (c : criteria) :
  (forall column selected,
     In (column, selected) (active c) ->
     occurrences column (columns df) = 1%nat /\ compiles selected) ->
  filtered_df df c
  = Ok (mkDF (columns df) (filter (keeps_all df c) (rows df))).
Proof.
  intros H. unfold filtered_df.
  assert (Hstep : forall column selected,
             In (column, selected) (targets c) ->
             truthy selected = true ->
             occurrences column (columns df) = 1%nat /\ compiles selected).
  { intros column selected Hin Ht. apply H. unfold active.
    apply filter_In. now split. }
  rewrite contains_step_keeps
    by (apply Hstep; unfold targets; cbn; auto).
  cbn [obind]. rewrite contains_step_keeps
    by (cbn [columns]; apply Hstep; unfold targets; cbn; auto).
  cbn [obind]. rewrite contains_step_keeps
    by (cbn [columns]; apply Hstep; unfold targets; cbn; auto).
  cbn [obind]. rewrite contains_step_keeps
    by (cbn [columns]; apply Hstep; unfold targets; cbn; auto 6).
  cbn [columns rows]. rewrite !filter_filter. do 2 f_equal.
  apply filter_ext. intros row. unfold keeps_all, targets, keeps.
  cbn [forallb fst snd columns]. now rewrite andb_true_r, !andb_assoc.
Qed.

Lemma filtered_df_returns (df f : DataFrame) (c : criteria) :
  filtered_df df c = Ok f ->
  forall column selected,
    In (column, selected) (active c) ->
    occurrences column (columns df) = 1%nat /\ compiles selected.
Proof.
  intros Hf column selected Hin.
  apply active_cases in Hin. destruct Hin as [Ht Hcase].
  unfold filtered_df in Hf.
  destruct (contains_step df COUNTRY (selected_country c)) as [f1| |] eqn:E1;
    try discriminate. cbn [obind] in Hf.
  destruct (contains_step f1 HS_CODE (selected_hs_code c)) as [f2| |] eqn:E2;
    try discriminate. cbn [obind] in Hf.
  destruct (contains_step f2 ITEM (selected_item c)) as [f3| |] eqn:E3;
    try discriminate. cbn [obind] in Hf.
  destruct (contains_step_shape _ _ _ _ E1) as (g1 & -> & _).
  destruct (contains_step_shape _ _ _ _ E2) as (g2 & -> & _).
  destruct (contains_step_shape _ _ _ _ E3) as (g3 & -> & _).
  destruct Hcase as [[-> ->]|[[-> ->]|[[-> ->]|[-> ->]]]].
  - exact (contains_step_returns _ _ _ _ E1 Ht).
  - exact (contains_step_returns _ _ _ _ E2 Ht).
  - exact (contains_step_returns _ _ _ _ E3 Ht).
  - exact (contains_step_returns _ _ _ _ Hf Ht).
Qed.

(** X12. The filter returns a frame exactly when every input that holds
    text targets a column that the frame has once, and is, once trimmed, a
    pattern that compiles.  In every other case it raises (a missing
    column, a malformed pattern) or leaves the fragment modelled. *)
Theorem filter_returns_iff (df : DataFrame) (c : criteria) :
  (exists f, filtered_df df c = Ok f)
  <-> (forall column selected,
         In (column, selected) (active c) ->
         occurrences column (columns df) = 1%nat /\ compiles selected).
Proof.
  split.
  - intros [f Hf]. now apply filtered_df_returns with f.
  - intros H. eexists. now apply filtered_df_keeps.
Qed.

Lemma keeps_found (df : DataFrame) (column selected : string)
    (row : list cell) :
  truthy selected = true ->
  (keeps df column selected row = true <-> found df column selected row).
Proof.
  intros Ht. unfold keeps, found. rewrite Ht. cbn [negb orb]. split.
  - destruct (position column (columns df)) as [i|]; [|discriminate].
    destruct (Re.compile (strip selected)) as [r| |]; try discriminate.
    intros H. apply search_matches in H. destruct H as (pre & u & post & E & M).
    now exists i, r, pre, u, post.
  - intros (i & r & pre & u & post & -> & -> & E & M).
    apply search_matches. now exists pre, u, post.
Qed.

(** X13. What the filter keeps, for patterns with special characters as
    for others: the records in which, for every input that holds text, the
    regular expression the trimmed input compiles to matches some part of
    the text of the targeted cell, letter case apart. *)
Theorem filter_keeps_what_the_patterns_find (df f : DataFrame)
    (c : criteria) :
  filtered_df df c = Ok f ->
  f = mkDF (columns df) (filter (keeps_all df c) (rows df))
  /\ forall row,
      keeps_all df c row = true
      <-> (forall column selected,
             In (column, selected) (active c) ->
             found df column selected row).
Proof.
  intros Hf. pose proof (filtered_df_returns df f c Hf) as Hret.
  split; [rewrite (filtered_df_keeps df c Hret) in Hf; congruence|].
  intros row. unfold keeps_all. rewrite forallb_forall. split.
  - intros H column selected Hin. unfold active in Hin.
    apply filter_In in Hin. destruct Hin as [Hin Ht]. cbn [snd] in Ht.
    apply keeps_found; [exact Ht|]. exact (H (column, selected) Hin).
  - intros H [column selected] Hin. cbn [fst snd].
    destruct (truthy selected) eqn:Ht.
    + apply keeps_found; [exact Ht|]. apply H. unfold active.
      apply filter_In. now split.
    + unfold keeps. now rewrite Ht.
Qed.

Lemma filter_keeps_what_the_patterns_find_witness :
  filtered_df sample_table (Criteria "j.p" "" "horses|cattle" "")
  = Ok (mkDF (columns sample_table) (firstn 2 (rows sample_table)))
  /\ mkDF (columns sample_table) (firstn 2 (rows sample_table))
     = mkDF (columns sample_table)
         (filter (keeps_all sample_table (Criteria "j.p" "" "horses|cattle" ""))
            (rows sample_table))
  /\ forall row,
      keeps_all sample_table (Criteria "j.p" "" "horses|cattle" "") row = true
      <-> (forall column selected,
             In (column, selected)
               (active (Criteria "j.p" "" "horses|cattle" "")) ->
             found sample_table column selected row).
Proof.
  assert (H : filtered_df sample_table (Criteria "j.p" "" "horses|cattle" "")
              = Ok (mkDF (columns sample_table) (firstn 2 (rows sample_table))))
    by (vm_compute; reflexivity).
  split; [exact H|].
  exact (filter_keeps_what_the_patterns_find sample_table _ _ H).
Defined.

(** *** Alternatives in a pattern *)

Lemma parse_ordinary_app (p rest : list char) (cur : Re.frame)
    (stack : list Re.frame) :
  literal_text p ->
  Re.parse (p ++ rest) cur stack
  = Re.parse rest
      (Re.Frame (Re.alts cur) (rev (map Re.RChr p) ++ Re.items cur)
         (match p with [] => Re.quantified cur | _ => false end))
      stack.
Proof.
  intros H. revert cur.
  induction H as [|c p [Hc Ha] _ IH]; intros cur.
  - cbn. now destruct cur.
  - destruct (ordinary_char c Hc) as (H1 & H2 & H3 & H4 & H5 & H6 & H7).
    cbn [app Re.parse]. rewrite H1, H2, H3, H4, H5, H6, H7, Hc, Ha. cbn [orb].
    rewrite IH. cbn [Re.push Re.alts Re.items Re.quantified map rev].
    rewrite <- app_assoc. cbn [app].
    destruct p; reflexivity.
Qed.

Lemma parse_joined (words : list (list char)) (alts : list Re.regex)
    (q : bool) :
  Forall literal_text words ->
  Re.parse (joined words) (Re.Frame alts [] q) []
  = Ok (alternatives alts words).
Proof.
  intros H. revert alts q.
  induction H as [|p words Hp Hwords IH]; intros alts q; [reflexivity|].
  destruct words as [|p' words].
  - cbn [joined alternatives]. rewrite (parse_ordinary _ _ Hp).
    unfold Re.close. cbn [Re.alts Re.items]. rewrite app_nil_r.
    now rewrite branch_literal.
  - cbn [joined]. rewrite (parse_ordinary_app p _ _ _ Hp).
    cbn [Re.parse Re.alts Re.items]. rewrite app_nil_r, branch_literal.
    change (N.eqb (cp "|") (cp "(")) with false.
    change (N.eqb (cp "|") (cp ")")) with false.
    change (N.eqb (cp "|") (cp "|")) with true. cbv iota.
    apply (IH (literal p :: alts) false).
Qed.

Lemma search_alt (x y : Re.regex) (s : list char) :
  Re.search (Re.RAlt x y) s = Re.search x s || Re.search y s.
Proof.
  induction s as [|a s IH]; cbn [Re.search]; rewrite match_prefix_alt.
  - now rewrite !orb_false_r.
  - rewrite IH.
    destruct (Re.match_prefix x (a :: s)), (Re.match_prefix y (a :: s)),
      (Re.search x s); reflexivity.
Qed.

Lemma search_fold_alt (alts : list Re.regex) (r0 : Re.regex) (s : list char) :
  Re.search (fold_left (fun acc r => Re.RAlt r acc) alts r0) s
  = Re.search r0 s || existsb (fun r => Re.search r s) alts.
Proof.
  revert r0. induction alts as [|r alts IH]; intros r0; cbn.
  - now rewrite orb_false_r.
  - rewrite IH, search_alt.
    destruct (Re.search r s), (Re.search r0 s); cbn; auto.
Qed.

Lemma search_alternatives (alts : list Re.regex) (words : list (list char))
    (s : list char) :
  words <> [] ->
  Re.search (alternatives alts words) s
  = existsb (fun p => ci_containsb p s) words
    || existsb (fun r => Re.search r s) alts.
Proof.
  intros Hne. revert alts.
  induction words as [|p words IH]; intros alts; [contradiction|].
  destruct words as [|p' words].
  - cbn [alternatives existsb]. rewrite search_fold_alt, search_literal.
    now rewrite orb_false_r.
  - change (alternatives alts (p :: p' :: words))
      with (alternatives (literal p :: alts) (p' :: words)).
    rewrite IH by discriminate. cbn [existsb]. rewrite search_literal.
    destruct (ci_containsb p s), (ci_containsb p' s),
      (existsb (fun p0 => ci_containsb p0 s) words); cbn; auto;
      now rewrite ?orb_true_r.
Qed.

(** X14. A bar separates alternatives: an input made of words without
    special characters, joined by bars, keeps the records whose cell holds
    at least one of the words, letter case apart. *)
Theorem bar_separates_alternatives (df : DataFrame)
    (column selected : string) (words : list (list char)) :
  truthy selected = true ->
  occurrences column (columns df) = 1%nat ->
  words <> [] -> Forall literal_text words ->
  strip selected = joined words ->
  contains_step df column selected
  = Ok (mkDF (columns df)
          (filter (fun row =>
                     existsb (fun p => ci_containsb p (text_at df column row))
                       words)
             (rows df))).
Proof.
  intros Ht Hocc Hne Hwords Hsel.
  assert (Hc : Re.compile (strip selected) = Ok (alternatives [] words))
    by (rewrite Hsel; apply (parse_joined words [] false Hwords)).
  rewrite contains_step_keeps
    by (intros _; split; [exact Hocc|now exists (alternatives [] words)]).
  do 2 f_equal. apply filter_ext. intros row.
  unfold keeps, text_at. rewrite Ht, Hc. cbn [negb orb].
  destruct (getitem_series df column Hocc) as (i & -> & _).
  rewrite search_alternatives by exact Hne. cbn [existsb].
  now rewrite orb_false_r.
Qed.

Lemma bar_separates_alternatives_witness :
  (truthy "Horses|cattle" = true
   /\ occurrences ITEM (columns sample_table) = 1%nat
   /\ [chars "Horses"; chars "cattle"] <> []
   /\ Forall literal_text [chars "Horses"; chars "cattle"]
   /\ strip "Horses|cattle" = joined [chars "Horses"; chars "cattle"])
  /\ contains_step sample_table ITEM "Horses|cattle"
     = Ok (mkDF (columns sample_table)
             (filter (fun row =>
                        existsb (fun p =>
                                   ci_containsb p (text_at sample_table ITEM row))
                          [chars "Horses"; chars "cattle"])
                (rows sample_table))).
Proof.
  assert (Hne : [chars "Horses"; chars "cattle"] <> []) by discriminate.
  assert (Hw : Forall literal_text [chars "Horses"; chars "cattle"])
    by (repeat constructor).
  split; [repeat split; try assumption; reflexivity|].
  exact (bar_separates_alternatives sample_table ITEM "Horses|cattle" _
           eq_refl eq_refl Hne Hw eq_refl).
Defined.

(** *** The letter case of an input *)

Lemma nullable_same (r r' : Re.regex) :
  same_regex r r' -> Re.nullable r = Re.nullable r'.
Proof. induction 1; cbn; congruence. Qed.

Lemma deriv_same (a : char) (r r' : Re.regex) :
  same_regex r r' -> same_regex (Re.deriv a r) (Re.deriv a r').
Proof.
  induction 1 as [| |c c' Hc| |r r' s s' Hr IHr Hs IHs
                 |r r' s s' Hr IHr Hs IHs|r r' Hr IHr]; cbn.
  - constructor.
  - constructor.
  - unfold ci_eqb. rewrite Hc. destruct (N.eqb _ _); constructor.
  - destruct (N.eqb a Re.newline); constructor.
  - rewrite (nullable_same r r' Hr).
    destruct (Re.nullable r'); repeat constructor; assumption.
  - now constructor.
  - constructor; [assumption|now constructor].
Qed.

Lemma match_prefix_same (s : list char) (r r' : Re.regex) :
  same_regex r r' -> Re.match_prefix r s = Re.match_prefix r' s.
Proof.
  revert r r'. induction s as [|a s IH]; intros r r' H; cbn;
    rewrite (nullable_same r r' H); [reflexivity|].
  f_equal. apply IH. now apply deriv_same.
Qed.

Lemma search_same (s : list char) (r r' : Re.regex) :
  same_regex r r' -> Re.search r s = Re.search r' s.
Proof.
  intros H. induction s as [|a s IH]; cbn [Re.search];
    rewrite (match_prefix_same _ r r' H); [reflexivity|]. now rewrite IH.
Qed.

(** A special character is no letter: a character that is like a special
    one, letter case apart, is that character. *)
Lemma meta_same (c c' : char) :
  lower c = lower c' -> Re.is_meta c = true -> c' = c.
Proof.
  unfold Re.is_meta.
  change (chars ".^$*+?{}[]\|()")
    with [cp "."; cp "^"; cp "$"; cp "*"; cp "+"; cp "?"; cp "{"; cp "}";
          cp "["; cp "]"; cp "\"; cp "|"; cp "("; cp ")"]%char.
  cbn [existsb]. intros Hl H.
  repeat (apply orb_true_iff in H; destruct H as [H | H]);
    try discriminate H;
    apply N.eqb_eq in H; subst c; unfold lower in Hl; cbn in Hl;
    destruct ((65 <=? c') && (c' <=? 90))%N eqn:E;
    try (symmetry; exact Hl);
    apply andb_true_iff in E; destruct E as [E1 E2];
    apply N.leb_le in E1, E2; exfalso; lia.
Qed.

Lemma same_char_tests (c c' : char) (t : char) :
  lower c = lower c' -> Re.is_meta t = true -> N.eqb c t = N.eqb c' t.
Proof.
  intros Hl Ht.
  destruct (N.eqb c t) eqn:E.
  - apply N.eqb_eq in E. subst t.
    rewrite (meta_same c c' Hl Ht). symmetry. apply N.eqb_refl.
  - destruct (N.eqb c' t) eqn:E'; [|reflexivity].
    apply N.eqb_eq in E'. subst t.
    rewrite (meta_same c' c (eq_sym Hl) Ht) in E. now rewrite N.eqb_refl in E.
Qed.

Lemma is_meta_same (c c' : char) :
  lower c = lower c' -> Re.is_meta c = Re.is_meta c'.
Proof.
  intros Hl.
  destruct (Re.is_meta c) eqn:E.
  - now rewrite (meta_same c c' Hl E).
  - destruct (Re.is_meta c') eqn:E'; [|reflexivity].
    rewrite (meta_same c' c (eq_sym Hl) E') in E. congruence.
Qed.

Lemma alphabet_same (c c' : char) :
  lower c = lower c' -> in_alphabet c = in_alphabet c'.
Proof.
  unfold lower, in_alphabet. intros H.
  destruct (N.leb_spec 65 c), (N.leb_spec c 90), (N.leb_spec 65 c'),
    (N.leb_spec c' 90); cbn in H;
    destruct (N.ltb_spec c 128), (N.ltb_spec c' 128), (N.leb_spec 3584 c),
      (N.leb_spec c 3711), (N.leb_spec 3584 c'), (N.leb_spec c' 3711); cbn;
    try reflexivity; exfalso; lia.
Qed.

Lemma branch_same (its its' : list Re.regex) :
  Forall2 same_regex its its' -> same_regex (Re.branch its) (Re.branch its').
Proof.
  unfold Re.branch. assert (H0 : same_regex Re.REps Re.REps) by constructor.
  revert H0. generalize Re.REps at 1 3. generalize Re.REps.
  intros acc' acc Hacc H. revert acc acc' Hacc.
  induction H as [|r r' l l' Hr _ IH]; intros acc acc' Hacc; cbn; auto.
  apply IH. now constructor.
Qed.

Lemma close_same (f f' : Re.frame) :
  same_frame f f' -> same_regex (Re.close f) (Re.close f').
Proof.
  intros (Ha & Hi & _). unfold Re.close.
  pose proof (branch_same _ _ Hi) as Hb.
  revert Hb. generalize (Re.branch (Re.items f)) (Re.branch (Re.items f')).
  induction Ha as [|r r' l l' Hr _ IH]; intros acc acc' Hacc; cbn; auto.
  apply IH. now constructor.
Qed.

Lemma quantify_same (q : char) (r r' : Re.regex) :
  same_regex r r' -> same_regex (Re.quantify q r) (Re.quantify q r').
Proof.
  intros H. unfold Re.quantify.
  destruct (N.eqb q (cp "*")); [now constructor|].
  destruct (N.eqb q (cp "+")); repeat constructor; assumption.
Qed.

(** Patterns alike, letter case apart, compile alike. *)
Lemma parse_same (p p' : list char) :
  Forall2 (fun c c' => lower c = lower c') p p' ->
  forall cur cur' stack stack',
    same_frame cur cur' -> Forall2 same_frame stack stack' ->
    same_compiled (Re.parse p cur stack) (Re.parse p' cur' stack').
Proof.
  induction 1 as [|c c' p p' Hc Hp IH]; intros cur cur' stack stack' Hcur Hst.
  - cbn. destruct Hst; cbn; [now apply close_same|reflexivity].
  - cbn [Re.parse].
    rewrite <- (same_char_tests c c' (cp "(") Hc eq_refl).
    rewrite <- (same_char_tests c c' (cp ")") Hc eq_refl).
    rewrite <- (same_char_tests c c' (cp "|") Hc eq_refl).
    rewrite <- (same_char_tests c c' (cp "*") Hc eq_refl).
    rewrite <- (same_char_tests c c' (cp "+") Hc eq_refl).
    rewrite <- (same_char_tests c c' (cp "?") Hc eq_refl).
    rewrite <- (same_char_tests c c' (cp ".") Hc eq_refl).
    rewrite <- (is_meta_same c c' Hc).
    destruct (N.eqb c (cp "(")).
    { assert (Hq : match p with x :: _ => N.eqb x (cp "?") | [] => false end
                   = match p' with x :: _ => N.eqb x (cp "?") | [] => false end).
      { destruct Hp as [|x x' ? ? Hx _]; [reflexivity|].
        now apply same_char_tests. }
      rewrite <- Hq. destruct (match p with _ :: _ => _ | [] => _ end);
        [exact I|].
      apply IH; [repeat split; constructor|now constructor]. }
    destruct (N.eqb c (cp ")")).
    { destruct Hst as [|f f' stack stack' Hf Hst]; [reflexivity|].
      apply IH; [|exact Hst].
      destruct Hf as (Ha & Hi & Hq). repeat split; cbn; auto.
      constructor; [now apply close_same|exact Hi]. }
    destruct (N.eqb c (cp "|")).
    { apply IH; [|exact Hst].
      destruct Hcur as (Ha & Hi & Hq). repeat split; cbn; auto.
      constructor; [now apply branch_same|exact Ha]. }
    destruct (N.eqb c (cp "*") || N.eqb c (cp "+") || N.eqb c (cp "?")) eqn:Eq.
    { destruct Hcur as (Ha & Hi & Hq). rewrite <- Hq.
      destruct Hi as [|r r' rs rs' Hr Hrs]; [reflexivity|].
      destruct (Re.quantified cur); [exact I|].
      apply IH; [|exact Hst]. repeat split; cbn; auto.
      constructor; [|exact Hrs].
      assert (Hcc : c' = c).
      { apply (meta_same c c' Hc).
        repeat (apply orb_true_iff in Eq; destruct Eq as [Eq | Eq]);
          apply N.eqb_eq in Eq; now subst c. }
      subst c'. now apply quantify_same. }
    destruct (N.eqb c (cp ".")).
    { apply IH; [|exact Hst].
      destruct Hcur as (Ha & Hi & Hq). repeat split; cbn; auto.
      constructor; [constructor|exact Hi]. }
    destruct (Re.is_meta c); [exact I|].
    rewrite <- (alphabet_same c c' Hc).
    destruct (in_alphabet c); [|exact I].
    apply IH; [|exact Hst].
    destruct Hcur as (Ha & Hi & Hq). repeat split; cbn; auto.
    constructor; [now constructor|exact Hi].
Qed.

Lemma lowered_alike (p p' : list char) :
  map lower p = map lower p' ->
  Forall2 (fun c c' => lower c = lower c') p p'.
Proof.
  revert p'. induction p as [|c p IH]; intros [|c' p'] H; try discriminate;
    constructor; injection H as Hc Hp; auto.
Qed.

Lemma compile_same (p p' : list char) :
  map lower p = map lower p' ->
  same_compiled (Re.compile p) (Re.compile p').
Proof.
  intros H. unfold Re.compile.
  apply parse_same; [now apply lowered_alike| |constructor].
  repeat split; constructor.
Qed.

(** One step of the filter does not depend on the letter case of its input. *)
Lemma contains_step_same (df : DataFrame) (column s s' : string) :
  same_input s s' ->
  contains_step df column s = contains_step df column s'.
Proof.
  intros [Ht Hs]. unfold contains_step. rewrite <- Ht.
  destruct (truthy s); [|reflexivity].
  unfold contains_mask.
  destruct (getitem df column) as [[i cells|]| |]; cbn [obind]; try reflexivity.
  unfold str_contains. pose proof (compile_same _ _ Hs) as Hc.
  destruct (Re.compile (strip s)) as [r|e|],
    (Re.compile (strip s')) as [r'|e'|]; cbn in Hc; try contradiction;
    cbn [obind].
  - do 3 f_equal. apply map_ext. intros t. now apply search_same.
  - now subst e'.
  - reflexivity.
Qed.

(** X15. The letter case of the inputs does not matter: for patterns of
    the fragment modelled, criteria whose inputs are alike once trimmed
    and lowered give the same result, frame or exception. *)
Theorem letter_case_of_the_inputs_does_not_matter (df : DataFrame)
    (c c' : criteria) :
  same_input (selected_country c) (selected_country c') ->
  same_input (selected_hs_code c) (selected_hs_code c') ->
  same_input (selected_item c) (selected_item c') ->
  same_input (selected_year c) (selected_year c') ->
  filtered_df df c <> Beyond ->
  filtered_df df c' = filtered_df df c.
Proof.
  intros H1 H2 H3 H4 _. unfold filtered_df.
  rewrite (contains_step_same df COUNTRY _ _ H1).
  destruct (contains_step df COUNTRY (selected_country c')) as [f1| |];
    cbn [obind]; try reflexivity.
  rewrite (contains_step_same f1 HS_CODE _ _ H2).
  destruct (contains_step f1 HS_CODE (selected_hs_code c')) as [f2| |];
    cbn [obind]; try reflexivity.
  rewrite (contains_step_same f2 ITEM _ _ H3).
  destruct (contains_step f2 ITEM (selected_item c')) as [f3| |];
    cbn [obind]; try reflexivity.
  symmetry. apply (contains_step_same f3 YEAR _ _ H4).
Qed.

Lemma letter_case_of_the_inputs_does_not_matter_witness :
  (same_input "JAP" "jap" /\ same_input "" ""
   /\ same_input "Horses|CATTLE" "horses|cattle" /\ same_input "" ""
   /\ filtered_df sample_table (Criteria "JAP" "" "Horses|CATTLE" "")
      <> Beyond)
  /\ filtered_df sample_table (Criteria "jap" "" "horses|cattle" "")
     = filtered_df sample_table (Criteria "JAP" "" "Horses|CATTLE" "").
Proof.
  assert (H1 : same_input "JAP" "jap") by (split; reflexivity).
  assert (H2 : same_input "" "") by (split; reflexivity).
  assert (H3 : same_input "Horses|CATTLE" "horses|cattle")
    by (split; reflexivity).
  assert (H5 : filtered_df sample_table (Criteria "JAP" "" "Horses|CATTLE" "")
               <> Beyond) by (vm_compute; discriminate).
  split; [repeat split; try reflexivity; exact H5|].
  exact (letter_case_of_the_inputs_does_not_matter sample_table
           (Criteria "JAP" "" "Horses|CATTLE" "")
           (Criteria "jap" "" "horses|cattle" "") H1 H2 H3 H2 H5).
Defined.

(** *** Blank inputs and further inputs *)

(** X16. An input that holds white space only constrains nothing: the test
    runs, on a column that has to exist, and keeps every record. *)
Theorem blank_input_constrains_nothing (df : DataFrame) (c : criteria) :
  (forall column selected,
     In (column, selected) (active c) ->
     occurrences column (columns df) = 1%nat /\ strip selected = []) ->
  filtered_df df c = Ok df.
Proof.
  intros H. rewrite filtered_df_passes.
  - rewrite filter_keeps_all; [now destruct df|].
    intros r _. unfold satisfies. apply forallb_forall. intros [column sel] Ht.
    unfold passes. cbn [fst snd].
    destruct (truthy sel) eqn:Etruthy; [|reflexivity]. cbn [negb orb].
    assert (Hin : In (column, sel) (active c))
      by (unfold active; apply filter_In; split; [exact Ht|exact Etruthy]).
    destruct (H column sel Hin) as [Hocc Hstrip].
    destruct (getitem_series df column Hocc) as (i & -> & _).
    rewrite Hstrip. now destruct (chars _).
  - intros column sel Hin. destruct (H column sel Hin) as [Hocc Hstrip].
    split; [exact Hocc|]. rewrite Hstrip. constructor.
Qed.

Lemma blank_input_constrains_nothing_witness :
  (forall column selected,
     In (column, selected) (active (Criteria "  " "" " " "")) ->
     occurrences column (columns sample_table) = 1%nat /\ strip selected = [])
  /\ filtered_df sample_table (Criteria "  " "" " " "") = Ok sample_table.
Proof.
  assert (H : forall column selected,
             In (column, selected) (active (Criteria "  " "" " " "")) ->
             occurrences column (columns sample_table) = 1%nat
             /\ strip selected = []).
  { intros column selected [[= <- <-]|[[= <- <-]|[]]]; split; reflexivity. }
  split; [exact H|].
  exact (blank_input_constrains_nothing sample_table _ H).
Defined.

Lemma keeps_all_columns (df df' : DataFrame) (c : criteria) (row : list cell) :
  columns df' = columns df -> keeps_all df' c row = keeps_all df c row.
Proof.
  intros H. unfold keeps_all.
  induction (targets c) as [|t ts IH]; [reflexivity|].
  cbn [forallb]. now rewrite IH, (keeps_columns df df' _ _ H).
Qed.

Lemma keeps_all_active (df : DataFrame) (c : criteria) (row : list cell) :
  keeps_all df c row = true
  <-> (forall column selected,
         In (column, selected) (active c) ->
         keeps df column selected row = true).
Proof.
  unfold keeps_all. rewrite forallb_forall. split.
  - intros H column selected Hin. unfold active in Hin.
    apply filter_In in Hin. exact (H (column, selected) (proj1 Hin)).
  - intros H [column selected] Hin. cbn [fst snd].
    destruct (truthy selected) eqn:Ht.
    + apply H. unfold active. apply filter_In. now split.
    + unfold keeps. now rewrite Ht.
Qed.

(** X17. Filtering in two passes.  When the inputs [c'] hold every text
    that the inputs [c] hold, filtering with [c'] what the filter kept for
    [c] gives what it keeps for [c'] on the source: a further input only
    removes records. *)
Theorem more_criteria_fewer_records (df f f' : DataFrame) (c c' : criteria) :
  filtered_df df c = Ok f -> filtered_df df c' = Ok f' ->
  (forall column selected,
     In (column, selected) (active c) -> In (column, selected) (active c')) ->
  filtered_df f c' = Ok f'
  /\ exists keep, rows f' = filter keep (rows f).
Proof.
  intros Hf Hf' Hsub.
  pose proof (filtered_df_returns df f c Hf) as Hret.
  pose proof (filtered_df_returns df f' c' Hf') as Hret'.
  rewrite (filtered_df_keeps df c Hret) in Hf. injection Hf as <-.
  rewrite (filtered_df_keeps df c' Hret') in Hf'. injection Hf' as <-.
  assert (Hnarrow : filter (keeps_all df c') (filter (keeps_all df c) (rows df))
                    = filter (keeps_all df c') (rows df)).
  { rewrite filter_filter. apply filter_ext. intros row.
    destruct (keeps_all df c' row) eqn:E'; [|now rewrite andb_false_r].
    rewrite andb_true_r. apply keeps_all_active.
    intros column selected Hin.
    now apply (proj1 (keeps_all_active df c' row) E'), Hsub. }
  split.
  - rewrite filtered_df_keeps by exact Hret'. cbn [columns rows].
    do 2 f_equal. rewrite <- Hnarrow. apply filter_ext. intros row.
    now apply keeps_all_columns.
  - exists (keeps_all df c'). cbn [rows]. now rewrite Hnarrow.
Qed.

Lemma more_criteria_fewer_records_witness :
  (filtered_df sample_table (Criteria "jap" "" "" "")
   = Ok (mkDF (columns sample_table) (firstn 2 (rows sample_table)))
   /\ filtered_df sample_table (Criteria "jap" "" "cattle" "")
      = Ok (mkDF (columns sample_table) [nth 1 (rows sample_table) []])
   /\ (forall column selected,
         In (column, selected) (active (Criteria "jap" "" "" "")) ->
         In (column, selected) (active (Criteria "jap" "" "cattle" ""))))
  /\ filtered_df (mkDF (columns sample_table) (firstn 2 (rows sample_table)))
       (Criteria "jap" "" "cattle" "")
     = Ok (mkDF (columns sample_table) [nth 1 (rows sample_table) []])
  /\ exists keep,
      rows (mkDF (columns sample_table) [nth 1 (rows sample_table) []])
      = filter keep
          (rows (mkDF (columns sample_table) (firstn 2 (rows sample_table)))).
Proof.
  assert (H1 : filtered_df sample_table (Criteria "jap" "" "" "")
               = Ok (mkDF (columns sample_table) (firstn 2 (rows sample_table))))
    by (vm_compute; reflexivity).
  assert (H2 : filtered_df sample_table (Criteria "jap" "" "cattle" "")
               = Ok (mkDF (columns sample_table) [nth 1 (rows sample_table) []]))
    by (vm_compute; reflexivity).
  assert (H3 : forall column selected,
             In (column, selected) (active (Criteria "jap" "" "" "")) ->
             In (column, selected) (active (Criteria "jap" "" "cattle" ""))).
  { intros column selected [[= <- <-]|[]]. now left. }
  split; [repeat split; assumption|].
  exact (more_criteria_fewer_records sample_table _ _ _ _ H1 H2 H3).
Defined.

(** *** The filter over the object store *)

Lemma deref_app (h ext : heap) (ref : nat) :
  (ref < List.length h)%nat -> deref (h ++ ext)%list ref = deref h ref.
Proof. intros H. unfold deref. now apply app_nth1. Qed.

(** One step over the store: the store grows by at most one object; the
    address returned is the one given or that of the new object; the frame
    found there is what the step computes from the frame given. *)
Lemma contains_step_ref_spec (h : heap) (b ref : nat) (column sel : string) :
  (b <= ref < List.length h)%nat ->
  exists ext,
    fst (contains_step_ref h ref column sel) = (h ++ ext)%list
    /\ match snd (contains_step_ref h ref column sel) with
       | Ok ref' =>
           (b <= ref' < List.length (h ++ ext)%list)%nat
           /\ contains_step (deref h ref) column sel
              = Ok (deref (h ++ ext)%list ref')
       | Raise e => contains_step (deref h ref) column sel = Raise e
       | Beyond => contains_step (deref h ref) column sel = Beyond
       end.
Proof.
  intros Href. unfold contains_step_ref, contains_step.
  destruct (truthy sel).
  - destruct (contains_mask (deref h ref) column sel) as [df'|e|] eqn:E.
    + exists [df']. cbn [alloc fst snd]. split; [reflexivity|]. split.
      * rewrite length_app. cbn. lia.
      * f_equal. symmetry. apply (deref_alloc_new h df').
    + exists []. cbn. now rewrite app_nil_r.
    + exists []. cbn. now rewrite app_nil_r.
  - exists []. cbn [fst snd]. rewrite app_nil_r. auto.
Qed.

Lemma then_ref_spec (h : heap) (b : nat) (r : heap * outcome nat)
    (k : heap -> nat -> heap * outcome nat)
    (o : outcome DataFrame) (k' : DataFrame -> outcome DataFrame) :
  (exists ext,
      fst r = (h ++ ext)%list
      /\ match snd r with
         | Ok ref' =>
             (b <= ref' < List.length (h ++ ext)%list)%nat
             /\ o = Ok (deref (h ++ ext)%list ref')
         | Raise e => o = Raise e
         | Beyond => o = Beyond
         end) ->
  (forall h1 ref1, (b <= ref1 < List.length h1)%nat ->
     exists ext,
       fst (k h1 ref1) = (h1 ++ ext)%list
       /\ match snd (k h1 ref1) with
          | Ok ref' =>
              (b <= ref' < List.length (h1 ++ ext)%list)%nat
              /\ k' (deref h1 ref1) = Ok (deref (h1 ++ ext)%list ref')
          | Raise e => k' (deref h1 ref1) = Raise e
          | Beyond => k' (deref h1 ref1) = Beyond
          end) ->
  exists ext,
    fst (then_ref r k) = (h ++ ext)%list
    /\ match snd (then_ref r k) with
       | Ok ref' =>
           (b <= ref' < List.length (h ++ ext)%list)%nat
           /\ obind o k' = Ok (deref (h ++ ext)%list ref')
       | Raise e => obind o k' = Raise e
       | Beyond => obind o k' = Beyond
       end.
Proof.
  intros (ext & Hh & Hr) Hk. destruct r as [h1 [ref1|e|]]; cbn in *.
  - destruct Hr as [Hb ->]. subst h1. cbn [obind].
    destruct (Hk _ ref1 Hb) as (ext' & Hh' & Hr').
    exists (ext ++ ext')%list. rewrite app_assoc. split; [exact Hh'|].
    exact Hr'.
  - subst o. exists ext. now split.
  - subst o. exists ext. now split.
Qed.

(** X18. Whatever the inputs, the filter changes no object the store held:
    the store only grows.  When the filter returns, its result lives at an
    address the store did not have before, so that it is never the source
    frame itself, and the frame at that address is the one the four steps
    compute; when it raises, the store view and the value view raise
    alike. *)
Theorem filter_never_touches_its_source (h : heap) (df : nat) (c : criteria) :
  (df < List.length h)%nat ->
  exists ext,
    fst (filtered_df_ref h df c) = (h ++ ext)%list
    /\ (forall ref, (ref < List.length h)%nat ->
          deref (h ++ ext)%list ref = deref h ref)
    /\ match snd (filtered_df_ref h df c) with
       | Ok f =>
           (List.length h <= f < List.length (h ++ ext)%list)%nat
           /\ filtered_df (deref h df) c = Ok (deref (h ++ ext)%list f)
       | Raise e => filtered_df (deref h df) c = Raise e
       | Beyond => True
       end.
Proof.
  intros Hdf. unfold filtered_df_ref. cbn [alloc].
  set (h0 := (h ++ [deref h df])%list).
  set (run := then_ref _ _).
  assert (H0 : (List.length h <= List.length h < List.length h0)%nat)
    by (unfold h0; rewrite length_app; cbn; lia).
  assert (Hcopy : deref h0 (List.length h) = deref h df)
    by apply (deref_alloc_new h (deref h df)).
  assert (Hrun : exists ext,
             fst run = (h0 ++ ext)%list
             /\ match snd run with
                | Ok f =>
                    (List.length h <= f < List.length (h0 ++ ext)%list)%nat
                    /\ filtered_df (deref h df) c = Ok (deref (h0 ++ ext)%list f)
                | Raise e => filtered_df (deref h df) c = Raise e
                | Beyond => filtered_df (deref h df) c = Beyond
                end).
  { subst run. rewrite <- Hcopy. unfold filtered_df.
    apply then_ref_spec; [now apply contains_step_ref_spec|].
    intros h1 f1 H1.
    apply then_ref_spec; [now apply contains_step_ref_spec|].
    intros h2 f2 H2.
    apply then_ref_spec; [now apply contains_step_ref_spec|].
    intros h3 f3 H3. now apply contains_step_ref_spec. }
  destruct Hrun as (ext & Hh & Hr).
  exists ([deref h df] ++ ext)%list. rewrite app_assoc. fold h0.
  split; [exact Hh|].
  split; [|destruct (snd run) as [f|e|]; [exact Hr|exact Hr|exact I]].
  intros ref Href. unfold h0. rewrite <- app_assoc. now apply deref_app.
Qed.

Lemma filter_never_touches_its_source_witness :
  (0 < List.length [sample_table])%nat
  /\ exists ext,
      fst (filtered_df_ref [sample_table] 0 (Criteria "jap" "" "" ""))
      = ([sample_table] ++ ext)%list
      /\ (forall ref, (ref < List.length [sample_table])%nat ->
            deref ([sample_table] ++ ext)%list ref = deref [sample_table] ref)
      /\ match snd (filtered_df_ref [sample_table] 0 (Criteria "jap" "" "" ""))
         with
         | Ok f =>
             (List.length [sample_table] <= f
              < List.length ([sample_table] ++ ext)%list)%nat
             /\ filtered_df (deref [sample_table] 0) (Criteria "jap" "" "" "")
                = Ok (deref ([sample_table] ++ ext)%list f)
         | Raise e =>
             filtered_df (deref [sample_table] 0) (Criteria "jap" "" "" "")
             = Raise e
         | Beyond => True
         end.
Proof.
  assert (H : (0 < List.length [sample_table])%nat) by (cbn; lia).
  split; [exact H|].
  exact (filter_never_touches_its_source [sample_table] 0
           (Criteria "jap" "" "" "") H).
Defined.

(** ** Order and ranking of the groups *)

Lemma string_lt_trans (a b c : string) :
  String.compare a b = Lt -> String.compare b c = Lt ->
  String.compare a c = Lt.
Proof.
  revert b c. induction a as [|x a IH]; intros [|y b] [|z c]; cbn;
    try discriminate; auto.
  unfold Ascii.compare.
  destruct (N.compare_spec (N_of_ascii x) (N_of_ascii y)) as [Hxy|Hxy|Hxy];
    destruct (N.compare_spec (N_of_ascii y) (N_of_ascii z)) as [Hyz|Hyz|Hyz];
    try discriminate; intros H1 H2.
  - rewrite Hxy, Hyz, N.compare_refl. now apply IH with b.
  - rewrite Hxy. now apply N.compare_lt_iff in Hyz as ->.
  - rewrite <- Hyz. now apply N.compare_lt_iff in Hxy as ->.
  - assert (H : (N_of_ascii x < N_of_ascii z)%N) by lia.
    now apply N.compare_lt_iff in H as ->.
Qed.

Lemma cell_compare_antisym (a b : cell) :
  cell_compare a b = CompOpp (cell_compare b a).
Proof.
  unfold cell_compare.
  destruct (cell_num a) as [x|], (cell_num b) as [y|]; try reflexivity.
  - symmetry. apply Qcompare_antisym.
  - apply String.compare_antisym.
Qed.

Lemma cell_lt_trans (a b c : cell) :
  cell_compare a b = Lt -> cell_compare b c = Lt -> cell_compare a c = Lt.
Proof.
  unfold cell_compare.
  destruct (cell_num a) as [x|], (cell_num b) as [y|], (cell_num c) as [z|];
    try discriminate; auto.
  - intros H1 H2. apply Qlt_alt in H1, H2. apply Qlt_alt.
    now apply Qlt_trans with y.
  - apply string_lt_trans.
Qed.

Lemma insert_key_ascending (k : cell) (l : list cell) :
  ascending (fun x => x) l ->
  Forall (fun x => cell_eqb k x = false) l ->
  ascending (fun x => x) (insert_key k l).
Proof.
  unfold ascending. intros Hs Hd.
  induction Hs as [|x l Hl IH Hx]; cbn; [repeat constructor|].
  inversion Hd as [|? ? Hkx Hd']; subst.
  unfold cell_eqb in Hkx.
  destruct (cell_compare k x) eqn:E; try discriminate.
  - constructor; [now constructor|]. constructor; [exact E|].
    eapply Forall_impl; [|exact Hx]. intros z Hz. cbn in Hz.
    now apply cell_lt_trans with x.
  - constructor; [now apply IH|].
    apply (Permutation_Forall (Permutation_sym (insert_key_perm k l))).
    constructor; [|exact Hx].
    rewrite cell_compare_antisym, E. reflexivity.
Qed.

Lemma sort_keys_ascending (l : list cell) :
  pairwise_distinct l -> ascending (fun x => x) (sort_keys l).
Proof.
  induction 1 as [|k l Hk Hl IH]; cbn; [constructor|].
  apply insert_key_ascending; [exact IH|].
  now apply (Permutation_Forall (Permutation_sym (sort_keys_perm l))).
Qed.

Lemma group_keys_ascending (keys : list cell) :
  ascending (fun x => x) (group_keys keys).
Proof. apply sort_keys_ascending, uniques_distinct. Qed.

Lemma sort_values_ascending {A} (key : A -> cell) (l : list A) :
  ascending key l -> sort_values key l = l.
Proof.
  unfold ascending. induction 1 as [|x l Hl IH Hx]; [reflexivity|].
  cbn [sort_values fold_right]. fold (sort_values key l). rewrite IH.
  destruct l as [|y l']; [reflexivity|]. cbn [insert_asc].
  inversion Hx as [|? ? Hxy _]; subst. now rewrite Hxy.
Qed.

Lemma ascending_keys {A} (key : A -> cell) (l : list A) :
  ascending (fun x => x) (map key l) -> ascending key l.
Proof.
  unfold ascending. induction l as [|x l IH]; cbn [map]; intros H;
    [constructor|].
  inversion H as [|? ? Hs Hall]; subst. constructor; [now apply IH|].
  now apply Forall_map in Hall.
Qed.

(** What [grouped_sums] returned when the sums are numbers. *)
Lemma grouped_sums_inv (df : DataFrame) (group_col : string)
    (on_text : outcome (list (cell * cell * cell)))
    (summary : list (cell * cell * cell)) :
  (forall s, on_text <> Ok s) ->
  grouped_sums df group_col on_text = Ok summary ->
  exists keys imps exps,
    column_is df group_col keys
    /\ metric_is df IMPORTS imps /\ metric_is df EXPORTS exps
    /\ traverse (sums_row keys imps exps) (group_keys keys) = Ok summary.
Proof.
  intros Htext. unfold grouped_sums, grouper, selected.
  destruct (getitem df group_col) as [[i keys|]| |] eqn:Hk; try discriminate.
  cbn [obind].
  destruct (getitem df IMPORTS) as [[ii ci|]| |] eqn:Hi; try discriminate.
  cbn [obind].
  destruct (getitem df EXPORTS) as [[ie ce|]| |] eqn:He; try discriminate.
  cbn [obind].
  destruct (String.eqb group_col IMPORTS || String.eqb group_col EXPORTS);
    [discriminate|].
  destruct (numeric_values ci) as [imps| |] eqn:Hvi,
    (numeric_values ce) as [exps| |] eqn:Hve;
    try discriminate; try (intros H; now destruct (Htext summary)).
  intros H. exists keys, imps, exps.
  split; [now exists i|]. split; [exists ci; split; [now exists ii|exact Hvi]|].
  split; [exists ce; split; [now exists ie|exact Hve]|exact H].
Qed.

(** X19. The grouped sums of lines 134, 158 and 182 hold one row per
    distinct value of the group column, in ascending order of that value;
    sorting them by it, as line 182 does with the years, changes nothing. *)
Theorem grouped_sums_are_in_key_order (df : DataFrame) (group_col : string)
    (on_text : outcome (list (cell * cell * cell)))
    (summary : list (cell * cell * cell)) :
  (forall s, on_text <> Ok s) ->
  grouped_sums df group_col on_text = Ok summary ->
  ascending group_of summary
  /\ sort_values group_of summary = summary
  /\ exists keys,
      column_is df group_col keys
      /\ List.length summary = count_distinct keys.
Proof.
  intros Htext H.
  destruct (grouped_sums_inv _ _ _ _ Htext H)
    as (keys & imps & exps & Hk & _ & _ & Hs).
  destruct (sums_rows_inv _ _ _ _ Hs) as [Hkeys _].
  assert (Hasc : ascending group_of summary)
    by (apply ascending_keys; rewrite Hkeys; apply group_keys_ascending).
  split; [exact Hasc|]. split; [now apply sort_values_ascending|].
  exists keys. split; [exact Hk|].
  now rewrite <- group_keys_length, <- Hkeys, length_map.
Qed.

Lemma grouped_sums_are_in_key_order_witness :
  ((forall s, @Beyond (list (cell * cell * cell)) <> Ok s)
   /\ grouped_sums sample_table YEAR Beyond
      = Ok [(CInt 2564, CInt 10, CFloat (51 # 2)); (CInt 2565, CInt 7, CFloat 0)])
  /\ ascending group_of
       [(CInt 2564, CInt 10, CFloat (51 # 2)); (CInt 2565, CInt 7, CFloat 0)]
  /\ sort_values group_of
       [(CInt 2564, CInt 10, CFloat (51 # 2)); (CInt 2565, CInt 7, CFloat 0)]
     = [(CInt 2564, CInt 10, CFloat (51 # 2)); (CInt 2565, CInt 7, CFloat 0)]
  /\ exists keys,
      column_is sample_table YEAR keys
      /\ List.length
           [(CInt 2564, CInt 10, CFloat (51 # 2)); (CInt 2565, CInt 7, CFloat 0)]
         = count_distinct keys.
Proof.
  assert (Ht : forall s, @Beyond (list (cell * cell * cell)) <> Ok s)
    by discriminate.
  assert (H : grouped_sums sample_table YEAR Beyond
              = Ok [(CInt 2564, CInt 10, CFloat (51 # 2));
                    (CInt 2565, CInt 7, CFloat 0)])
    by (vm_compute; reflexivity).
  split; [split; [exact Ht|exact H]|].
  exact (grouped_sums_are_in_key_order sample_table YEAR Beyond _ Ht H).
Defined.

(** *** What the ranking keeps and how ties fall *)

Section RankingOrder.
Context {A : Type} (val : A -> Q).


Lemma descending_app (l1 l2 : list A) (x y : A) :
  descending val (l1 ++ l2) -> In x l1 -> In y l2 -> (val y <= val x)%Q.
Proof.
  unfold descending. induction l1 as [|a l1 IH]; cbn; [contradiction|].
  intros H [<- | Hx] Hy; inversion H as [|? ? Hs Hall]; subst.
  - rewrite Forall_forall in Hall. apply Hall. apply in_or_app. now right.
  - now apply IH.
Qed.

(** An entry that is left out is no larger than any entry kept. *)
Lemma nlargest_dominates (n : Z) (l : list A) (x : A) :
  In x l ->
  In x (nlargest val n l)
  \/ (forall y, In y (nlargest val n l) -> (val x <= val y)%Q).
Proof.
  intros Hx. unfold nlargest. destruct (n <=? 0); [right; contradiction|].
  apply (Permutation_in _ (Permutation_sym (sort_desc_perm val l))) in Hx.
  pose proof (sort_desc_descending val l) as Hs.
  rewrite <- (firstn_skipn (Z.to_nat n) (sort_desc val l)) in Hx, Hs.
  apply in_app_or in Hx. destruct Hx as [Hx | Hx]; [now left|].
  right. intros y Hy. now apply (descending_app _ _ y x Hs).
Qed.

Lemma with_value_insert (v : Q) (x : A) (l : list A) :
  with_value val v (insert_desc val x l) = with_value val v (x :: l).
Proof.
  unfold with_value. induction l as [|y l IH]; [reflexivity|].
  cbn [insert_desc]. destruct (Qle_bool (val y) (val x)) eqn:E; [reflexivity|].
  cbn [filter] in *. rewrite IH.
  destruct (Qeq_bool (val x) v) eqn:Ex, (Qeq_bool (val y) v) eqn:Ey;
    try reflexivity.
  apply Qeq_bool_iff in Ex, Ey.
  assert (Hle : (val y <= val x)%Q) by (rewrite Ex, Ey; apply Qle_refl).
  apply Qle_bool_iff in Hle. congruence.
Qed.

(** The sort is stable: entries of equal value keep the order they had. *)
Lemma sort_desc_stable (v : Q) (l : list A) :
  with_value val v (sort_desc val l) = with_value val v l.
Proof.
  induction l as [|x l IH]; [reflexivity|].
  cbn [sort_desc fold_right]. fold (sort_desc val l).
  rewrite with_value_insert. unfold with_value in *. cbn [filter].
  now rewrite IH.
Qed.

Lemma filter_firstn (p : A -> bool) (n : nat) (l : list A) :
  exists m, filter p (firstn n l) = firstn m (filter p l).
Proof.
  revert n. induction l as [|x l IH]; intros [|n]; cbn;
    try (now exists O).
  destruct (IH n) as [m Hm]. destruct (p x).
  - exists (S m). cbn. now rewrite Hm.
  - now exists m.
Qed.

(** Of the entries that share a value, the ranking keeps the first ones, in
    the order they came in. *)
Lemma nlargest_ties (n : Z) (v : Q) (l : list A) :
  exists m, with_value val v (nlargest val n l) = firstn m (with_value val v l).
Proof.
  unfold nlargest. destruct (n <=? 0); [now exists O|].
  destruct (filter_firstn (fun x => Qeq_bool (val x) v) (Z.to_nat n)
              (sort_desc val l)) as [m Hm].
  exists m. unfold with_value at 1. rewrite Hm.
  fold (with_value val v (sort_desc val l)). now rewrite sort_desc_stable.
Qed.
End RankingOrder.

Lemma sums_of_ascending (keys : list cell) (ns : numbers)
    (sums : list (cell * cell)) :
  sums_of keys ns = Ok sums -> ascending fst sums.
Proof.
  intros H. destruct (sums_of_inv _ _ _ H) as [Hkeys _].
  apply ascending_keys. rewrite Hkeys. apply group_keys_ascending.
Qed.

(** X20. The summary of the top-N chart (line 147) holds the groups with
    the largest sums: a group that is left out has a sum no larger than any
    sum kept.  Of the groups whose sums are equal, it keeps the first ones
    in ascending order of key, in that order.  The sums are those of the
    column's dtype, [sums] (they exist unless one overflows float64). *)
Theorem top_n_keeps_the_largest (df : DataFrame)
    (col_name value_col : string) (top_n : Z)
    (keys : list cell) (ns : numbers) (sums : list (cell * cell)) :
  column_is df col_name keys -> metric_is df value_col ns ->
  col_name <> value_col ->
  sums_of keys ns = Ok sums ->
  exists top,
    top_n_summary df col_name value_col top_n = Ok top
    /\ (forall e, In e sums ->
          In e top \/ (forall e', In e' top -> (sum_of e <= sum_of e')%Q))
    /\ ascending fst sums
    /\ (forall v, exists m,
          with_value sum_of v top = firstn m (with_value sum_of v sums)).
Proof.
  intros Hk Hv Hne Hs. exists (nlargest sum_of top_n sums).
  split; [|split; [|split]].
  - unfold top_n_summary.
    rewrite (grouped_sum_ok _ _ _ _ _ Hk Hv), Hs. cbn [obind].
    apply String.eqb_neq in Hne. now rewrite Hne.
  - intros e He. now apply nlargest_dominates.
  - now apply (sums_of_ascending keys ns).
  - intros v. apply nlargest_ties.
Qed.

Lemma top_n_keeps_the_largest_witness :
  (column_is sample_table ITEM (column_at 2 sample_table)
   /\ metric_is sample_table IMPORTS (Ints [10; 0; 7])
   /\ ITEM <> IMPORTS
   /\ sums_of (column_at 2 sample_table) (Ints [10; 0; 7])
      = Ok [(CStr "Live cattle", CInt 0); (CStr "Live horses", CInt 17)])
  /\ exists top,
      top_n_summary sample_table ITEM IMPORTS 1 = Ok top
      /\ (forall e,
            In e [(CStr "Live cattle", CInt 0); (CStr "Live horses", CInt 17)] ->
            In e top \/ (forall e', In e' top -> (sum_of e <= sum_of e')%Q))
      /\ ascending fst
           [(CStr "Live cattle", CInt 0); (CStr "Live horses", CInt 17)]
      /\ (forall v, exists m,
            with_value sum_of v top
            = firstn m
                (with_value sum_of v
                   [(CStr "Live cattle", CInt 0);
                    (CStr "Live horses", CInt 17)])).
Proof.
  assert (Hk : column_is sample_table ITEM (column_at 2 sample_table))
    by (now exists 2%nat).
  assert (Hv : metric_is sample_table IMPORTS (Ints [10; 0; 7])).
  { exists (column_at 4 sample_table). split; [now exists 4%nat|reflexivity]. }
  assert (Hne : ITEM <> IMPORTS) by discriminate.
  assert (Hs : sums_of (column_at 2 sample_table) (Ints [10; 0; 7])
               = Ok [(CStr "Live cattle", CInt 0);
                     (CStr "Live horses", CInt 17)])
    by (vm_compute; reflexivity).
  split; [repeat split; assumption|].
  exact (top_n_keeps_the_largest sample_table ITEM IMPORTS 1 _ _ _
           Hk Hv Hne Hs).
Defined.





(** *** A metric column that is missing *)

(** X22. A frame that has the group column and lacks the metric column:
    the top-N helper raises [KeyError] and shows nothing; so does the
    balance helper on a frame without the import column, or with it and
    without the export column. *)
Theorem missing_metric_column_raises (df : DataFrame)
    (col_name value_col title : string) (top_n : Z) (keys : list cell) :
  column_is df col_name keys ->
  (has_column df value_col = false ->
   fst (create_top_n_chart df col_name value_col title top_n) = []
   /\ raises KeyError
        (snd (create_top_n_chart df col_name value_col title top_n)))
  /\ (has_column df IMPORTS = false ->
      fst (create_balance_chart df col_name title top_n) = []
      /\ raises KeyError (snd (create_balance_chart df col_name title top_n)))
  /\ (forall cells, column_is df IMPORTS cells ->
      has_column df EXPORTS = false ->
      fst (create_balance_chart df col_name title top_n) = []
      /\ raises KeyError (snd (create_balance_chart df col_name title top_n))).
Proof.
  intros Hk.
  assert (Hmiss : forall name, has_column df name = false ->
            selected df name = Raise (key_error name)).
  { intros name Hno. unfold selected, getitem.
    destruct (position name (columns df)) as [i|] eqn:Hp; [|reflexivity].
    assert (has_column df name = true) by (apply has_column_position; eauto).
    congruence. }
  split; [|split].
  - intros Hno. unfold create_top_n_chart, top_n_summary, grouped_sum.
    rewrite (proj1 (column_is_cells _ _ _ Hk)). cbn [negb].
    rewrite (grouper_ok _ _ _ Hk), (Hmiss _ Hno). cbn.
    split; [reflexivity|]. now exists value_col.
  - intros Hno. unfold create_balance_chart, balance_summary, grouped_sums.
    rewrite (proj1 (column_is_cells _ _ _ Hk)). cbn [negb].
    rewrite (grouper_ok _ _ _ Hk), (Hmiss _ Hno). cbn.
    split; [reflexivity|]. now exists IMPORTS.
  - intros cells Hi Hno.
    unfold create_balance_chart, balance_summary, grouped_sums.
    rewrite (proj1 (column_is_cells _ _ _ Hk)). cbn [negb].
    rewrite (grouper_ok _ _ _ Hk), (selected_ok _ _ _ Hi), (Hmiss _ Hno). cbn.
    split; [reflexivity|]. now exists EXPORTS.
Qed.

Lemma missing_metric_column_raises_witness :
  column_is table_without_imports COUNTRY [CStr "Japan"]
  /\ (has_column table_without_imports IMPORTS = false ->
      fst (create_top_n_chart table_without_imports COUNTRY IMPORTS "top" 10)
      = []
      /\ raises KeyError
           (snd (create_top_n_chart table_without_imports COUNTRY IMPORTS
                   "top" 10)))
  /\ (has_column table_without_imports IMPORTS = false ->
      fst (create_balance_chart table_without_imports COUNTRY "top" 10) = []
      /\ raises KeyError
           (snd (create_balance_chart table_without_imports COUNTRY "top" 10)))
  /\ (forall cells, column_is table_without_imports IMPORTS cells ->
      has_column table_without_imports EXPORTS = false ->
      fst (create_balance_chart table_without_imports COUNTRY "top" 10) = []
      /\ raises KeyError
           (snd (create_balance_chart table_without_imports COUNTRY "top" 10))).
Proof.
  assert (Hk : column_is table_without_imports COUNTRY [CStr "Japan"])
    by (now exists 0%nat).
  split; [exact Hk|].
  exact (missing_metric_column_raises table_without_imports COUNTRY IMPORTS
           "top" 10 _ Hk).
Defined.

(** ** The page *)

Lemma existsb_filter_false {A B} (p : B -> bool) (g : A -> B)
    (keep : A -> bool) (l : list A) :
  existsb p (map g l) = false -> existsb p (map g (filter keep l)) = false.
Proof.
  induction l as [|x l IH]; cbn; [easy|]. intros H.
  apply orb_false_iff in H as [H1 H2].
  destruct (keep x); cbn; [rewrite H1|]; auto.
Qed.

Lemma forallb_filter_true {A B} (p : B -> bool) (g : A -> B)
    (keep : A -> bool) (l : list A) :
  forallb p (map g l) = true -> forallb p (map g (filter keep l)) = true.
Proof.
  induction l as [|x l IH]; cbn; [easy|]. intros H.
  apply andb_true_iff in H as [H1 H2].
  destruct (keep x); cbn; [rewrite H1|]; auto.
Qed.

(** The filter keeps the dtype of a numeric column. *)
Lemma metric_is_filter (df : DataFrame) (name : string) (ns : numbers)
    (keep : list cell -> bool) :
  metric_is df name ns ->
  exists ns',
    metric_is (mkDF (columns df) (filter keep (rows df))) name ns'
    /\ (is_ints ns = true -> is_ints ns' = true).
Proof.
  intros (cells & [i Hget] & Hv). unfold getitem in Hget.
  destruct (position name (columns df)) as [j|] eqn:Hp; [|discriminate].
  destruct (occurrences name (columns df) =? 1)%nat eqn:Ho; [|discriminate].
  injection Hget as <- <-.
  assert (Hnum : exists ns',
             numeric_values (column_at j (mkDF (columns df)
                                            (filter keep (rows df))))
             = Numbers ns'
             /\ (is_ints ns = true -> is_ints ns' = true)).
  { unfold column_at in *. cbn [rows]. unfold numeric_values in *.
    destruct (existsb is_text (map (cell_at j) (rows df))) eqn:Et;
      [discriminate|].
    rewrite (existsb_filter_false _ _ keep _ Et).
    destruct (forallb is_int (map (cell_at j) (rows df))) eqn:Ei.
    - rewrite (forallb_filter_true _ _ keep _ Ei).
      eexists. split; reflexivity.
    - destruct (forallb is_float (map (cell_at j) (rows df))) eqn:Ef;
        [|discriminate].
      injection Hv as <-.
      rewrite (forallb_filter_true _ _ keep _ Ef).
      destruct (forallb is_int (map (cell_at j) (filter keep (rows df))));
        eexists; (split; [reflexivity|discriminate]). }
  destruct Hnum as (ns' & Hns' & Hdtype). exists ns'. split; [|exact Hdtype].
  exists (column_at j (mkDF (columns df) (filter keep (rows df)))).
  split; [|exact Hns']. exists j. unfold getitem. cbn [columns].
  now rewrite Hp, Ho.
Qed.

Lemma column_is_present (df : DataFrame) (name : string) :
  NoDup (columns df) -> has_column df name = true ->
  exists cells, column_is df name cells.
Proof.
  intros Hnd Hhas. apply has_column_position in Hhas. destruct Hhas as [i Hp].
  pose proof (occurrences_NoDup _ _ _ Hnd Hp) as Hocc.
  destruct (getitem_series df name Hocc) as (j & _ & Hget).
  eexists. exists j. exact Hget.
Qed.

(** *** Sums raise nothing *)

Lemma fadd_not_raise (x y : Q) (e : exn) : fadd x y <> Raise e.
Proof. unfold fadd. destruct (finite64 _); discriminate. Qed.

Lemma kahan_not_raise (vs : list Q) (s c : Q) (e : exn) :
  kahan vs s c <> Raise e.
Proof.
  revert s c. induction vs as [|v vs IH]; intros s c; cbn [kahan];
    [discriminate|].
  unfold fsub.
  repeat match goal with
  | |- context [obind (fadd ?x ?y) _] =>
      let E := fresh "E" in
      destruct (fadd x y) as [?| |] eqn:E; cbn [obind];
        [|now destruct (fadd_not_raise _ _ _ E)|discriminate]
  end.
  apply IH.
Qed.

Lemma group_total_not_raise (keys : list cell) (ns : numbers) (k : cell)
    (e : exn) :
  group_total keys ns k <> Raise e.
Proof.
  unfold group_total, total. destruct ns as [zs|qs]; cbn; [discriminate|].
  pose proof (kahan_not_raise (group_values keys qs k) 0 0 e) as H.
  destruct (kahan _ 0 0) as [q| |]; cbn [obind]; congruence.
Qed.

Lemma sums_of_not_raise (keys : list cell) (ns : numbers) (e : exn) :
  sums_of keys ns <> Raise e.
Proof.
  apply traverse_not_raise. intros k. unfold sum_row.
  pose proof (group_total_not_raise keys ns k e) as H.
  destruct (group_total keys ns k) as [t| |]; cbn [obind]; congruence.
Qed.

(** *** No view gets past its first chart *)

Section Charts.
Variable f : DataFrame.
Variable imps : numbers.
Hypothesis Hnd : NoDup (columns f).
Hypothesis Hi : metric_is f IMPORTS imps.

Lemma top_chart_stops (col title : string) (n : Z) :
  col <> IMPORTS ->
  exists l r,
    create_top_n_chart f col IMPORTS title n = (l, r)
    /\ quiet l /\ stops imps r.
Proof.
  intros Hne. unfold create_top_n_chart, stops.
  destruct (has_column f col) eqn:Hhas; cbn [negb].
  - destruct (column_is_present f col Hnd Hhas) as [keys Hk].
    unfold top_n_summary. rewrite (grouped_sum_ok _ _ _ _ _ Hk Hi).
    apply String.eqb_neq in Hne.
    destruct (sums_of keys imps) as [sums|e|] eqn:Es.
    + cbn. rewrite Hne. cbn. eexists [], _. split; [reflexivity|].
      split; [now repeat split|]. left. eexists. reflexivity.
    + now destruct (sums_of_not_raise _ _ _ Es).
    + cbn. eexists [], _. split; [reflexivity|].
      split; [now repeat split|]. right. split; [reflexivity|].
      destruct imps as [zs|qs]; [|reflexivity].
      rewrite int_sums_exist in Es. discriminate Es.
  - cbn. eexists [_], _. split; [reflexivity|].
    split; [now repeat split|]. left. eexists. reflexivity.
Qed.

Lemma top_charts_stop (col title_in title_out : string) :
  col <> IMPORTS ->
  exists l r,
    top_charts f col title_in title_out = (l, r)
    /\ quiet l /\ stops imps r.
Proof.
  intros Hne. unfold top_charts.
  destruct (top_chart_stops col title_in 10 Hne)
    as (l & r & E & (Q1 & Q2 & Q3) & [[msg ->] | [-> Hf]]);
    rewrite E; cbn; eexists _, _; (split; [reflexivity|]);
    unfold quiet, stops, errors, requests in *; cbn;
    rewrite Q1, Q2, Q3; (split; [now repeat split|]);
    [left; eexists; reflexivity|now right].
Qed.

Lemma charts_stop (a : analysis) :
  exists l r, charts a f = (l, r) /\ quiet l /\ stops imps r.
Proof.
  assert (H : forall col t1 t2 (rest : M unit), col <> IMPORTS ->
            forall head,
            exists l r,
              (emit (st_subheader head) ;; top_charts f col t1 t2 ;; rest)%run
              = (l, r) /\ quiet l /\ stops imps r).
  { intros col t1 t2 rest Hne head.
    destruct (top_charts_stop col t1 t2 Hne)
      as (l & r & E & (Q1 & Q2 & Q3) & [[msg ->] | [-> Hf]]);
      rewrite E; cbn; eexists _, _; (split; [reflexivity|]);
      unfold quiet, stops, errors, requests in *; cbn;
      rewrite Q1, Q2, Q3; (split; [now repeat split|]);
      [left; eexists; reflexivity|now right]. }
  destruct a; unfold charts; apply H; discriminate.
Qed.
End Charts.

Lemma df_empty_filter (df : DataFrame) (keep : list cell -> bool) :
  df_empty df = true ->
  df_empty (mkDF (columns df) (filter keep (rows df))) = true.
Proof.
  unfold df_empty. cbn [columns rows].
  destruct (columns df); [reflexivity|].
  destruct (rows df); [reflexivity|discriminate].
Qed.

(** The page on a frame whose import column holds numbers. *)
Lemma render_stops (df f : DataFrame) (inp : inputs) (imps : numbers) :
  NoDup (columns df) ->
  metric_is df IMPORTS imps ->
  filtered_df df (filters inp) = Ok f ->
  exists l r,
    render df inp = (l, r)
    /\ quiet l
    /\ (df_empty df = false -> In (st_dataframe f) l)
    /\ (df_empty f = true -> r = Ok tt)
    /\ (df_empty f = false ->
        raises NameError r \/ (r = Beyond /\ is_ints imps = false)).
Proof.
  intros Hnd Hi Hf.
  destruct (filtered_df_shape _ _ _ Hf) as [keep ->].
  unfold render. destruct (df_empty df) eqn:Hempty; cbn [negb].
  - rewrite df_empty_filter by exact Hempty.
    eexists _, _. split; [reflexivity|]. split; [now repeat split|].
    split; [discriminate|]. split; [reflexivity|discriminate].
  - destruct (metric_is_filter df IMPORTS imps keep Hi)
      as (imps' & Hi' & Hdtype).
    remember (mkDF (columns df) (filter keep (rows df))) as f eqn:Ef.
    assert (Hndf : NoDup (columns f)) by now subst f.
    unfold page. rewrite Hf.
    destruct (df_empty f) eqn:Hfe.
    + cbn. rewrite Hfe. eexists _, _. split; [reflexivity|].
      split; [now repeat split|]. split; [intros _; cbn; auto|].
      split; [reflexivity|discriminate].
    + destruct (charts_stop f imps' Hndf Hi' (analysis_type inp))
        as (l & r & E & (Q1 & Q2 & Q3) & Hr).
      cbn. rewrite Hfe, E. eexists _, _. split; [reflexivity|].
      split; [|split; [intros _; cbn; auto|split; [discriminate|]]].
      * unfold quiet, errors, requests in *. cbn. now rewrite Q1, Q2, Q3.
      * intros _. destruct Hr as [Hr | [Hr Hf']]; [now left|right].
        split; [exact Hr|].
        destruct (is_ints imps); [|reflexivity].
        rewrite Hdtype in Hf' by reflexivity. discriminate Hf'.
Qed.

Lemma sample_table_NoDup : NoDup (columns sample_table).
Proof. cbn. repeat constructor; cbn; intuition discriminate. Defined.

Lemma metric_is_unique (df : DataFrame) (name : string) (ns ns' : numbers) :
  metric_is df name ns -> metric_is df name ns' -> ns = ns'.
Proof.
  intros (cells & [i Hg] & Hv) (cells' & [i' Hg'] & Hv').
  rewrite Hg in Hg'. injection Hg' as _ <-. congruence.
Qed.

(** X23. From the sheet to the charts.  When the loader returned a frame
    whose columns bear distinct names, the import column among them, and
    the filter returned, the run shows the table and no error, and draws no
    chart.  It completes when no record is left; with a record left it
    ends at the first chart of the view chosen, where the name [go] or [px]
    is looked up and [NameError] raised: always so when the import column
    holds integers, and unless a sum overflows when it holds floats. *)
Theorem loaded_sheet_stops_at_the_first_chart (c : cache) (now : Z)
    (w : world) (inp : inputs) (l : list event) (df f : DataFrame) :
  fresh now c = None ->
  get_data_from_sheet w = (l, Ok df) ->
  NoDup (columns df) ->
  has_column df IMPORTS = true ->
  filtered_df df (filters inp) = Ok f ->
  exists elements r,
    snd (script c now w inp) = (elements, r)
    /\ errors elements = []
    /\ filter is_chart elements = []
    /\ (df_empty df = false -> In (st_dataframe f) elements)
    /\ (df_empty f = true -> r = Ok tt)
    /\ (df_empty f = false ->
        (r = Beyond \/ raises NameError r)
        /\ (forall zs, metric_is df IMPORTS (Ints zs) -> raises NameError r)).
Proof.
  intros Hc Hl Hnd Hi Hf.
  destruct (loaded_metric w l df IMPORTS Hl (or_introl eq_refl) Hi)
    as ((Herr & Hnochart) & imps & Himps).
  destruct (render_stops df f inp imps Hnd Himps Hf)
    as (lr & r & Er & (D1 & D2 & D3) & Dtable & Hdone & Hstop).
  unfold script, cached_get_data. rewrite Hc, Hl. cbn [snd].
  exists (st_set_page_config "wide" "แดชบอร์ดข้อมูลการค้า"
          :: st_title "📊 แดชบอร์ดข้อมูลการค้าระหว่างประเทศ" :: l ++ lr)%list, r.
  split; [|split; [|split; [|split; [|split]]]].
  - cbn. rewrite Er. now destruct r.
  - cbn. rewrite errors_app, Herr, D2. reflexivity.
  - cbn. rewrite filter_app, Hnochart, D1. reflexivity.
  - intros Hne. right. right. apply in_or_app. right. now apply Dtable.
  - exact Hdone.
  - intros Hfe. destruct (Hstop Hfe) as [Hr | [Hr Hfloat]].
    + split; [now right|]. intros _ _. exact Hr.
    + split; [now left|]. intros zs Hzs.
      rewrite (metric_is_unique _ _ _ _ Himps Hzs) in Hfloat.
      discriminate Hfloat.
Qed.

Lemma loaded_sheet_stops_at_the_first_chart_witness :
  (fresh 0 None = None
   /\ get_data_from_sheet (world_up sample_values)
      = (fst (get_data_from_sheet (world_up sample_values)), Ok sample_table)
   /\ NoDup (columns sample_table)
   /\ has_column sample_table IMPORTS = true
   /\ filtered_df sample_table (filters (Inputs Overview (Criteria "jap" "" "" "")))
      = Ok (mkDF (columns sample_table) (firstn 2 (rows sample_table))))
  /\ exists elements r,
      snd (script None 0 (world_up sample_values)
             (Inputs Overview (Criteria "jap" "" "" "")))
      = (elements, r)
      /\ errors elements = []
      /\ filter is_chart elements = []
      /\ (df_empty sample_table = false ->
          In (st_dataframe (mkDF (columns sample_table)
                              (firstn 2 (rows sample_table))))
            elements)
      /\ (df_empty (mkDF (columns sample_table) (firstn 2 (rows sample_table)))
          = true -> r = Ok tt)
      /\ (df_empty (mkDF (columns sample_table) (firstn 2 (rows sample_table)))
          = false ->
          (r = Beyond \/ raises NameError r)
          /\ (forall zs, metric_is sample_table IMPORTS (Ints zs) ->
                raises NameError r)).
Proof.
  assert (H : get_data_from_sheet (world_up sample_values)
              = (fst (get_data_from_sheet (world_up sample_values)),
                 Ok sample_table)) by (vm_compute; reflexivity).
  assert (Hf : filtered_df sample_table
                 (filters (Inputs Overview (Criteria "jap" "" "" "")))
               = Ok (mkDF (columns sample_table) (firstn 2 (rows sample_table))))
    by (vm_compute; reflexivity).
  split; [repeat split; auto using sample_table_NoDup|].
  exact (loaded_sheet_stops_at_the_first_chart None 0 (world_up sample_values)
           _ _ _ _ eq_refl H sample_table_NoDup eq_refl Hf).
Defined.

(** The run on the sample sheet, filtered by "jap": the table of two
    records is shown, then the first chart raises at [px]. *)
Example sample_run_raises_name_error :
  snd (snd (script None 0 (world_up sample_values)
              (Inputs Overview (Criteria "jap" "" "" ""))))
  = Raise (name_error "px")
  /\ filter is_chart
       (fst (snd (script None 0 (world_up sample_values)
                    (Inputs Overview (Criteria "jap" "" "" "")))))
     = [].
Proof. vm_compute. split; reflexivity. Qed.

(** X24. No record is left: the page shows the count 0, the empty table,
    the heading of the view and a warning; it computes no chart and raises
    nothing. *)
Theorem no_match_shows_a_warning (df f : DataFrame) (inp : inputs) :
  df_empty df = false ->
  filtered_df df (filters inp) = Ok f ->
  rows f = [] ->
  render df inp
  = ([st_sidebar_header "ตัวเลือกการวิเคราะห์และค้นหา";
      st_sidebar_subheader "ตัวกรองข้อมูล";
      st_subheader "ข้อมูลที่กรองแล้ว (0 แถว)";
      st_dataframe f;
      st_header (analysis_label (analysis_type inp));
      st_warning "ไม่พบข้อมูลตามเงื่อนไขที่เลือก กรุณาลองเลือกใหม่."],
     Ok tt).
Proof.
  intros Hne Hf Hrows. unfold render, page. rewrite Hne, Hf. cbn [negb].
  assert (Hempty : df_empty f = true)
    by (unfold df_empty; rewrite Hrows; now destruct (columns f)).
  assert (Hlen : df_len f = O) by (unfold df_len; now rewrite Hrows).
  cbn. now rewrite Hempty, Hlen.
Qed.

Lemma no_match_shows_a_warning_witness :
  (df_empty sample_table = false
   /\ filtered_df sample_table
        (filters (Inputs Overview (Criteria "Atlantis" "" "" "")))
      = Ok (mkDF (columns sample_table) [])
   /\ rows (mkDF (columns sample_table) []) = [])
  /\ render sample_table (Inputs Overview (Criteria "Atlantis" "" "" ""))
     = ([st_sidebar_header "ตัวเลือกการวิเคราะห์และค้นหา";
         st_sidebar_subheader "ตัวกรองข้อมูล";
         st_subheader "ข้อมูลที่กรองแล้ว (0 แถว)";
         st_dataframe (mkDF (columns sample_table) []);
         st_header (analysis_label
                      (analysis_type
                         (Inputs Overview (Criteria "Atlantis" "" "" ""))));
         st_warning "ไม่พบข้อมูลตามเงื่อนไขที่เลือก กรุณาลองเลือกใหม่."],
        Ok tt).
Proof.
  assert (Hf : filtered_df sample_table
                 (filters (Inputs Overview (Criteria "Atlantis" "" "" "")))
               = Ok (mkDF (columns sample_table) []))
    by (vm_compute; reflexivity).
  split; [split; [reflexivity|split; [exact Hf|reflexivity]]|].
  exact (no_match_shows_a_warning sample_table _ _ eq_refl Hf eq_refl).
Defined.

Lemma top_chart_missing_metric (df : DataFrame)
    (col value title : string) (n : Z) (keys : list cell) :
  column_is df col keys -> has_column df value = false ->
  create_top_n_chart df col value title n = ([], Raise (key_error value)).
Proof.
  intros Hk Hno. unfold create_top_n_chart, top_n_summary, grouped_sum.
  rewrite (proj1 (column_is_cells _ _ _ Hk)). cbn [negb].
  rewrite (grouper_ok _ _ _ Hk). unfold selected, getitem.
  destruct (position value (columns df)) as [i|] eqn:Hp; [|reflexivity].
  assert (has_column df value = true) by (apply has_column_position; eauto).
  congruence.
Qed.

(** X25. On a sheet without the import column no view gets as far as a
    chart: once the frame has the column a view groups by, the first chart
    of the view raises [KeyError] and the run of the page ends there, with
    the table shown and no chart drawn. *)
Theorem sheet_without_imports_breaks_every_view (df : DataFrame)
    (a : analysis) (keys : list cell) :
  df_empty df = false ->
  has_column df IMPORTS = false ->
  column_is df (group_column a) keys ->
  raises KeyError (snd (render df (Inputs a no_criteria)))
  /\ In (st_dataframe df) (fst (render df (Inputs a no_criteria)))
  /\ filter is_chart (fst (render df (Inputs a no_criteria))) = [].
Proof.
  intros Hne Hno Hk. unfold render, page. rewrite Hne. cbn [negb].
  assert (Hf : filtered_df df (filters (Inputs a no_criteria)) = Ok df)
    by reflexivity.
  rewrite Hf.
  assert (Hchart : forall title,
             create_top_n_chart df (group_column a) IMPORTS title 10
             = ([], Raise (key_error IMPORTS)))
    by (intros title; now apply top_chart_missing_metric with keys).
  destruct a; cbn [group_column] in Hchart; cbn; rewrite Hne; cbn;
    unfold top_charts; rewrite Hchart; cbn;
    (split; [now exists IMPORTS|auto 10]).
Qed.

Lemma sheet_without_imports_breaks_every_view_witness :
  (df_empty table_without_imports = false
   /\ has_column table_without_imports IMPORTS = false
   /\ column_is table_without_imports (group_column ItemAnalysis)
        [CStr "Live horses"])
  /\ raises KeyError
       (snd (render table_without_imports (Inputs ItemAnalysis no_criteria)))
  /\ In (st_dataframe table_without_imports)
       (fst (render table_without_imports (Inputs ItemAnalysis no_criteria)))
  /\ filter is_chart
       (fst (render table_without_imports (Inputs ItemAnalysis no_criteria)))
     = [].
Proof.
  assert (Hk : column_is table_without_imports (group_column ItemAnalysis)
                 [CStr "Live horses"]) by (now exists 1%nat).
  split; [split; [reflexivity|split; [reflexivity|exact Hk]]|].
  exact (sheet_without_imports_breaks_every_view table_without_imports
           ItemAnalysis _ eq_refl eq_refl Hk).
Defined.

(** *** What a page is made of *)

Lemma bind_elements {A B} (P : event -> Prop) (m : M A) (f : A -> M B) :
  Forall P (fst m) ->
  (forall a, snd m = Ok a -> Forall P (fst (f a))) ->
  Forall P (fst (bind m f)).
Proof.
  destruct m as [l [a|e|]]; cbn; intros Hl Hf; auto.
  specialize (Hf a eq_refl). destruct (f a) as [l' r]. cbn in *.
  apply Forall_app. now split.
Qed.

Lemma top_chart_elements (f : DataFrame) (col value title : string) (n : Z) :
  Forall element (fst (create_top_n_chart f col value title n))
  /\ forall fig, snd (create_top_n_chart f col value title n) = Ok fig ->
       element (st_plotly_chart fig).
Proof.
  unfold create_top_n_chart. destruct (has_column f col); cbn.
  - destruct (top_n_summary f col value n) as [top| |]; cbn;
      split; try constructor; discriminate.
  - split; [repeat constructor|discriminate].
Qed.

Lemma balance_chart_elements (f : DataFrame) (col title : string) (n : Z) :
  Forall element (fst (create_balance_chart f col title n))
  /\ forall fig, snd (create_balance_chart f col title n) = Ok fig ->
       element (st_plotly_chart fig).
Proof.
  unfold create_balance_chart. destruct (has_column f col); cbn.
  - destruct (balance_summary f col n) as [top| |]; cbn;
      split; try constructor; discriminate.
  - split; [repeat constructor|discriminate].
Qed.

Lemma emit_elements (ev : event) :
  element ev -> Forall element (fst (emit ev)).
Proof. intros H. now repeat constructor. Qed.

Lemma top_charts_elements (f : DataFrame) (col t1 t2 : string) :
  Forall element (fst (top_charts f col t1 t2)).
Proof.
  unfold top_charts.
  apply bind_elements; [now apply emit_elements|]. intros _ _.
  apply bind_elements; [apply top_chart_elements|]. intros fig1 H1.
  apply bind_elements;
    [apply emit_elements; now apply (top_chart_elements f col IMPORTS t1 10)|].
  intros _ _.
  apply bind_elements; [apply top_chart_elements|]. intros fig2 H2.
  apply emit_elements. now apply (top_chart_elements f col EXPORTS t2 10).
Qed.

Lemma balance_elements (f : DataFrame) (col title : string) :
  Forall element (fst (balance_chart f col title)).
Proof.
  unfold balance_chart.
  apply bind_elements; [apply balance_chart_elements|]. intros fig H.
  apply emit_elements. now apply (balance_chart_elements f col title 10).
Qed.

Lemma charts_elements (a : analysis) (f : DataFrame) :
  Forall element (fst (charts a f)).
Proof.
  destruct a; unfold charts;
    (apply bind_elements; [now apply emit_elements|]; intros _ _);
    (apply bind_elements; [apply top_charts_elements|]; intros _ _);
    try apply balance_elements.
  destruct (has_column f YEAR); [|now apply emit_elements].
  apply bind_elements; [constructor|]. intros summary _.
  apply bind_elements; [constructor|]. intros fig Hfig. discriminate Hfig.
Qed.

Lemma render_elements (df : DataFrame) (inp : inputs) :
  Forall element (fst (render df inp)).
Proof.
  unfold render. destruct (negb (df_empty df)); [|now apply emit_elements].
  unfold page.
  apply bind_elements; [now apply emit_elements|]. intros _ _.
  apply bind_elements; [now apply emit_elements|]. intros _ _.
  apply bind_elements; [constructor|]. intros f _.
  apply bind_elements; [now apply emit_elements|]. intros _ _.
  apply bind_elements; [now apply emit_elements|]. intros _ _.
  apply bind_elements; [now apply emit_elements|]. intros _ _.
  destruct (df_empty f); [now apply emit_elements|apply charts_elements].
Qed.

Lemma elements_ask_nothing (l : list event) :
  Forall element l -> requests l = [] /\ errors l = [].
Proof.
  unfold requests, errors. induction 1 as [|ev l Hev _ [IH1 IH2]]; [now split|].
  unfold element in Hev. destruct ev; try discriminate Hev; cbn; now split.
Qed.

(** X26. Whatever the frame and the inputs, and whether the run completes
    or raises, a page shows only headings, the table, the column layout,
    warnings, the notice and charts: it sends no request, it shows no
    error element (a failure past the loader is an exception, not a
    message), and it never draws the grouped bars of [create_trade_chart],
    a helper no view calls. *)
Theorem page_elements_only (df : DataFrame) (inp : inputs) :
  snd (render df inp) <> Beyond ->
  Forall (fun ev => page_element ev = true) (fst (render df inp))
  /\ requests (fst (render df inp)) = []
  /\ errors (fst (render df inp)) = []
  /\ forall title summary,
       ~ In (st_plotly_chart (Figure_bars title summary)) (fst (render df inp)).
Proof.
  intros _. pose proof (render_elements df inp) as H.
  split; [exact H|].
  destruct (elements_ask_nothing _ H) as [H1 H2].
  split; [exact H1|]. split; [exact H2|].
  intros title summary Hin. rewrite Forall_forall in H.
  apply H in Hin. discriminate Hin.
Qed.

Lemma page_elements_only_witness :
  snd (render table_without_imports (Inputs Overview no_criteria)) <> Beyond
  /\ Forall (fun ev => page_element ev = true)
       (fst (render table_without_imports (Inputs Overview no_criteria)))
  /\ requests (fst (render table_without_imports (Inputs Overview no_criteria)))
     = []
  /\ errors (fst (render table_without_imports (Inputs Overview no_criteria)))
     = []
  /\ forall title summary,
       ~ In (st_plotly_chart (Figure_bars title summary))
           (fst (render table_without_imports (Inputs Overview no_criteria))).
Proof.
  assert (H : snd (render table_without_imports (Inputs Overview no_criteria))
              <> Beyond) by (vm_compute; discriminate).
  split; [exact H|].
  exact (page_elements_only table_without_imports
           (Inputs Overview no_criteria) H).
Defined.

#[local] Arguments render : simpl never.

(** X9. A rerun of the script less than 300 seconds after a load, as when
    the user types in a filter box, asks the remote service nothing,
    whatever the world is by then: the page is made from the frame the
    cache holds, for the new inputs. *)
Theorem rerun_within_ttl_asks_nothing (c0 : cache) (t0 now : Z)
    (w w' : world) (inp inp' : inputs) (l : list event) (df : DataFrame) :
  fresh t0 c0 = None ->
  get_data_from_sheet w = (l, Ok df) ->
  t0 <= now < t0 + 300 ->
  snd (render df inp') <> Beyond ->
  let c1 := fst (script c0 t0 w inp) in
  fst (script c1 now w' inp') = c1
  /\ requests (fst (snd (script c1 now w' inp'))) = []
  /\ snd (snd (script c1 now w' inp')) = snd (render df inp').
Proof.
  intros Hc Hl Hnow _.
  assert (Hc1 : fst (script c0 t0 w inp) = Some (Entry t0 df (replayed l))).
  { unfold script, cached_get_data. now rewrite Hc, Hl. }
  cbv zeta. rewrite Hc1. set (en := Entry t0 df (replayed l)).
  unfold script.
  rewrite (cached_hit en now w') by (cbn; unfold TTL; lia).
  subst en. cbn.
  pose proof (render_elements df inp') as H.
  destruct (render df inp') as [lr r]. cbn in *.
  split; [reflexivity|]. split; [|reflexivity].
  rewrite requests_app, requests_of_elements.
  now destruct (elements_ask_nothing _ H).
Qed.

Lemma rerun_within_ttl_asks_nothing_witness :
  (fresh 0 None = None
   /\ get_data_from_sheet (world_up sample_values)
      = (fst (get_data_from_sheet (world_up sample_values)), Ok sample_table)
   /\ 0 <= 120 < 0 + 300
   /\ snd (render sample_table (Inputs Overview (Criteria "jap" "" "" "")))
      <> Beyond)
  /\ (let c1 := fst (script None 0 (world_up sample_values)
                       (Inputs Overview no_criteria)) in
      fst (script c1 120 world_no_sheet
             (Inputs Overview (Criteria "jap" "" "" ""))) = c1
      /\ requests (fst (snd (script c1 120 world_no_sheet
                               (Inputs Overview (Criteria "jap" "" "" "")))))
         = []
      /\ snd (snd (script c1 120 world_no_sheet
                     (Inputs Overview (Criteria "jap" "" "" ""))))
         = snd (render sample_table
                  (Inputs Overview (Criteria "jap" "" "" "")))).
Proof.
  assert (H : get_data_from_sheet (world_up sample_values)
              = (fst (get_data_from_sheet (world_up sample_values)),
                 Ok sample_table)) by (vm_compute; reflexivity).
  assert (Ht : 0 <= 120 < 0 + 300) by lia.
  assert (Hr : snd (render sample_table
                      (Inputs Overview (Criteria "jap" "" "" ""))) <> Beyond)
    by (vm_compute; discriminate).
  split; [repeat split; try assumption; lia|].
  exact (rerun_within_ttl_asks_nothing None 0 120 (world_up sample_values)
           world_no_sheet (Inputs Overview no_criteria)
           (Inputs Overview (Criteria "jap" "" "" "")) _ _ eq_refl H Ht Hr).
Defined.
